(** * Linux-Scripts: the FTP user manager and the diagnostic helpers

    A shallow embedding of the administrative scripts

      - [ftp/ftp_users.py]        ([PasswordGenerator], [FTPUserManager]),
      - [ftp/ftp_debug.py]        ([FTPDebugger]),
      - [tailscale/tailscale_setup.py] ([TailscaleSetup]),
      - [tailscale/tailscale_debug.py] ([TailscaleDebugger]),

    and the properties of their natural-language specification.

    Conventions of the embedding.

    - A Python [str] is a Rocq [string]; a character is an [ascii], read as
      the code point 0..255 (Latin-1).  The character tables of
      [str.isalpha], [str.isalnum] and [str.strip] are given on that range.
      A Python [bytes] is a [string] as well, one [ascii] per byte;
      [bytes.decode] checks that the bytes are UTF-8 and keeps them.
    - The values found in a settings file are the JSON scalars ([value]);
      a settings section is a [gmap string value], as [dict.get] sees it.
    - A method is a computation over a [world]: the flat files, the output
      printed so far, the processes spawned so far, and what the operating
      system will answer next (random draws, exit statuses, the clock).
      A computation either returns or raises, and keeps the world it built
      up to that point in both cases.
    - A settings file is bytes that cannot be read as text, text that
      [json.load] rejects, or JSON.  Of the JSON documents only those of
      the shape the scripts expect are covered: an object whose members
      are objects of scalars.
    - A text file is the text Python's text mode presents.  A path is
      the text [str] gives for the [pathlib] path, so without redundant
      slashes and [.] components; [Path], [/] and [.parent] follow
      [PurePosixPath].
    - Interrupts from outside (a [KeyboardInterrupt]) are not part of the
      world.

    As it stands [ftp/ftp_users.py] does not parse: the [def] of
    [show_user_info] is indented by six columns inside a class whose
    methods are indented by four.  The embedding follows the method
    bodies, which are well-formed one by one. *)

From Stdlib Require Import ZArith List String Ascii Lia Permutation Bool.
From stdpp Require Import gmap strings list fin_maps.

Local Open Scope Z_scope.

(* ===================================================================== *)
(** * Python values and dictionaries                                      *)
(* ===================================================================== *)

(** The scalars [json.load] produces: [null], booleans, integers, strings. *)
Inductive value :=
| VNone
| VBool (b : bool)
| VInt (n : Z)
| VStr (s : string).

(** Truth value of an object in an [if]. *)
Definition truthy (v : value) : bool :=
  match v with
  | VNone => false
  | VBool b => b
  | VInt n => negb (n =? 0)
  | VStr s => negb (String.eqb s EmptyString)
  end.

(** [operator.index]: what [range] and integer arithmetic accept.  A Python
    [bool] is an [int]. *)
Definition index (v : value) : option Z :=
  match v with
  | VBool b => Some (Z.b2z b)
  | VInt n => Some n
  | _ => None
  end.

(** [d.get(key, dflt)]. *)
Definition dict_get (d : gmap string value) (key : string) (dflt : value) : value :=
  default dflt (d !! key).

(** The decimal numeral of an integer. *)
Definition digit_char (n : nat) : ascii := ascii_of_nat (48 + n).

Fixpoint decimal_digits (fuel : nat) (n : nat) (acc : list ascii) : list ascii :=
  match fuel with
  | O => acc
  | S fuel' =>
      let acc' := digit_char (n mod 10) :: acc in
      if (n / 10 =? 0)%nat then acc' else decimal_digits fuel' (n / 10)%nat acc'
  end.

Definition str_of_Z (n : Z) : string :=
  let a := Z.to_nat (Z.abs n) in
  let ds := string_of_list_ascii (decimal_digits (S a) a []) in
  if n <? 0 then String "-" ds else ds.

(** [str(v)], as an f-string renders a value. *)
Definition py_str (v : value) : string :=
  match v with
  | VNone => "None"
  | VBool true => "True"
  | VBool false => "False"
  | VInt n => str_of_Z n
  | VStr s => s
  end.

(* ===================================================================== *)
(** * Exceptions, the world, and computations                             *)
(* ===================================================================== *)

(** The exception classes the scripts raise or handle.  All but
    [SystemExit] derive from [Exception]; [JSONDecodeError] and
    [UnicodeDecodeError] are [ValueError]s, neither a subclass of the
    other; [TimeoutExpired] and [CalledProcessError] are
    [SubprocessError]s, [IOError] is [OSError].  A [CalledProcessError]
    carries the standard error of the process where it was captured
    ([None] where the script raises the exception itself); a
    [UnicodeDecodeError] carries the bytes that are not text. *)
Inductive exn :=
| IndexError (msg : string)
| TypeError
| KeyError
| OSError (msg : string)
| JSONDecodeError (msg : string)
| UnicodeDecodeError (object : string)
| CalledProcessError (returncode : Z) (cmd : list string) (stderr : option string)
| TimeoutExpired
| SystemExit (code : Z).

(** [isinstance(e, Exception)]. *)
Definition is_Exception (e : exn) : bool :=
  match e with
  | SystemExit _ => false
  | _ => true
  end.

(** How a call ends: it returns a value or raises an exception. *)
Inductive result (A : Type) :=
| Ret (a : A)
| Raise (e : exn).
Arguments Ret {A} a.
Arguments Raise {A} e.

(** A regular file: its text and its permission bits. *)
Record file := File { content : string; mode : Z }.

Definition mode_0600 : Z := 384.   (* 0o600 *)
Definition mode_0644 : Z := 420.   (* 0o644 *)
Definition mode_0755 : Z := 493.   (* 0o755 *)

(** The lines [print] writes, one constructor per call site. *)
Inductive message :=
| InvalidUsername (why : string)
| UserAlreadyExists (username : string)
| CreatingUser (username : string)
| AccountCreated
| SettingUpDirectories
| DirectoryStructureCreated (home files : string)
| AddedToAllowedUsers
| AlreadyInAllowedUsers
| CredentialsSaved (path : string)
| FailedToLogCredentials (why : string)
| CreatedSuccessfully (username : string)
| FailedToCreateUser (returncode : Z) (cmd : list string)
| ErrorOutput (stderr : option string)
| UnexpectedError (e : exn)
| UserDoesNotExist (username : string)
| DeletingUser (username : string)
| AccountDeleted
| RemovedFromAllowedUsers
| DeletedSuccessfully (username : string)
| FailedToDeleteUser (returncode : Z) (cmd : list string)
| ChangingPassword (username : string)
| PasswordChanged
| FailedToChangePassword (returncode : Z) (cmd : list string)
| ConfigNotFound (path : string)
| InvalidJSON (why : string)
| ConfigNotFoundWarning (path : string)
| InvalidJSONWarning (why : string)
| UsingDefaultSettings.

(** Directory and ownership calls, recorded as issued. *)
Inductive syscall :=
| Mkdir (path : string)
| Chown (path : string) (uid gid : Z)
| Chmod (path : string) (perm : Z).

(** A spawned process: its argument vector, what was fed to its standard
    input, and the status it exited with ([None] when it was killed at the
    timeout). *)
Record process := Process { argv : list string; stdin : string; status : option Z }.

(** What [subprocess] reports for one spawned process: it runs for some
    seconds and exits, or it cannot be started at all ([OSError]). *)
Inductive run_result :=
| Exits (returncode : Z) (out err : string) (seconds : Z)
| CannotRun (why : string).

(** A settings file as [open] and [json.load] read it: bytes that are
    not text in the encoding of the locale, text that is rejected with a
    [JSONDecodeError], or an object of sections. *)
Inductive json_file :=
| Undecodable (bytes : string)
| NotJSON (why : string)
| JSON (cfg : gmap string (gmap string value)).

(** All a method can read or change. *)
Record world := World {
  files : gmap string file;         (* the flat text files, by path *)
  settings : gmap string json_file; (* the settings files, by path *)
  printed : list message;           (* standard output, oldest first *)
  spawned : list process;           (* processes run, oldest first *)
  syscalls : list syscall;          (* directory calls made, oldest first *)
  entropy : list nat;               (* what the random source yields next *)
  answers : list run_result;        (* how the next processes will end *)
  clock : string;                   (* datetime.now().strftime(...) *)
  passwd : option (Z * Z);          (* pwd.getpwnam: uid and gid, if any *)
  dir_fault : option nat;           (* directory calls left before an OSError *)
  log_fault : option string;        (* an IOError opening the credential log *)
  umask_mode : Z                    (* permission bits of a fresh file *)
}.

(** Updates of one component of the world. *)
Definition set_files (fs : gmap string file) (w : world) : world :=
  World fs (settings w) (printed w) (spawned w) (syscalls w) (entropy w)
        (answers w) (clock w) (passwd w) (dir_fault w) (log_fault w) (umask_mode w).
Definition set_printed (ms : list message) (w : world) : world :=
  World (files w) (settings w) ms (spawned w) (syscalls w) (entropy w)
        (answers w) (clock w) (passwd w) (dir_fault w) (log_fault w) (umask_mode w).
Definition set_spawned (ps : list process) (w : world) : world :=
  World (files w) (settings w) (printed w) ps (syscalls w) (entropy w)
        (answers w) (clock w) (passwd w) (dir_fault w) (log_fault w) (umask_mode w).
Definition set_syscalls (cs : list syscall) (w : world) : world :=
  World (files w) (settings w) (printed w) (spawned w) cs (entropy w)
        (answers w) (clock w) (passwd w) (dir_fault w) (log_fault w) (umask_mode w).
Definition set_entropy (rs : list nat) (w : world) : world :=
  World (files w) (settings w) (printed w) (spawned w) (syscalls w) rs
        (answers w) (clock w) (passwd w) (dir_fault w) (log_fault w) (umask_mode w).
Definition set_answers (rs : list run_result) (w : world) : world :=
  World (files w) (settings w) (printed w) (spawned w) (syscalls w) (entropy w)
        rs (clock w) (passwd w) (dir_fault w) (log_fault w) (umask_mode w).
Definition set_dir_fault (f : option nat) (w : world) : world :=
  World (files w) (settings w) (printed w) (spawned w) (syscalls w) (entropy w)
        (answers w) (clock w) (passwd w) f (log_fault w) (umask_mode w).

(** A computation: from a world to how it ends and the world it leaves. *)
Definition M (A : Type) : Type := world -> result A * world.

Definition ret {A} (a : A) : M A := fun w => (Ret a, w).
Definition raise {A} (e : exn) : M A := fun w => (Raise e, w).
Definition bind {A B} (m : M A) (k : A -> M B) : M B :=
  fun w => match m w with
           | (Ret a, w') => k a w'
           | (Raise e, w') => (Raise e, w')
           end.

(** [try: body  except ...]: [except e] is the handler of the first clause
    that matches [e], if any; it runs in the world the body left. *)
Definition try_ {A} (body : M A) (except : exn -> option (M A)) : M A :=
  fun w => match body w with
           | (Raise e, w') =>
               match except e with
               | Some handler => handler w'
               | None => (Raise e, w')
               end
           | r => r
           end.

Declare Scope py_scope.
Delimit Scope py_scope with py.
Notation "x <- m ;; k" := (bind m (fun x => k))
  (at level 100, m at next level, right associativity) : py_scope.
Notation "m ;;; k" := (bind m (fun _ => k))
  (at level 100, right associativity) : py_scope.
Local Open Scope py_scope.

(** Running a computation: what it gives and the world it leaves. *)
Definition outcome {A} (m : M A) (w : world) : result A := fst (m w).
Definition after {A} (m : M A) (w : world) : world := snd (m w).

(* ===================================================================== *)
(** * The [secrets] module                                                *)
(* ===================================================================== *)

(** One draw from the random source; a dry source yields 0. *)
Definition draw : M nat :=
  fun w => match entropy w with
           | [] => (Ret 0%nat, w)
           | r :: rest => (Ret r, set_entropy rest w)
           end.

(** [_randbelow(n)] for [n > 0]. *)
Definition randbelow (n : nat) : M nat :=
  r <- draw ;; ret (r mod n)%nat.

(** The exception [secrets.choice] raises on an empty sequence. *)
Definition empty_sequence : exn := IndexError "Cannot choose from an empty sequence".

(** [secrets.choice(seq)]: [IndexError] on an empty sequence. *)
Definition choice (seq : list ascii) : M ascii :=
  match seq with
  | [] => raise empty_sequence
  | c0 :: _ => i <- randbelow (List.length seq) ;; ret (nth i seq c0)
  end.

(** [x[i], x[j] = x[j], x[i]]. *)
Definition swap (x : list ascii) (i j : nat) : list ascii :=
  match x !! i, x !! j with
  | Some xi, Some xj => <[j:=xi]> (<[i:=xj]> x)
  | _, _ => x
  end.

(** [for i in reversed(range(1, len(x))): j = randbelow(i + 1); swap]. *)
Fixpoint shuffle_from (i : nat) (x : list ascii) : M (list ascii) :=
  match i with
  | O => ret x
  | S i' => j <- randbelow (S i) ;; shuffle_from i' (swap x i j)
  end.

(** [secrets.SystemRandom().shuffle(x)]. *)
Definition shuffle (x : list ascii) : M (list ascii) :=
  shuffle_from (List.length x - 1) x.

(* ===================================================================== *)
(** * [class PasswordGenerator]                                           *)
(* ===================================================================== *)

(** A string as the list of its characters, and back ([''.join]). *)
Definition chars (s : string) : list ascii := list_ascii_of_string s.
Definition join (cs : list ascii) : string := string_of_list_ascii cs.

(** [s.replace(c, '')] for a one-character [c]. *)
Definition remove_char (c : ascii) (cs : list ascii) : list ascii :=
  List.filter (fun x => negb (Ascii.eqb x c)) cs.

(** [range(v)] as the number of iterations; [TypeError] unless [v] is an
    integer. *)
Definition range (v : value) : M nat :=
  match index v with
  | Some n => ret (Z.to_nat n)
  | None => raise TypeError
  end.

(** [for _ in range(n): password_chars.append(secrets.choice(pool))]. *)
Fixpoint append_choices (n : nat) (pool password_chars : list ascii) : M (list ascii) :=
  match n with
  | O => ret password_chars
  | S n' => c <- choice pool ;; append_choices n' pool (password_chars ++ [c])
  end.

Module PasswordGenerator.

Record t := Build {
  policy : gmap string value;
  length : value;
  include_uppercase : value;
  include_lowercase : value;
  include_digits : value;
  include_special : value;
  special_chars : value;
  exclude_ambiguous : value
}.

(** [__init__(self, policy)]. *)
Definition init (policy : gmap string value) : t :=
  {| policy := policy;
     length := dict_get policy "length" (VInt 16);
     include_uppercase := dict_get policy "include_uppercase" (VBool true);
     include_lowercase := dict_get policy "include_lowercase" (VBool true);
     include_digits := dict_get policy "include_digits" (VBool true);
     include_special := dict_get policy "include_special" (VBool true);
     special_chars := dict_get policy "special_chars" (VStr "!@#$%^&*-_=+");
     exclude_ambiguous := dict_get policy "exclude_ambiguous" (VBool true) |}.

Definition ascii_lowercase : list ascii := chars "abcdefghijklmnopqrstuvwxyz".
Definition ascii_uppercase : list ascii := chars "ABCDEFGHIJKLMNOPQRSTUVWXYZ".
Definition digits : list ascii := chars "0123456789".

(** The alphabets after the [exclude_ambiguous] filter. *)
Definition lowercase (self : t) : list ascii :=
  if truthy (exclude_ambiguous self)
  then remove_char "o" (remove_char "l" ascii_lowercase)
  else ascii_lowercase.

Definition uppercase (self : t) : list ascii :=
  if truthy (exclude_ambiguous self)
  then remove_char "O" (remove_char "I" ascii_uppercase)
  else ascii_uppercase.

Definition digits_of (self : t) : list ascii :=
  if truthy (exclude_ambiguous self)
  then remove_char "1" (remove_char "0" digits)
  else digits.

(** The state of [generate] between its blocks: [charset] and
    [password_chars]. *)
Definition acc : Type := list ascii * list ascii.

Definition lowercase_block (self : t) (a : acc) : M acc :=
  if truthy (include_lowercase self) then
    let charset := fst a ++ lowercase self in
    n <- range (dict_get (policy self) "min_lowercase" (VInt 2)) ;;
    pc <- append_choices n (lowercase self) (snd a) ;;
    ret (charset, pc)
  else ret a.

Definition uppercase_block (self : t) (a : acc) : M acc :=
  if truthy (include_uppercase self) then
    let charset := fst a ++ uppercase self in
    n <- range (dict_get (policy self) "min_uppercase" (VInt 2)) ;;
    pc <- append_choices n (uppercase self) (snd a) ;;
    ret (charset, pc)
  else ret a.

Definition digits_block (self : t) (a : acc) : M acc :=
  if truthy (include_digits self) then
    let charset := fst a ++ digits_of self in
    n <- range (dict_get (policy self) "min_digits" (VInt 2)) ;;
    pc <- append_choices n (digits_of self) (snd a) ;;
    ret (charset, pc)
  else ret a.

(** [charset += self.special_chars] needs a [str] on the right. *)
Definition special_block (self : t) (a : acc) : M acc :=
  if truthy (include_special self) then
    match special_chars self with
    | VStr sc =>
        let charset := fst a ++ chars sc in
        n <- range (dict_get (policy self) "min_special" (VInt 2)) ;;
        pc <- append_choices n (chars sc) (snd a) ;;
        ret (charset, pc)
    | _ => raise TypeError
    end
  else ret a.

(** [remaining_length = self.length - len(password_chars)], then the
    filling loop. *)
Definition fill_block (self : t) (a : acc) : M (list ascii) :=
  match index (length self) with
  | Some len =>
      let remaining_length := len - Z.of_nat (List.length (snd a)) in
      append_choices (Z.to_nat remaining_length) (fst a) (snd a)
  | None => raise TypeError
  end.

(** [generate(self)]. *)
Definition generate (self : t) : M string :=
  a <- lowercase_block self ([], []) ;;
  a <- uppercase_block self a ;;
  a <- digits_block self a ;;
  a <- special_block self a ;;
  password_chars <- fill_block self a ;;
  password_chars <- shuffle password_chars ;;
  ret (join password_chars).

End PasswordGenerator.

(* ===================================================================== *)
(** * Text: character classes, [strip], lines, CSV rows                   *)
(* ===================================================================== *)

(** The code point of a character, and a range test on it. *)
Definition code (c : ascii) : N := N_of_ascii c.

Definition between (lo hi : N) (c : ascii) : bool :=
  ((lo <=? code c) && (code c <=? hi))%N.

(** [str.isalpha] on one character: the letters of Latin-1. *)
Definition isalpha (c : ascii) : bool :=
  between 65 90 c || between 97 122 c
  || between 170 170 c || between 181 181 c || between 186 186 c
  || between 192 214 c || between 216 246 c || between 248 255 c.

(** [str.isalnum]: letters, decimal digits, and the Latin-1 characters
    with a numeric value (superscripts and vulgar fractions). *)
Definition isalnum (c : ascii) : bool :=
  isalpha c || between 48 57 c
  || between 178 179 c || between 185 185 c || between 188 190 c.

(** [str.isspace]: what [strip()] removes. *)
Definition isspace (c : ascii) : bool :=
  between 9 13 c || between 28 32 c || between 133 133 c || between 160 160 c.

(** Dropping leading white space. *)
Fixpoint lstrip (cs : list ascii) : list ascii :=
  match cs with
  | [] => []
  | c :: rest => if isspace c then lstrip rest else cs
  end.

(** [lstrip] from the other end. *)
Definition rstrip (cs : list ascii) : list ascii := rev (lstrip (rev cs)).

(** [s.strip()]. *)
Definition strip (s : string) : string := join (rstrip (lstrip (chars s))).

Definition newline : ascii := "010"%char.
Definition carriage_return : ascii := "013"%char.
Definition comma : ascii := ","%char.
Definition quotechar : ascii := "034"%char.

(** The lines of a text, each with its terminator; the last one may lack
    it. *)
Fixpoint lines_of (cs : list ascii) : list (list ascii) :=
  match cs with
  | [] => []
  | c :: rest =>
      if Ascii.eqb c newline then [c] :: lines_of rest
      else match lines_of rest with
           | [] => [[c]]
           | l :: ls => (c :: l) :: ls
           end
  end.

(** [f.readlines()], and the lines [for line in f] yields. *)
Definition readlines (text : string) : list string :=
  map join (lines_of (chars text)).

(** [''.join(parts)] on strings. *)
Definition concat_str (parts : list string) : string :=
  fold_right String.append EmptyString parts.

(** [x in xs] on a list of strings. *)
Definition str_in (x : string) (xs : list string) : bool :=
  existsb (String.eqb x) xs.

(** [csv.writer(f).writerow(row)] in the default (excel) dialect: fields
    joined by commas, a field holding a comma, a quote or a line break
    quoted with its quotes doubled, the row ended by CR LF. *)
Definition needs_quotes (c : ascii) : bool :=
  Ascii.eqb c comma || Ascii.eqb c quotechar
  || Ascii.eqb c carriage_return || Ascii.eqb c newline.

Definition double_quotes (cs : list ascii) : list ascii :=
  flat_map (fun c => if Ascii.eqb c quotechar then [c; c] else [c]) cs.

Definition csv_field (s : string) : list ascii :=
  if existsb needs_quotes (chars s)
  then quotechar :: double_quotes (chars s) ++ [quotechar]
  else chars s.

Fixpoint csv_fields (row : list string) : list ascii :=
  match row with
  | [] => []
  | [x] => csv_field x
  | x :: rest => csv_field x ++ comma :: csv_fields rest
  end.

(** The text [writerow] writes. *)
Definition writerow (row : list string) : string :=
  join (csv_fields row ++ [carriage_return; newline]).

(** [b.decode()] accepts the byte strings that are UTF-8: a byte below
    128; a lead byte [C2]..[DF], [E0]..[EF] or [F0]..[F4] followed by one,
    two or three continuation bytes, the first of which is narrowed after
    [E0], [ED], [F0] and [F4] so that no overlong form, surrogate or code
    point past [10FFFF] gets through.  [expect] lists the ranges of the
    continuation bytes still due. *)
Fixpoint utf8 (expect : list (N * N)) (bytes : list ascii) : bool :=
  match bytes with
  | [] => match expect with
          | [] => true
          | _ :: _ => false
          end
  | b :: rest =>
      match expect with
      | (lo, hi) :: more => between lo hi b && utf8 more rest
      | [] =>
          if between 0 127 b then utf8 [] rest
          else if between 194 223 b then utf8 [(128, 191)%N] rest
          else if between 224 224 b then utf8 [(160, 191)%N; (128, 191)%N] rest
          else if between 225 236 b || between 238 239 b
               then utf8 [(128, 191)%N; (128, 191)%N] rest
          else if between 237 237 b then utf8 [(128, 159)%N; (128, 191)%N] rest
          else if between 240 240 b
               then utf8 [(144, 191)%N; (128, 191)%N; (128, 191)%N] rest
          else if between 241 243 b
               then utf8 [(128, 191)%N; (128, 191)%N; (128, 191)%N] rest
          else if between 244 244 b
               then utf8 [(128, 143)%N; (128, 191)%N; (128, 191)%N] rest
          else false
      end
  end.

(** [f"{p}/{name}"]: the two texts with a slash between them, as
    [_log_credentials] writes the directories of a user. *)
Definition path_join (p name : string) : string :=
  String.append p (String "/" name).

(** [sep.join(parts)]. *)
Fixpoint join_with (sep : string) (parts : list string) : string :=
  match parts with
  | [] => EmptyString
  | [p] => p
  | p :: rest => String.append p (String.append sep (join_with sep rest))
  end.

(** Paths, as [pathlib] has them on POSIX.  A path is kept as the text
    [str] gives for it: the root ([/], or [//] for exactly two leading
    slashes), then the components joined by single slashes, the empty
    components and the components [.] dropped; [.] when nothing is left.

    [s.split('/')]. *)
Fixpoint split_slash (cs : list ascii) : list (list ascii) :=
  match cs with
  | [] => [[]]
  | c :: rest =>
      if Ascii.eqb c "/" then [] :: split_slash rest
      else match split_slash rest with
           | [] => [[c]]
           | word :: more => (c :: word) :: more
           end
  end.

(** The components of a path: [x for x in rel.split('/') if x and x != '.']. *)
Definition components (cs : list ascii) : list string :=
  List.filter (fun x => negb (String.eqb x EmptyString) && negb (String.eqb x "."))
              (map join (split_slash cs)).

(** The root of a path ([posixpath.splitroot]). *)
Definition root_of (cs : list ascii) : string :=
  match cs with
  | c1 :: c2 :: c3 :: _ =>
      if Ascii.eqb c1 "/"
      then if Ascii.eqb c2 "/" && negb (Ascii.eqb c3 "/") then "//" else "/"
      else EmptyString
  | [c1; c2] =>
      if Ascii.eqb c1 "/" then if Ascii.eqb c2 "/" then "//" else "/" else EmptyString
  | [c1] => if Ascii.eqb c1 "/" then "/" else EmptyString
  | [] => EmptyString
  end.

(** [str] of the path with this root and these components. *)
Definition render (root : string) (tail : list string) : string :=
  let text := String.append root (join_with "/" tail) in
  if String.eqb text EmptyString then "." else text.

(** [str(Path(s))]. *)
Definition normpath (s : string) : string :=
  render (root_of (chars s)) (components (chars s)).

(** [str(Path(v))]; [Path] wants a [str]. *)
Definition as_path (v : value) : option string :=
  match v with
  | VStr s => Some (normpath s)
  | _ => None
  end.

(** [Path(v)]. *)
Definition Path (v : value) : M string :=
  match as_path v with
  | Some p => ret p
  | None => raise TypeError
  end.

(** [posixpath.join(p, name)], which [p / name] parses: an absolute [name]
    stands alone. *)
Definition posix_join (p name : string) : string :=
  if match chars name with
     | c :: _ => Ascii.eqb c "/"
     | [] => false
     end
  then name
  else if String.eqb p EmptyString
          || match last (chars p) with
             | Some c => Ascii.eqb c "/"
             | None => false
             end
  then String.append p name
  else String.append p (String "/" name).

(** [p / name]. *)
Definition joinpath (p name : string) : string := normpath (posix_join p name).

(** [p.parent]: the path without its last component; the root and [.] are
    their own parents. *)
Definition parent (p : string) : string :=
  render (root_of (chars p)) (removelast (components (chars p))).

(* ===================================================================== *)
(** * Operating-system calls                                              *)
(* ===================================================================== *)

(** [print(...)]. *)
Definition print (m : message) : M unit :=
  fun w => (Ret tt, set_printed (printed w ++ [m]) w).

(** The next process: recorded, and ended as the world says (a world with
    nothing more to say lets it exit with status 0 at once). *)
Definition next_answer (w : world) : run_result * list run_result :=
  match answers w with
  | [] => (Exits 0 EmptyString EmptyString 0, [])
  | r :: rest => (r, rest)
  end.

(** [subprocess.run(cmd, capture_output=True, timeout=timeout)]; the
    result is the triple (returncode, stdout, stderr).  An empty [cmd] has
    no program to run ([args[0]] raises [IndexError]). *)
Definition subprocess_run (cmd : list string) (input : string) (timeout : option Z)
  : M (Z * string * string) :=
  fun w =>
    match cmd with
    | [] => (Raise (IndexError "list index out of range"), w)
    | _ :: _ =>
        let (r, rest) := next_answer w in
        let ran st :=
          set_answers rest (set_spawned (spawned w ++ [Process cmd input st]) w) in
        match r with
        | CannotRun why => (Raise (OSError why), set_answers rest w)
        | Exits rc out err secs =>
            match timeout with
            | Some t => if t <? secs then (Raise TimeoutExpired, ran None)
                        else (Ret (rc, out, err), ran (Some rc))
            | None => (Ret (rc, out, err), ran (Some rc))
            end
        end
    end.

(** [subprocess.run(cmd, check=True, capture_output=True)]. *)
Definition run_checked (cmd : list string) : M unit :=
  r <- subprocess_run cmd EmptyString None ;;
  let rc := fst (fst r) in
  if rc =? 0 then ret tt else raise (CalledProcessError rc cmd (Some (snd r))).

(** [b.decode()]: the text of bytes that are UTF-8, kept as those bytes;
    a [UnicodeDecodeError] for any others. *)
Definition decode (b : string) : M string :=
  if utf8 [] (chars b) then ret b else raise (UnicodeDecodeError b).

(** The arguments of a command must be strings. *)
Fixpoint arguments (vs : list value) : M (list string) :=
  match vs with
  | [] => ret []
  | VStr s :: rest => ss <- arguments rest ;; ret (s :: ss)
  | _ :: _ => raise TypeError
  end.

(** A directory or ownership call: recorded, unless the fault is due. *)
Definition syscall_ (c : syscall) : M unit :=
  fun w =>
    match dir_fault w with
    | Some O => (Raise (OSError "directory call failed"), set_dir_fault None w)
    | Some (S k) => (Ret tt, set_dir_fault (Some k) (set_syscalls (syscalls w ++ [c]) w))
    | None => (Ret tt, set_syscalls (syscalls w ++ [c]) w)
    end.

(** [path.exists()]. *)
Definition exists_ (path : string) : M bool :=
  fun w => (Ret (bool_decide (is_Some (files w !! path))), w).

(** [open(path, 'r')] and reading it all. *)
Definition read_text (path : string) : M string :=
  fun w => match files w !! path with
           | Some f => (Ret (content f), w)
           | None => (Raise (OSError "No such file or directory"), w)
           end.

(** [open(path, 'a').write(text)]: the file is created when missing. *)
Definition append_text (path text : string) : M unit :=
  fun w =>
    let f := match files w !! path with
             | Some f => File (String.append (content f) text) (mode f)
             | None => File text (umask_mode w)
             end in
    (Ret tt, set_files (<[path:=f]> (files w)) w).

(** [open(path, 'w').write(text)]: the file is truncated, or created. *)
Definition write_text (path text : string) : M unit :=
  fun w =>
    let f := match files w !! path with
             | Some f => File text (mode f)
             | None => File text (umask_mode w)
             end in
    (Ret tt, set_files (<[path:=f]> (files w)) w).

(** [os.chmod(path, perm)] on a regular file. *)
Definition chmod_file (path : string) (perm : Z) : M unit :=
  fun w => match files w !! path with
           | Some f => (Ret tt, set_files (<[path:=File (content f) perm]> (files w)) w)
           | None => (Raise (OSError "No such file or directory"), w)
           end.

(** [pwd.getpwnam(username)]: uid and gid, or [KeyError]. *)
Definition getpwnam (username : string) : M (Z * Z) :=
  fun w => match passwd w with
           | Some ids => (Ret ids, w)
           | None => (Raise KeyError, w)
           end.

(** [datetime.now().strftime('%Y-%m-%d %H:%M:%S')]. *)
Definition strftime_now : M string := fun w => (Ret (clock w), w).

(** [json.load] on the settings file at [path], which exists. *)
Definition json_load (doc : json_file) : M (gmap string (gmap string value)) :=
  match doc with
  | JSON cfg => ret cfg
  | NotJSON why => raise (JSONDecodeError why)
  | Undecodable bytes => raise (UnicodeDecodeError bytes)
  end.

(* ===================================================================== *)
(** * [class FTPUserManager]                                              *)
(* ===================================================================== *)

Module FTPUserManager.

Record t := Build {
  config : gmap string (gmap string value);
  ftp_config : gmap string value;
  password_policy : gmap string value;
  user_defaults : gmap string value;
  logging_config : gmap string value;
  password_generator : PasswordGenerator.t
}.

(** [_load_config(self, config_file)]. *)
Definition _load_config (config_file : string) : M (gmap string (gmap string value)) :=
  fun w =>
    match settings w !! config_file with
    | None =>
        (print (ConfigNotFound config_file) ;;; raise (SystemExit 1)) w
    | Some doc =>
        try_ (json_load doc)
             (fun e => match e with
                       | JSONDecodeError why =>
                           Some (print (InvalidJSON why) ;;; raise (SystemExit 1))
                       | _ => None
                       end) w
    end.

(** [self.config.get(section, {})]. *)
Definition section (cfg : gmap string (gmap string value)) (name : string)
  : gmap string value :=
  default ∅ (cfg !! name).

(** [__init__(self, config_file)], once the configuration is loaded. *)
Definition of_config (cfg : gmap string (gmap string value)) : t :=
  {| config := cfg;
     ftp_config := section cfg "ftp_config";
     password_policy := section cfg "password_policy";
     user_defaults := section cfg "user_defaults";
     logging_config := section cfg "logging";
     password_generator := PasswordGenerator.init (section cfg "password_policy") |}.

(** [FTPUserManager(config_file)]. *)
Definition init (config_file : string) : M t :=
  cfg <- _load_config config_file ;; ret (of_config cfg).

(** [user_exists(self, username)]. *)
Definition user_exists (username : string) : M bool :=
  try_ (run_checked ["id"; username] ;;; ret true)
       (fun e => match e with
                 | CalledProcessError _ _ _ => Some (ret false)
                 | _ => None
                 end).

(** The names [validate_username] refuses. *)
Definition reserved : list string :=
  ["root"; "admin"; "administrator"; "ftp"; "test"].

(** [validate_username(self, username)]. *)
Definition validate_username (username : string) : bool * string :=
  match chars username with
  | [] => (false, "Username cannot be empty")
  | c0 :: _ =>
      if (String.length username <? 3)%nat then
        (false, "Username must be at least 3 characters")
      else if (32 <? String.length username)%nat then
        (false, "Username must be 32 characters or less")
      else if negb (isalpha c0) then
        (false, "Username must start with a letter")
      else if negb (forallb (fun c => isalnum c || Ascii.eqb c "-" || Ascii.eqb c "_")
                            (chars username)) then
        (false, "Username can only contain letters, numbers, hyphens, and underscores")
      else if str_in username reserved then
        (false, "Username is reserved")
      else (true, EmptyString)
  end.

(** [_log_credentials(self, username, password)]. *)
Definition _log_credentials (self : t) (username password : string) : M unit :=
  if negb (truthy (dict_get (logging_config self) "enabled" (VBool true))) then ret tt
  else
    credentials_file <-
      Path (dict_get (logging_config self) "credentials_file"
                     (VStr "/root/.ftp_credentials.csv")) ;;
    syscall_ (Mkdir (parent credentials_file)) ;;;
    file_exists <- exists_ credentials_file ;;
    try_
      ((fun w => match log_fault w with
                 | Some why => (Raise (OSError why), w)
                 | None => (Ret tt, w)
                 end) ;;;
       (if file_exists then ret tt
        else append_text credentials_file
               (writerow ["Timestamp"; "Username"; "Password";
                          "Home Directory"; "Files Directory"])) ;;;
       timestamp <- strftime_now ;;
       let ftp_root := py_str (dict_get (ftp_config self) "ftp_root" (VStr "/srv/ftp")) in
       let home_dir := path_join ftp_root username in
       let files_dir := path_join (path_join ftp_root username) "files" in
       append_text credentials_file
         (writerow [timestamp; username; password; home_dir; files_dir]) ;;;
       chmod_file credentials_file mode_0600 ;;;
       print (CredentialsSaved credentials_file))
      (fun e => match e with
                | OSError why => Some (print (FailedToLogCredentials why))
                | _ => None
                end).

(** The [chpasswd] step shared by [create_user] and [change_password]:
    [Popen], [communicate], and the check of the return code. *)
Definition chpasswd (username password : string) : M unit :=
  r <- subprocess_run ["chpasswd"]
         (String.append username (String ":" password)) None ;;
  let rc := fst (fst r) in
  if negb (rc =? 0) then raise (CalledProcessError rc ["chpasswd"] None) else ret tt.

(** The body of the [try] in [create_user], in the source's own four
    parts: "Create user" and "Set password", ... *)
Definition create_account (self : t) (username password user_home : string) : M unit :=
  print (CreatingUser username) ;;;
  let shell := dict_get (ftp_config self) "default_shell" (VStr "/bin/bash") in
  let group := dict_get (ftp_config self) "ftp_group" (VStr "ftpusers") in
  cmd <- arguments [VStr "useradd"; VStr "-m"; VStr "-d"; VStr user_home;
                    VStr "-s"; shell; VStr "-G"; group; VStr username] ;;
  run_checked cmd ;;;
  chpasswd username password ;;;
  print AccountCreated.

(** ... "Create directory structure", ... *)
Definition create_directories (username user_home user_files : string) : M unit :=
  print SettingUpDirectories ;;;
  syscall_ (Mkdir user_home) ;;;
  syscall_ (Chown user_home 0 0) ;;;
  syscall_ (Chmod user_home mode_0755) ;;;
  syscall_ (Mkdir user_files) ;;;
  user_info <- getpwnam username ;;
  syscall_ (Chown user_files (fst user_info) (snd user_info)) ;;;
  syscall_ (Chmod user_files mode_0755) ;;;
  print (DirectoryStructureCreated user_home user_files).

(** ... "Add to allowed users list", ... *)
Definition add_to_allowed_users (self : t) (username : string) : M unit :=
  userlist_file <-
    Path (dict_get (ftp_config self) "allowed_users_file" (VStr "/etc/vsftpd.userlist")) ;;
  present <- exists_ userlist_file ;;
  (if present then ret tt
   else write_text userlist_file EmptyString ;;; chmod_file userlist_file mode_0644) ;;;
  text <- read_text userlist_file ;;
  let existing_users := map strip (readlines text) in
  if negb (str_in username existing_users) then
    append_text userlist_file (String.append username (String newline EmptyString)) ;;;
    print AddedToAllowedUsers
  else print AlreadyInAllowedUsers.

(** ... and "Log credentials". *)
Definition create_user_body (self : t) (username password user_home user_files : string)
  : M (bool * string * string) :=
  create_account self username password user_home ;;;
  create_directories username user_home user_files ;;;
  add_to_allowed_users self username ;;;
  _log_credentials self username password ;;;
  print (CreatedSuccessfully username) ;;;
  ret (true, username, password).

(** The cleanup of the [CalledProcessError] handler, under its bare
    [except: pass]. *)
Definition cleanup (username : string) : M unit :=
  try_ (present <- user_exists username ;;
        if present
        then subprocess_run ["userdel"; "-r"; username] EmptyString None ;;; ret tt
        else ret tt)
       (fun _ => Some (ret tt)).

(** [e.stderr.decode() if e.stderr else 'None'], which the handler of
    [CalledProcessError] prints: the error output of [useradd] is decoded
    when there is some. *)
Definition error_output (stderr : option string) : M (option string) :=
  match stderr with
  | Some b => if negb (String.eqb b EmptyString)
              then text <- decode b ;; ret (Some text)
              else ret None
  | None => ret None
  end.

(** [create_user(self, username, password=None)]. *)
Definition create_user (self : t) (username : string) (password : option string)
  : M (bool * string * string) :=
  let (valid, message) := validate_username username in
  if negb valid then
    print (InvalidUsername message) ;;; ret (false, username, EmptyString)
  else
    present <- user_exists username ;;
    if present then
      print (UserAlreadyExists username) ;;; ret (false, username, EmptyString)
    else
      password <- match password with
                  | None => PasswordGenerator.generate (password_generator self)
                  | Some p => ret p
                  end ;;
      ftp_root <- Path (dict_get (ftp_config self) "ftp_root" (VStr "/srv/ftp")) ;;
      let user_home := joinpath ftp_root username in
      let user_files := joinpath user_home "files" in
      try_ (create_user_body self username password user_home user_files)
           (fun e => match e with
                     | CalledProcessError rc cmd stderr =>
                         Some (print (FailedToCreateUser rc cmd) ;;;
                               text <- error_output stderr ;;
                               print (ErrorOutput text) ;;;
                               cleanup username ;;;
                               ret (false, username, EmptyString))
                     | _ =>
                         if is_Exception e
                         then Some (print (UnexpectedError e) ;;;
                                    ret (false, username, EmptyString))
                         else None
                     end).

(** [delete_user(self, username, remove_home=True)]. *)
Definition delete_user (self : t) (username : string) (remove_home : bool) : M bool :=
  present <- user_exists username ;;
  if negb present then
    print (UserDoesNotExist username) ;;; ret false
  else
    print (DeletingUser username) ;;;
    try_
      (let cmd := ["userdel"] ++ (if remove_home then ["-r"] else []) ++ [username] in
       run_checked cmd ;;;
       print AccountDeleted ;;;
       userlist_file <-
         Path (dict_get (ftp_config self) "allowed_users_file"
                        (VStr "/etc/vsftpd.userlist")) ;;
       listed <- exists_ userlist_file ;;
       (if listed then
          text <- read_text userlist_file ;;
          let lines := readlines text in
          write_text userlist_file
            (concat_str (List.filter (fun line => negb (String.eqb (strip line) username))
                                     lines)) ;;;
          print RemovedFromAllowedUsers
        else ret tt) ;;;
       print (DeletedSuccessfully username) ;;;
       ret true)
      (fun e => match e with
                | CalledProcessError rc cmd _ =>
                    Some (print (FailedToDeleteUser rc cmd) ;;; ret false)
                | _ => None
                end).

(** [change_password(self, username, new_password=None)]. *)
Definition change_password (self : t) (username : string) (new_password : option string)
  : M (bool * string) :=
  present <- user_exists username ;;
  if negb present then
    print (UserDoesNotExist username) ;;; ret (false, EmptyString)
  else
    new_password <- match new_password with
                    | None => PasswordGenerator.generate (password_generator self)
                    | Some p => ret p
                    end ;;
    print (ChangingPassword username) ;;;
    try_
      (chpasswd username new_password ;;;
       print PasswordChanged ;;;
       _log_credentials self username new_password ;;;
       ret (true, new_password))
      (fun e => match e with
                | CalledProcessError rc cmd _ =>
                    Some (print (FailedToChangePassword rc cmd) ;;; ret (false, EmptyString))
                | _ => None
                end).

End FTPUserManager.

(* ===================================================================== *)
(** * The diagnostic and setup scripts                                    *)
(* ===================================================================== *)

(** [str(e)]. *)
Definition str_exn (e : exn) : string :=
  match e with
  | IndexError msg => msg
  | TypeError => "TypeError"
  | KeyError => "KeyError"
  | OSError msg => msg
  | JSONDecodeError msg => msg
  | UnicodeDecodeError _ => "'utf-8' codec can't decode bytes"
  | CalledProcessError _ _ _ => "Command returned non-zero exit status"
  | TimeoutExpired => "Command timed out"
  | SystemExit code => str_of_Z code
  end.

Module FTPDebugger.

(** [_load_config(self, config_file)]: a missing file, and any failure
    to read it, give the empty configuration. *)
Definition _load_config (config_file : string) : M (gmap string (gmap string value)) :=
  fun w =>
    match settings w !! config_file with
    | None => (Ret ∅, w)
    | Some doc => try_ (json_load doc) (fun _ => Some (ret ∅)) w
    end.

(** The default of [timeout] in [_run_command]. *)
Definition default_timeout : Z := 10.

(** [_run_command(self, cmd, timeout=10)]. *)
Definition _run_command (cmd : list string) (timeout : Z) : M (Z * string * string) :=
  try_ (subprocess_run cmd EmptyString (Some timeout))
       (fun e => match e with
                 | TimeoutExpired => Some (ret (-1, EmptyString, "Command timed out"))
                 | _ => if is_Exception e
                        then Some (ret (-1, EmptyString, str_exn e))
                        else None
                 end).

End FTPDebugger.

Module TailscaleDebugger.

(** [_load_config(self, config_file)]. *)
Definition _load_config (config_file : string) : M (gmap string (gmap string value)) :=
  fun w =>
    match settings w !! config_file with
    | None => (Ret ∅, w)
    | Some doc => try_ (json_load doc) (fun _ => Some (ret ∅)) w
    end.

(** The default of [timeout] in [_run_command]. *)
Definition default_timeout : Z := 10.

(** [_run_command(self, cmd, timeout=10)]. *)
Definition _run_command (cmd : list string) (timeout : Z) : M (Z * string * string) :=
  try_ (subprocess_run cmd EmptyString (Some timeout))
       (fun e => match e with
                 | TimeoutExpired => Some (ret (-1, EmptyString, "Command timed out"))
                 | _ => if is_Exception e
                        then Some (ret (-1, EmptyString, str_exn e))
                        else None
                 end).

End TailscaleDebugger.

Module TailscaleSetup.

(** [_load_config(self, config_file)]. *)
Definition _load_config (config_file : string) : M (gmap string (gmap string value)) :=
  fun w =>
    match settings w !! config_file with
    | None =>
        (print (ConfigNotFoundWarning config_file) ;;;
         print UsingDefaultSettings ;;;
         ret ∅) w
    | Some doc =>
        try_ (json_load doc)
             (fun e => match e with
                       | JSONDecodeError why =>
                           Some (print (InvalidJSONWarning why) ;;;
                                 print UsingDefaultSettings ;;;
                                 ret ∅)
                       | _ => None
                       end) w
    end.

End TailscaleSetup.

(** The scripts that read a settings file, and what loading it does. *)
Inductive script :=
| ftp_users
| ftp_debug
| tailscale_setup
| tailscale_debug.

(** [_load_config] of the class a script defines. *)
Definition load_config (s : script) : string -> M (gmap string (gmap string value)) :=
  match s with
  | ftp_users => FTPUserManager._load_config
  | ftp_debug => FTPDebugger._load_config
  | tailscale_setup => TailscaleSetup._load_config
  | tailscale_debug => TailscaleDebugger._load_config
  end.

(** The exit status the interpreter reports for a run that ended this way:
    0 on return, the code of a [SystemExit], 1 after a traceback. *)
Definition exit_status {A} (r : result A) : Z :=
  match r with
  | Ret _ => 0
  | Raise (SystemExit code) => code
  | Raise _ => 1
  end.

Import FTPUserManager.

(* ===================================================================== *)
(** * Vocabulary of the specification                                 *)
(* ===================================================================== *)

(** The four character classes of a password policy. *)
Inductive charclass := Lowercase | Uppercase | Digits | Special.

Definition charclasses : list charclass := [Lowercase; Uppercase; Digits; Special].

Definition enabled (self : PasswordGenerator.t) (k : charclass) : bool :=
  truthy match k with
         | Lowercase => PasswordGenerator.include_lowercase self
         | Uppercase => PasswordGenerator.include_uppercase self
         | Digits => PasswordGenerator.include_digits self
         | Special => PasswordGenerator.include_special self
         end.

(** The characters a class draws from. *)
Definition alphabet (self : PasswordGenerator.t) (k : charclass) : list ascii :=
  match k with
  | Lowercase => PasswordGenerator.lowercase self
  | Uppercase => PasswordGenerator.uppercase self
  | Digits => PasswordGenerator.digits_of self
  | Special => match PasswordGenerator.special_chars self with
               | VStr sc => chars sc
               | _ => []
               end
  end.

(** The policy key of the minimum of a class. *)
Definition min_key (k : charclass) : string :=
  match k with
  | Lowercase => "min_lowercase"
  | Uppercase => "min_uppercase"
  | Digits => "min_digits"
  | Special => "min_special"
  end.

(** The configured minimum of a class (2 when not configured), as a count. *)
Definition minimum (self : PasswordGenerator.t) (k : charclass) : nat :=
  match index (dict_get (PasswordGenerator.policy self) (min_key k) (VInt 2)) with
  | Some n => Z.to_nat n
  | None => 0
  end.

(** The characters the minimums of the enabled classes ask for. *)
Definition required (self : PasswordGenerator.t) : nat :=
  list_sum (map (fun k => if enabled self k then minimum self k else 0%nat) charclasses).

(** The configured length, as a count. *)
Definition configured_length (self : PasswordGenerator.t) : nat :=
  match index (PasswordGenerator.length self) with
  | Some n => Z.to_nat n
  | None => 0
  end.

(** How many characters of [s] belong to [pool]. *)
Definition member (pool : list ascii) (c : ascii) : bool := existsb (Ascii.eqb c) pool.

Definition count_in (pool : list ascii) (s : string) : nat :=
  List.length (List.filter (member pool) (chars s)).

(** A policy [generate] can serve: integer length and minimums, a string of
    special characters, and something to draw from wherever a draw is due. *)
Definition class_ok (self : PasswordGenerator.t) (k : charclass) : bool :=
  negb (enabled self k)
  || (bool_decide (is_Some (index (dict_get (PasswordGenerator.policy self)
                                            (min_key k) (VInt 2))))
      && match k with
         | Special => match PasswordGenerator.special_chars self with
                      | VStr sc => negb (String.eqb sc EmptyString)
                                   || (minimum self k =? 0)%nat
                      | _ => false
                      end
         | _ => true
         end).

Definition well_formed (self : PasswordGenerator.t) : bool :=
  forallb (class_ok self) charclasses
  && bool_decide (is_Some (index (PasswordGenerator.length self)))
  && ((configured_length self <=? required self)%nat
      || existsb (fun k => enabled self k
                           && negb (match alphabet self k with [] => true | _ => false end))
                 charclasses).

(** The rules for a username, in the words of the specification. *)
Definition first_is_letter (username : string) : Prop :=
  exists c rest, chars username = c :: rest /\ isalpha c = true.

(** A character a username may hold. *)
Definition name_character (c : ascii) : Prop :=
  isalnum c = true \/ c = "-"%char \/ c = "_"%char.

(** A username that meets every rule. *)
Record acceptable (username : string) : Prop := {
  long_enough : (3 <= String.length username)%nat;
  short_enough : (String.length username <= 32)%nat;
  starts_with_letter : first_is_letter username;
  only_name_characters : Forall name_character (chars username);
  not_reserved : ~ In username ["root"; "admin"; "administrator"; "ftp"; "test"]
}.




(** What [_run_command] reports for each way a process can end. *)
Definition report (cmd : list string) (timeout : Z) (r : run_result)
  : Z * string * string :=
  match cmd, r with
  | [], _ => (-1, EmptyString, "list index out of range")
  | _, Exits rc out err seconds =>
      if timeout <? seconds then (-1, EmptyString, "Command timed out")
      else (rc, out, err)
  | _, CannotRun why => (-1, EmptyString, why)
  end.

(** The text of the file at [path]; a missing file reads as empty. *)
Definition listing (path : string) (w : world) : string :=
  match files w !! path with
  | Some f => content f
  | None => EmptyString
  end.

(** A name on a line of its own. *)
Definition line (name : string) : string := String.append name (String newline EmptyString).

(** How often [username] is listed: the lines of the allow-list whose
    stripped text is [username]. *)
Definition occurrences (username : string) (text : string) : nat :=
  List.length (List.filter (fun line => String.eqb (strip line) username) (readlines text)).

(** A line is closed when its last character is a line feed; a text is
    newline-terminated when every line of it is closed. *)
Definition closed (l : list ascii) : bool :=
  match last l with
  | Some c => Ascii.eqb c newline
  | None => false
  end.

Definition newline_terminated (text : string) : bool :=
  forallb closed (lines_of (chars text)).

(** The lines [delete_user] keeps. *)
Definition kept (username : string) (line : string) : bool :=
  negb (String.eqb (strip line) username).

(** The header row of the credential log. *)
Definition header_row : string :=
  writerow ["Timestamp"; "Username"; "Password"; "Home Directory"; "Files Directory"].

(** The data row of one credential operation: timestamp, username,
    password, home directory, files directory. *)
Definition data_row (self : FTPUserManager.t) (timestamp username password : string) : string :=
  let ftp_root := py_str (dict_get (ftp_config self) "ftp_root" (VStr "/srv/ftp")) in
  writerow [timestamp; username; password;
            path_join ftp_root username;
            path_join (path_join ftp_root username) "files"].

(** The log after one more row: what it held, then the row; a log that
    did not exist starts with the header. *)
Definition with_row (old : option file) (row : string) : file :=
  match old with
  | Some f => File (String.append (content f) row) mode_0600
  | None => File (String.append header_row row) mode_0600
  end.

(** The processes a run added to the trace, and the messages it printed. *)
Definition spawned_by {A} (m : M A) (w : world) : list process :=
  drop (List.length (spawned w)) (spawned (after m w)).

Definition printed_by {A} (m : M A) (w : world) : list message :=
  drop (List.length (printed w)) (printed (after m w)).

(** The program a process runs. *)
Definition program (p : process) : string :=
  match argv p with
  | [] => EmptyString
  | name :: _ => name
  end.

Definition failed (p : process) : bool :=
  match status p with
  | Some rc => negb (rc =? 0)
  | None => true
  end.

Definition runs_of (name : string) (ps : list process) : nat :=
  List.length (List.filter (fun p => String.eqb (program p) name) ps).

(** An account command ([useradd], [chpasswd]) that failed. *)
Definition account_failure (p : process) : bool :=
  (String.eqb (program p) "useradd" || String.eqb (program p) "chpasswd") && failed p.

(* ===================================================================== *)
(** * Vocabulary of the proofs                                        *)
(* ===================================================================== *)

(** A computation keeps a component of the world when it leaves it as it
    found it, however it ends. *)
Definition keeps {A X} (proj : world -> X) (m : M A) : Prop :=
  forall w, proj (snd (m w)) = proj w.

(** A computation moves a component along [R] when [R] relates what it
    found to what it leaves, however it ends. *)
Definition moves {A X} (proj : world -> X) (R : X -> X -> Prop) (m : M A) : Prop :=
  forall w, R (proj w) (proj (snd (m w))).

(** The block of [generate] that serves a class. *)
Definition block (self : PasswordGenerator.t) (k : charclass)
  : PasswordGenerator.acc -> M PasswordGenerator.acc :=
  match k with
  | Lowercase => PasswordGenerator.lowercase_block self
  | Uppercase => PasswordGenerator.uppercase_block self
  | Digits => PasswordGenerator.digits_block self
  | Special => PasswordGenerator.special_block self
  end.

(** What an enabled class contributes. *)
Definition share (self : PasswordGenerator.t) (k : charclass) : nat :=
  if enabled self k then minimum self k else 0%nat.

(** The state after the four class blocks. *)
Record after_blocks (self : PasswordGenerator.t) (a : PasswordGenerator.acc) : Prop := {
  ab_charset : fst a = flat_map (fun k => if enabled self k then alphabet self k else [])
                                charclasses;
  ab_parts : exists parts : charclass -> list ascii,
      snd a = flat_map parts charclasses
      /\ forall k, List.length (parts k) = share self k
                   /\ Forall (fun c => In c (alphabet self k)) (parts k)
}.


(** The shape of what [lines_of] yields: lines closed by a line feed, and
    possibly a last, unterminated, non-empty one. *)
Inductive Lines : list (list ascii) -> Prop :=
| Lines_nil : Lines []
| Lines_last body : body <> [] -> ~ In newline body -> Lines [body]
| Lines_cons body ls : ~ In newline body -> Lines ls -> Lines ((body ++ [newline]) :: ls).

(** The file at [path]. *)
Definition file_at (path : string) (w : world) : option file := files w !! path.

(** What "Add to allowed users list" does to the allow-list: nothing when
    the name is listed, one line more when it is not. *)
Definition adds_line (username : string) (old new : string) : Prop :=
  new = old
  \/ (str_in username (map strip (readlines old)) = false
      /\ new = String.append old (String.append username (String newline EmptyString))).

(** What the log and its writing depend on. *)
Definition log_view (path : string) (w : world) : option file * option string * string :=
  (files w !! path, log_fault w, clock w).

(** What a run leaves behind, relative to where it started: the processes
    it spawned and the messages it printed, the files as they were. *)
Record trace (w w' : world) (ps : list process) (ms : list message) : Prop := {
  trace_spawned : spawned w' = spawned w ++ ps;
  trace_printed : printed w' = printed w ++ ms;
  trace_files : files w' = files w
}.

(** The processes a cleanup may leave: [id], then at most one
    [userdel -r]. *)
Definition cleanup_processes (name : string) (ps : list process) : Prop :=
  ps = []
  \/ (exists st, ps = [Process ["id"; name] EmptyString st])
  \/ (exists st st', ps = [Process ["id"; name] EmptyString st;
                           Process ["userdel"; "-r"; name] EmptyString st']).

(** The processes of an account creation that failed: a [useradd] that
    failed, or a [useradd] and then a [chpasswd] that failed. *)
Definition account_processes (ps : list process) : Prop :=
  (exists args st, ps = [Process ("useradd" :: args) EmptyString st])
  \/ (exists args st input st',
         ps = [Process ("useradd" :: args) EmptyString st; Process ["chpasswd"] input st']).

(** A run of [create_user] in which an account command failed and the
    failure was reported, cleaned up after and returned. *)
Definition failed_creation (username : string) (w : world)
    (r : result (bool * string * string)) (w' : world) : Prop :=
  r = Ret (false, username, EmptyString)
  /\ exists rc rc' cmd text account undo,
       trace w w'
         ([Process ["id"; username] EmptyString (Some rc)] ++ account ++ undo)
         [CreatingUser username; FailedToCreateUser rc' cmd; ErrorOutput text]
       /\ account_processes account /\ cleanup_processes username undo.

(** A run of [create_user] in which [useradd] failed and the report of
    the failure broke off: the error output of [useradd] is not UTF-8, the
    [UnicodeDecodeError] of decoding it leaves the handler, and neither
    the cleanup nor the [return] is reached. *)
Definition broken_report (username : string) (w : world)
    (r : result (bool * string * string)) (w' : world) : Prop :=
  exists bytes rc rc' args,
    r = Raise (UnicodeDecodeError bytes)
    /\ utf8 [] (chars bytes) = false
    /\ rc' <> 0
    /\ trace w w'
         [Process ["id"; username] EmptyString (Some rc);
          Process ("useradd" :: args) EmptyString (Some rc')]
         [CreatingUser username; FailedToCreateUser rc' ("useradd" :: args)].

(* ===================================================================== *)
(** * Sample worlds                                                   *)
(* ===================================================================== *)

(** A world with nothing in it: no file, and every command succeeds. *)
Definition quiet_world : world :=
  World ∅ ∅ [] [] [] [] [] "2024-01-01 00:00:00" (Some (1001, 1001)) None None mode_0644.

(** A settings file that is not JSON. *)
Definition broken_settings : world :=
  World ∅ {[ "settings.json" := NotJSON "Expecting value: line 1 column 1 (char 0)" ]}
        [] [] [] [] [] "2024-01-01 00:00:00" (Some (1001, 1001)) None None mode_0644.

(** A world where the account exists and every command succeeds. *)
Definition settled_world : world :=
  World {[ "/root/.ftp_credentials.csv" := File header_row mode_0600 ]} ∅ [] [] [] [] []
        "2024-01-01 00:00:00" (Some (1001, 1001)) None None mode_0644.

(** An allow-list of three names. *)
Definition three_users : world :=
  World {[ "/etc/vsftpd.userlist" :=
             File (concat_str [line "alice"; line "bob"; line "carol"]) mode_0644 ]}
        ∅ [] [] [] [] [] "2024-01-01 00:00:00" (Some (1001, 1001)) None None mode_0644.

(** An allow-list whose last line is not closed by a line feed, and no
    account named [bob]. *)
Definition unterminated_list : world :=
  World {[ "/etc/vsftpd.userlist" :=
             File (String.append (line "alicebob") "alice") mode_0644 ]}
        ∅ [] [] [] [] [ Exits 1 EmptyString "id: bob: no such user" 0 ]
        "2024-01-01 00:00:00" (Some (1001, 1001)) None None mode_0644.

(** The account does not exist, [useradd] fails, and the cleanup finds an
    account to delete. *)
Definition useradd_fails : world :=
  World ∅ ∅ [] [] [] []
        [ Exits 1 EmptyString "id: alice: no such user" 0;
          Exits 9 EmptyString "useradd: group ftpusers does not exist" 0;
          Exits 0 EmptyString EmptyString 0;
          Exits 0 EmptyString EmptyString 0 ]
        "2024-01-01 00:00:00" (Some (1001, 1001)) None None mode_0644.

(** The account does not exist, and [useradd] fails with an error output
    that is not UTF-8: the one byte 0xFF. *)
Definition useradd_garbles : world :=
  World ∅ ∅ [] [] [] []
        [ Exits 1 EmptyString "id: alice: no such user" 0;
          Exits 9 EmptyString (String (ascii_of_nat 255) EmptyString) 0;
          Exits 0 EmptyString EmptyString 0;
          Exits 0 EmptyString EmptyString 0 ]
        "2024-01-01 00:00:00" (Some (1001, 1001)) None None mode_0644.

(** The account does not exist, and every other command succeeds. *)
Definition fresh_account : world :=
  World ∅ ∅ [] [] [] [] [ Exits 1 EmptyString "id: alice: no such user" 0 ]
        "2024-01-01 00:00:00" (Some (1001, 1001)) None None mode_0644.

(* ===================================================================== *)
(** * Vocabulary of the further properties                              *)
(* ===================================================================== *)

(** The characters a password may hold: those of the enabled classes. *)
Definition allowed_character (self : PasswordGenerator.t) (c : ascii) : Prop :=
  exists k, enabled self k = true /\ In c (alphabet self k).

(** The characters [exclude_ambiguous] removes from the letters and digits. *)
Definition ambiguous : list ascii := chars "loIO01".

(** A random source that has something to say, and a world that draws
    from it. *)
Definition dice : list nat :=
  [3; 1; 4; 1; 5; 9; 2; 6; 5; 3; 5; 8; 9; 7; 9; 3; 2; 3; 8; 4;
   6; 2; 6; 4; 3; 3; 8; 3; 2; 7; 9; 5; 0; 2; 8; 8; 4; 1; 9; 7]%nat.

Definition rolling_world : world := set_entropy dice quiet_world.

(** The allow-list of three names, and a fourth user who has no account
    yet. *)
Definition newcomer : world :=
  set_answers [ Exits 1 EmptyString "id: dave: no such user" 0 ] three_users.

(** The account exists and is listed, and [userdel] fails. *)
Definition userdel_fails : world :=
  set_answers [ Exits 0 "uid=1001(alice) gid=1001(alice) groups=1001(alice)" EmptyString 0;
                Exits 8 EmptyString "userdel: user alice is currently used by process 1" 0 ]
              three_users.

(** The account does not exist, every command succeeds, and the first
    directory call fails. *)
Definition no_room : world := set_dir_fault (Some 0%nat) fresh_account.

(** The credential log cannot be opened for writing. *)
Definition read_only_log : world :=
  World {[ "/root/.ftp_credentials.csv" := File header_row mode_0600 ]} ∅ [] [] [] [] []
        "2024-01-01 00:00:00" (Some (1001, 1001)) None
        (Some "[Errno 30] Read-only file system: '/root/.ftp_credentials.csv'") mode_0644.

(** The world after one more process has run. *)
Definition ran (p : process) (w : world) : world :=
  set_answers (snd (next_answer w)) (set_spawned (spawned w ++ [p]) w).

(** What [password=None] stands for: a generated password. *)
Definition password_or_generated (self : FTPUserManager.t) (password : option string)
  : M string :=
  match password with
  | None => PasswordGenerator.generate (password_generator self)
  | Some p => ret p
  end.

(** The [useradd] command of [create_user]. *)
Definition useradd_command (home shell group username : string) : list string :=
  ["useradd"; "-m"; "-d"; home; "-s"; shell; "-G"; group; username].

(** What [chpasswd] reads on its standard input. *)
Definition chpasswd_input (username password : string) : string :=
  String.append username (String ":" password).

(** The directory calls of "Create directory structure". *)
Definition directory_calls (home files : string) (uid gid : Z) : list syscall :=
  [Mkdir home; Chown home 0 0; Chmod home mode_0755;
   Mkdir files; Chown files uid gid; Chmod files mode_0755].

(** The directory call of [_log_credentials]: the parent of the log, when
    logging is enabled. *)
Definition log_directory_calls (self : FTPUserManager.t) : list syscall :=
  if truthy (dict_get (logging_config self) "enabled" (VBool true)) then
    match as_path (dict_get (logging_config self) "credentials_file"
                            (VStr "/root/.ftp_credentials.csv")) with
    | Some credentials_file => [Mkdir (parent credentials_file)]
    | None => []
    end
  else [].

(** The [userdel] command of [delete_user]. *)
Definition userdel_command (remove_home : bool) (username : string) : list string :=
  ["userdel"] ++ (if remove_home then ["-r"] else []) ++ [username].

(** A computation is confined to [Pp] and [Pm] when, however it ends,
    every process it has spawned satisfies [Pp] and every message it has
    printed satisfies [Pm]. *)
Definition confined {A} (Pp : process -> Prop) (Pm : message -> Prop) (m : M A) : Prop :=
  forall w, exists ps ms,
    spawned (snd (m w)) = spawned w ++ ps /\ printed (snd (m w)) = printed w ++ ms
    /\ Forall Pp ps /\ Forall Pm ms.

(** A message other than the report of an unexpected error. *)
Definition expected (msg : message) : Prop := forall e, msg <> UnexpectedError e.

(** A process other than [userdel]. *)
Definition not_userdel (p : process) : Prop := program p <> "userdel".

(** A run of [create_user] either reports no unexpected error, or returns
    failure without having run [userdel]. *)
Definition reports_or_cleans (username : string) (m : M (bool * string * string)) : Prop :=
  forall w, exists ps ms,
    spawned (snd (m w)) = spawned w ++ ps /\ printed (snd (m w)) = printed w ++ ms
    /\ (Forall expected ms
        \/ (fst (m w) = Ret (false, username, EmptyString) /\ Forall not_userdel ps)).

(** A computation raises within [P] when every exception that escapes it
    satisfies [P]. *)
Definition raises {A} (P : exn -> Prop) (m : M A) : Prop :=
  forall w e w', m w = (Raise e, w') -> P e.

(** The exceptions of a policy [generate] cannot serve. *)
Definition policy_error (e : exn) : Prop := e = TypeError \/ e = empty_sequence.

(** What the body of the [try] in [create_user] may raise: exceptions
    that derive from [Exception]. *)
Definition ordinary (e : exn) : Prop := is_Exception e = true.

(** The exceptions the second handler of [create_user] takes: every
    [Exception] but [CalledProcessError], which the first one takes. *)
Definition unexpected (e : exn) : Prop :=
  match e with
  | CalledProcessError _ _ _ | SystemExit _ => False
  | _ => True
  end.

(* ===================================================================== *)
(** * Sessions: the scripts at a terminal                                 *)
(* ===================================================================== *)

(** More text: [s.lower()] on Latin-1, [sub in s], [sep.join(parts)]. *)
Definition lower_char (c : ascii) : ascii :=
  if between 65 90 c || between 192 214 c || between 216 222 c
  then ascii_of_N (code c + 32)
  else c.

Definition lower (s : string) : string := join (map lower_char (chars s)).

Fixpoint starts_with (prefix cs : list ascii) : bool :=
  match prefix, cs with
  | [], _ => true
  | p :: prefix', c :: cs' => Ascii.eqb p c && starts_with prefix' cs'
  | _ :: _, [] => false
  end.

Fixpoint occurs_in (sub cs : list ascii) : bool :=
  starts_with sub cs
  || match cs with
     | [] => false
     | _ :: cs' => occurs_in sub cs'
     end.

(** [sub in s]. *)
Definition contains (s sub : string) : bool := occurs_in (chars sub) (chars s).

(** A setting of the Tailscale scripts: a scalar, or an array of scalars
    (the routes to advertise). *)
Inductive setting :=
| Scalar (v : value)
| Array (items : list value).

(** Truth value of a setting in an [if]: an empty array is false. *)
Definition holds (x : setting) : bool :=
  match x with
  | Scalar v => truthy v
  | Array [] => false
  | Array (_ :: _) => true
  end.

(** [d.get(key)] and [d.get(key, dflt)] on such settings. *)
Definition get (d : gmap string setting) (key : string) (dflt : setting) : setting :=
  default dflt (d !! key).

(** What a script run at a terminal can read or change besides the world
    of the user manager; [N] is the type of the lines it prints. *)
Record session (N : Type) := Session {
  os : world;                 (* files, processes, and so on *)
  euid : Z;                   (* os.geteuid() *)
  console : list N;           (* the lines printed, oldest first *)
  naps : list Z;              (* the calls of time.sleep, oldest first *)
  write_fault : option string (* an IOError opening a file for writing *)
}.
Arguments Session {N}.
Arguments os {N}.
Arguments euid {N}.
Arguments console {N}.
Arguments naps {N}.
Arguments write_fault {N}.

Section Sessions.
Context {N : Type}.

Definition set_os (w : world) (s : session N) : session N :=
  Session w (euid s) (console s) (naps s) (write_fault s).
Definition set_console (ns : list N) (s : session N) : session N :=
  Session (os s) (euid s) ns (naps s) (write_fault s).
Definition set_naps (zs : list Z) (s : session N) : session N :=
  Session (os s) (euid s) (console s) zs (write_fault s).

(** A computation in a session. *)
Definition IO (A : Type) : Type := session N -> result A * session N.

Definition unit_ {A} (a : A) : IO A := fun s => (Ret a, s).
Definition throw {A} (e : exn) : IO A := fun s => (Raise e, s).
Definition and_then {A B} (m : IO A) (k : A -> IO B) : IO B :=
  fun s => match m s with
           | (Ret a, s') => k a s'
           | (Raise e, s') => (Raise e, s')
           end.

(** [try: body  except ...], as [try_] above. *)
Definition attempt {A} (body : IO A) (except : exn -> option (IO A)) : IO A :=
  fun s => match body s with
           | (Raise e, s') =>
               match except e with
               | Some handler => handler s'
               | None => (Raise e, s')
               end
           | r => r
           end.

(** A computation on the world, run in the session. *)
Definition lift {A} (m : M A) : IO A :=
  fun s => let (r, w) := m (os s) in (r, set_os w s).

(** [print(...)] of these scripts. *)
Definition say (n : N) : IO unit :=
  fun s => (Ret tt, set_console (console s ++ [n]) s).

(** [os.geteuid()]. *)
Definition geteuid : IO Z := fun s => (Ret (euid s), s).

(** [time.sleep(seconds)]. *)
Definition sleep (seconds : Z) : IO unit :=
  fun s => (Ret tt, set_naps (naps s ++ [seconds]) s).

(** [open(path, 'w')] and writing [text]: an [IOError] when the file
    cannot be opened. *)
Definition write_file (path text : string) : IO unit :=
  fun s => match write_fault s with
           | Some why => (Raise (OSError why), s)
           | None => lift (write_text path text) s
           end.

End Sessions.

Declare Scope session_scope.
Delimit Scope session_scope with session.
Notation "x <- m ;; k" := (and_then m (fun x => k))
  (at level 100, m at next level, right associativity) : session_scope.
Notation "m ;;; k" := (and_then m (fun _ => k))
  (at level 100, right associativity) : session_scope.

(** [subprocess.run(cmd, capture_output=True, text=True, check=True)]:
    the captured output of a command that exits with status 0. *)
Definition run_output (cmd : list string) : M string :=
  bind (subprocess_run cmd EmptyString None)
       (fun r => let '(rc, out, err) := r in
                 if rc =? 0 then ret out
                 else raise (CalledProcessError rc cmd (Some err))).

(** The arguments of a command, from settings: each must be a [str]. *)
Fixpoint words (xs : list setting) : M (list string) :=
  match xs with
  | [] => ret []
  | Scalar (VStr s) :: rest => bind (words rest) (fun ss => ret (s :: ss))
  | _ :: _ => raise TypeError
  end.

(** [sep.join(x)] where [x] is a setting: the items of an array of
    strings, or the characters of a string. *)
Definition join_setting (sep : string) (x : setting) : M string :=
  match x with
  | Array items => bind (arguments items) (fun parts => ret (join_with sep parts))
  | Scalar (VStr s) => ret (join_with sep (map (fun c => String c EmptyString) (chars s)))
  | Scalar _ => raise TypeError
  end.

(* ===================================================================== *)
(** * [class TailscaleSetup], its methods                                 *)
(* ===================================================================== *)

Module TailscaleSetupMethods.

Local Open Scope session_scope.

(** The lines [tailscale_setup.py] prints: one constructor per call of
    [print], or per run of calls that print fixed text. *)
Inductive notice :=
| Banner
| MustBeRoot
| Installing
| AlreadyInstalled
| Version (v : string)
| Downloading
| RunningInstaller
| InstallationFailed
| InstallerErrors (stderr : string)
| Installed
| FailedToInstall (returncode : Z) (cmd : list string)
| UnexpectedInstallError (e : exn)
| Authenticating
| AlreadyLoggedIn
| Running (command_line : string)
| BrowserWillOpen
| CompleteInBrowser
| Authenticated
| AuthenticationFailed
| AuthenticationError (e : exn)
| ConfiguringExitNode (exit_node : setting)
| ExitNodeConfigured
| FailedToConfigureExitNode (returncode : Z) (cmd : list string)
| EnablingForwarding
| IPv4ForwardingEnabled
| IPv6ForwardingEnabled
| PersistenceConfigured (path : string)
| FailedToEnableForwarding (returncode : Z) (cmd : list string)
| FailedToWriteSysctl (why : string)
| StatusHeader
| StatusOutput (out : string)
| FailedToGetStatus (returncode : Z) (cmd : list string)
| AddressesHeader
| IPv4Address (ip : string)
| IPv6Address (ip : string)
| FailedToGetAddresses (returncode : Z) (cmd : list string)
| Verifying
| BinaryInstalled
| BinaryNotFound
| ServiceRunning
| ServiceNotRunning
| CouldNotCheckService
| IsAuthenticated
| NotAuthenticated
| WarningAtStep (description : string)
| AuthenticateLater
| SudoTailscaleUp
| SetupComplete
| BlankLine
| ConfigurationHeader
| Hostname (x : setting)
| AcceptRoutes (x : setting)
| AcceptDNS (x : setting)
| SSHEnabled (x : setting)
| ExitNode (x : setting)
| AdvertisedRoutes (routes : string)
| UsefulCommands
| AdminConsole
| ClosingRule
| Usage.

Record t := Build {
  config : gmap string (gmap string value);
  tailscale_config : gmap string setting;
  network_config : gmap string setting
}.

(** [self.config.get(name, {})], its scalars as settings. *)
Definition section (cfg : gmap string (gmap string value)) (name : string)
  : gmap string setting :=
  Scalar <$> default ∅ (cfg !! name).

(** [__init__(self, config_file)]. *)
Definition init (config_file : string) : M t :=
  bind (TailscaleSetup._load_config config_file)
       (fun cfg => ret {| config := cfg;
                          tailscale_config := section cfg "tailscale_config";
                          network_config := section cfg "network_config" |}).

(** [check_root(self)]. *)
Definition check_root : IO (N := notice) bool :=
  uid <- geteuid ;;
  if negb (uid =? 0) then say MustBeRoot ;;; unit_ false else unit_ true.

(** [is_installed(self)]. *)
Definition is_installed : M bool :=
  try_ (bind (run_checked ["which"; "tailscale"]) (fun _ => ret true))
       (fun e => match e with
                 | CalledProcessError _ _ _ => Some (ret false)
                 | _ => None
                 end).

(** [install_tailscale(self)]. *)
Definition install_tailscale : IO bool :=
  say Installing ;;;
  installed <- lift is_installed ;;
  if installed then
    say AlreadyInstalled ;;;
    attempt (out <- lift (run_output ["tailscale"; "version"]) ;;
             say (Version (strip out)))
            (fun _ => Some (unit_ tt)) ;;;
    unit_ true
  else
    attempt
      (say Downloading ;;;
       install_script <-
         lift (run_output ["curl"; "-fsSL"; "https://tailscale.com/install.sh"]) ;;
       say RunningInstaller ;;;
       r <- lift (subprocess_run ["sh"] install_script None) ;;
       let '(returncode, _, stderr) := r in
       if negb (returncode =? 0) then
         say InstallationFailed ;;; say (InstallerErrors stderr) ;;; unit_ false
       else say Installed ;;; unit_ true)
      (fun e => match e with
                | CalledProcessError rc cmd _ =>
                    Some (say (FailedToInstall rc cmd) ;;; unit_ false)
                | _ =>
                    if is_Exception e
                    then Some (say (UnexpectedInstallError e) ;;; unit_ false)
                    else None
                end).

(** [is_logged_in(self)]. *)
Definition is_logged_in : M bool :=
  try_ (bind (subprocess_run ["tailscale"; "status"] EmptyString None)
             (fun r => let '(returncode, stdout, _) := r in
                       if (returncode =? 0) && negb (contains (lower stdout) "not logged in")
                       then ret true
                       else ret false))
       (fun e => if is_Exception e then Some (ret false) else None).

(** The flag a setting switches on. *)
Definition flag (d : gmap string setting) (key option : string) : list setting :=
  if holds (get d key (Scalar VNone)) then [Scalar (VStr option)] else [].

(** An option with its value, when the value is set. *)
Definition valued (option : string) (x : setting) : list setting :=
  if holds x then [Scalar (VStr option); x] else [].

(** The command [login_tailscale] builds, before the routes and the
    caller's arguments. *)
Definition login_options (self : t) : list setting :=
  [Scalar (VStr "tailscale"); Scalar (VStr "up")]
  ++ flag (tailscale_config self) "accept_routes" "--accept-routes"
  ++ flag (tailscale_config self) "accept_dns" "--accept-dns"
  ++ flag (tailscale_config self) "shields_up" "--shields-up"
  ++ flag (tailscale_config self) "advertise_exit_node" "--advertise-exit-node"
  ++ flag (tailscale_config self) "ssh_enabled" "--ssh"
  ++ valued "--hostname" (get (tailscale_config self) "hostname" (Scalar (VStr EmptyString)))
  ++ valued "--operator" (get (tailscale_config self) "operator" (Scalar (VStr EmptyString))).

(** [login_tailscale(self, args=None)]. *)
Definition login_tailscale (self : t) (args : option (list string)) : IO bool :=
  say Authenticating ;;;
  logged_in <- lift is_logged_in ;;
  if logged_in then say AlreadyLoggedIn ;;; unit_ true
  else
    let cmd := login_options self in
    let advertise_routes := get (tailscale_config self) "advertise_routes" (Array []) in
    cmd <- (if holds advertise_routes then
              routes <- lift (join_setting "," advertise_routes) ;;
              unit_ (cmd ++ [Scalar (VStr "--advertise-routes"); Scalar (VStr routes)])
            else unit_ cmd) ;;
    let cmd := match args with
               | Some (a :: rest) => cmd ++ map (fun x => Scalar (VStr x)) (a :: rest)
               | _ => cmd
               end in
    cmd <- lift (words cmd) ;;
    say (Running (join_with " " cmd)) ;;;
    say BrowserWillOpen ;;;
    say CompleteInBrowser ;;;
    attempt
      (r <- lift (subprocess_run cmd EmptyString None) ;;
       let '(returncode, _, _) := r in
       if returncode =? 0 then say Authenticated ;;; sleep 2 ;;; unit_ true
       else say AuthenticationFailed ;;; unit_ false)
      (fun e => if is_Exception e
                then Some (say (AuthenticationError e) ;;; unit_ false)
                else None).

(** [configure_exit_node(self)]. *)
Definition configure_exit_node (self : t) : IO bool :=
  let exit_node := get (network_config self) "exit_node" (Scalar (VStr EmptyString)) in
  if negb (holds exit_node) then unit_ true
  else
    say (ConfiguringExitNode exit_node) ;;;
    let cmd := [Scalar (VStr "tailscale"); Scalar (VStr "set");
                Scalar (VStr "--exit-node"); exit_node]
               ++ flag (network_config self) "exit_node_allow_lan_access"
                       "--exit-node-allow-lan-access" in
    attempt
      (lift (bind (words cmd) run_checked) ;;;
       say ExitNodeConfigured ;;;
       unit_ true)
      (fun e => match e with
                | CalledProcessError rc cmd _ =>
                    Some (say (FailedToConfigureExitNode rc cmd) ;;; unit_ false)
                | _ => None
                end).

(** The file that makes forwarding persistent, and its two lines. *)
Definition sysctl_conf : string := "/etc/sysctl.d/99-tailscale.conf".

Definition ipv4_enabled (self : t) : bool :=
  holds (get (network_config self) "ipv4_enabled" (Scalar (VBool true))).

Definition ipv6_enabled (self : t) : bool :=
  holds (get (network_config self) "ipv6_enabled" (Scalar (VBool false))).

Definition sysctl_text (self : t) : string :=
  String.append
    (if ipv4_enabled self
     then String.append "net.ipv4.ip_forward = 1" (String newline EmptyString)
     else EmptyString)
    (if ipv6_enabled self
     then String.append "net.ipv6.conf.all.forwarding = 1" (String newline EmptyString)
     else EmptyString).

(** [enable_ip_forwarding(self)]. *)
Definition enable_ip_forwarding (self : t) : IO bool :=
  if negb (holds (get (tailscale_config self) "advertise_exit_node" (Scalar VNone))
           || holds (get (tailscale_config self) "advertise_routes" (Scalar VNone)))
  then unit_ true
  else
    say EnablingForwarding ;;;
    attempt
      ((if ipv4_enabled self then
          lift (run_checked ["sysctl"; "-w"; "net.ipv4.ip_forward=1"]) ;;;
          say IPv4ForwardingEnabled
        else unit_ tt) ;;;
       (if ipv6_enabled self then
          lift (run_checked ["sysctl"; "-w"; "net.ipv6.conf.all.forwarding=1"]) ;;;
          say IPv6ForwardingEnabled
        else unit_ tt) ;;;
       write_file sysctl_conf (sysctl_text self) ;;;
       say (PersistenceConfigured sysctl_conf) ;;;
       unit_ true)
      (fun e => match e with
                | CalledProcessError rc cmd _ =>
                    Some (say (FailedToEnableForwarding rc cmd) ;;; unit_ false)
                | OSError why =>
                    Some (say (FailedToWriteSysctl why) ;;; unit_ false)
                | _ => None
                end).

(** [show_status(self)]. *)
Definition show_status : IO bool :=
  say StatusHeader ;;;
  attempt
    (out <- lift (run_output ["tailscale"; "status"]) ;;
     say (StatusOutput out) ;;;
     unit_ true)
    (fun e => match e with
              | CalledProcessError rc cmd _ =>
                  Some (say (FailedToGetStatus rc cmd) ;;; unit_ false)
              | _ => None
              end).

(** [show_ip(self)]. *)
Definition show_ip : IO bool :=
  say AddressesHeader ;;;
  attempt
    (out <- lift (run_output ["tailscale"; "ip"; "-4"]) ;;
     let ipv4 := strip out in
     (if negb (String.eqb ipv4 EmptyString) then say (IPv4Address ipv4) else unit_ tt) ;;;
     out <- lift (run_output ["tailscale"; "ip"; "-6"]) ;;
     let ipv6 := strip out in
     (if negb (String.eqb ipv6 EmptyString) then say (IPv6Address ipv6) else unit_ tt) ;;;
     unit_ true)
    (fun e => match e with
              | CalledProcessError rc cmd _ =>
                  Some (say (FailedToGetAddresses rc cmd) ;;; unit_ false)
              | _ => None
              end).

(** [verify_installation(self)]: the three checks, and [all(checks)]. *)
Definition verify_installation : IO bool :=
  say Verifying ;;;
  installed <- lift is_installed ;;
  binary <- (if installed then say BinaryInstalled ;;; unit_ true
             else say BinaryNotFound ;;; unit_ false) ;;
  service <-
    attempt
      (r <- lift (subprocess_run ["systemctl"; "is-active"; "tailscaled"]
                                 EmptyString None) ;;
       let '(_, stdout, _) := r in
       if String.eqb (strip stdout) "active"
       then say ServiceRunning ;;; unit_ true
       else say ServiceNotRunning ;;; unit_ false)
      (fun _ => Some (say CouldNotCheckService ;;; unit_ false)) ;;
  logged_in <- lift is_logged_in ;;
  authenticated <- (if logged_in then say IsAuthenticated ;;; unit_ true
                    else say NotAuthenticated ;;; unit_ false) ;;
  unit_ (binary && service && authenticated).

(** [_print_summary(self)]. *)
Definition _print_summary (self : t) : IO unit :=
  say SetupComplete ;;;
  show_ip ;;;
  say BlankLine ;;;
  show_status ;;;
  say ConfigurationHeader ;;;
  say (Hostname (get (tailscale_config self) "hostname" (Scalar (VStr "default")))) ;;;
  say (AcceptRoutes (get (tailscale_config self) "accept_routes" (Scalar (VBool false)))) ;;;
  say (AcceptDNS (get (tailscale_config self) "accept_dns" (Scalar (VBool false)))) ;;;
  say (SSHEnabled (get (tailscale_config self) "ssh_enabled" (Scalar (VBool false)))) ;;;
  say (ExitNode (get (tailscale_config self) "advertise_exit_node"
                     (Scalar (VBool false)))) ;;;
  (let routes := get (tailscale_config self) "advertise_routes" (Array []) in
   if holds routes then
     text <- lift (join_setting ", " routes) ;; say (AdvertisedRoutes text)
   else unit_ tt) ;;;
  say UsefulCommands ;;;
  say AdminConsole ;;;
  say ClosingRule.

(** The steps of [run], in order, each with its description. *)
Definition steps (self : t) : list (string * IO bool) :=
  [ ("Installing Tailscale", install_tailscale);
    ("Enabling IP forwarding", enable_ip_forwarding self);
    ("Authenticating Tailscale", login_tailscale self None);
    ("Configuring exit node", configure_exit_node self);
    ("Verifying installation", verify_installation) ].

(** [for description, func in steps: ...]. *)
Fixpoint run_steps (todo : list (string * IO bool)) : IO unit :=
  match todo with
  | [] => unit_ tt
  | (description, func) :: rest =>
      ok <- func ;;
      (if negb ok then
         say (WarningAtStep description) ;;;
         if String.eqb description "Authenticating Tailscale"
         then say AuthenticateLater ;;; say SudoTailscaleUp
         else unit_ tt
       else unit_ tt) ;;;
      run_steps rest
  end.

(** [run(self)]. *)
Definition run (self : t) : IO bool :=
  say Banner ;;;
  root <- check_root ;;
  if negb root then unit_ false
  else run_steps (steps self) ;;; _print_summary self ;;; unit_ true.

(** [main()], given the command-line arguments after the script's name. *)
Definition main (args : list string) : IO unit :=
  let config_file := match args with
                     | a :: _ => a
                     | [] => "settings.json"
                     end in
  (match args with
   | a :: _ => if str_in a ["-h"; "--help"]
               then say Usage ;;; throw (SystemExit 0)
               else unit_ tt
   | [] => unit_ tt
   end) ;;;
  setup <- lift (init config_file) ;;
  success <- run setup ;;
  throw (SystemExit (if success then 0 else 1)).

End TailscaleSetupMethods.

(* ===================================================================== *)
(** * Vocabulary and samples for the Tailscale setup                      *)
(* ===================================================================== *)

(** The command line asks for the usage text. *)
Definition asks_for_help (args : list string) : bool :=
  match args with
  | a :: _ => str_in a ["-h"; "--help"]
  | [] => false
  end.

(** The settings advertise an exit node or routes, so that forwarding is
    wanted. *)
Definition advertising (self : TailscaleSetupMethods.t) : bool :=
  holds (get (TailscaleSetupMethods.tailscale_config self) "advertise_exit_node"
             (Scalar VNone))
  || holds (get (TailscaleSetupMethods.tailscale_config self) "advertise_routes"
                (Scalar VNone)).

(** The [sysctl -w] commands of the address families that are enabled. *)
Definition forwarding_commands (self : TailscaleSetupMethods.t) : list process :=
  (if TailscaleSetupMethods.ipv4_enabled self
   then [Process ["sysctl"; "-w"; "net.ipv4.ip_forward=1"] EmptyString (Some 0)]
   else [])
  ++ (if TailscaleSetupMethods.ipv6_enabled self
      then [Process ["sysctl"; "-w"; "net.ipv6.conf.all.forwarding=1"] EmptyString (Some 0)]
      else []).

(** The forwarding commands and the file, in the [try] of
    [enable_ip_forwarding]. *)
Definition forwarding_body (self : TailscaleSetupMethods.t)
  : IO (N := TailscaleSetupMethods.notice) bool :=
  and_then
    (if TailscaleSetupMethods.ipv4_enabled self then
       and_then (lift (run_checked ["sysctl"; "-w"; "net.ipv4.ip_forward=1"]))
                (fun _ => say TailscaleSetupMethods.IPv4ForwardingEnabled)
     else unit_ tt)
    (fun _ =>
       and_then
         (if TailscaleSetupMethods.ipv6_enabled self then
            and_then (lift (run_checked ["sysctl"; "-w"; "net.ipv6.conf.all.forwarding=1"]))
                     (fun _ => say TailscaleSetupMethods.IPv6ForwardingEnabled)
          else unit_ tt)
         (fun _ =>
            and_then
              (write_file TailscaleSetupMethods.sysctl_conf
                          (TailscaleSetupMethods.sysctl_text self))
              (fun _ =>
                 and_then
                   (say (TailscaleSetupMethods.PersistenceConfigured
                           TailscaleSetupMethods.sysctl_conf))
                   (fun _ => unit_ true)))).

(** How the [i]-th of the next processes will end. *)
Definition answer (i : nat) (w : world) : run_result :=
  nth i (answers w) (Exits 0 EmptyString EmptyString 0).

(** The command of [configure_exit_node] for an exit node given by name. *)
Definition exit_node_command (self : TailscaleSetupMethods.t) (node : string)
  : list string :=
  ["tailscale"; "set"; "--exit-node"; node]
  ++ (if holds (get (TailscaleSetupMethods.network_config self)
                    "exit_node_allow_lan_access" (Scalar VNone))
      then ["--exit-node-allow-lan-access"] else []).




(** The processes and the lines a run in a session has added. *)
Definition started {N A} (m : IO (N := N) A) (s : session N) : list process :=
  drop (List.length (spawned (os s))) (spawned (os (snd (m s)))).

Definition shown {N A} (m : IO (N := N) A) (s : session N) : list N :=
  drop (List.length (console s)) (console (snd (m s))).

(** A computation only adds to the console when the console it leaves
    starts with the console it found, however it ends. *)
Definition grows {N A} (m : IO (N := N) A) : Prop :=
  forall s, exists ns, console (snd (m s)) = console s ++ ns.

(** A computation in a session lets only [P] escape when every exception
    that escapes it satisfies [P]. *)
Definition escapes {N A} (P : exn -> Prop) (m : IO (N := N) A) : Prop :=
  forall s e s', m s = (Raise e, s') -> P e.

(** A fresh terminal on a world, for the user with the given uid. *)
Definition terminal {N} (uid : Z) (w : world) : session N := Session w uid [] [] None.

(** A setup that advertises two routes and an exit node to use. *)
Definition router : TailscaleSetupMethods.t :=
  TailscaleSetupMethods.Build ∅
    {[ "advertise_routes" := Array [VStr "10.0.0.0/24"; VStr "10.0.1.0/24"];
       "ssh_enabled" := Scalar (VBool true);
       "hostname" := Scalar (VStr "box") ]}
    {[ "exit_node" := Scalar (VStr "100.64.0.1") ]}.

(** A machine on which nothing works: Tailscale is not installed, the
    download fails, [sysctl] fails, Tailscale reports that it is logged
    out, and [tailscale up] cannot be run. *)
Definition broken_machine : world :=
  set_answers [ Exits 1 EmptyString EmptyString 0;
                Exits 22 EmptyString "curl: (22) The requested URL returned error" 0;
                Exits 1 EmptyString "sysctl: permission denied" 0;
                Exits 0 "Logged out. Not Logged In" EmptyString 0;
                CannotRun "[Errno 2] No such file or directory: 'tailscale'" ]
              quiet_world.




(* ===================================================================== *)
(** * [class FTPDebugger], its checks                                     *)
(* ===================================================================== *)

(** [s.split()]: the words between runs of white space. *)
Fixpoint split_from (word : list ascii) (cs : list ascii) : list string :=
  match cs with
  | [] => match word with
          | [] => []
          | _ :: _ => [join (rev word)]
          end
  | c :: rest =>
      if isspace c then
        match word with
        | [] => split_from [] rest
        | _ :: _ => join (rev word) :: split_from [] rest
        end
      else split_from (c :: word) rest
  end.

Definition split (s : string) : list string := split_from [] (chars s).

(** [for x in xs: body], the body updating what the loop works on. *)
Fixpoint for_each {N X T} (xs : list X) (body : X -> T -> IO (N := N) T) (self : T)
  : IO (N := N) T :=
  match xs with
  | [] => unit_ self
  | x :: rest => and_then (body x self) (for_each rest body)
  end.

Module FTPDebuggerMethods.

Local Open Scope session_scope.

(** The lines [ftp_debug.py] prints in the checks below: one constructor
    per call of [print], or per run of consecutive calls that print one
    message. *)
Inductive notice :=
| Header (title : string)
| Running (description : string)
| NotRunningOptional (description : string)
| NotRunning (description : string)
| StatusOutput (text : string)
| Listening (port description : string)
| NotListeningNormal (port description : string)
| NotListening (port description : string)
| UfwNotInstalled
| UfwInactive
| UfwActive
| Allowed (port : string)
| NotAllowed (port : string)
| BlankLine
| Numbered (i : nat) (issue : string)
| FixService (service : string)
| FixListening
| FixFirewall (port : string)
| FixDirectory (ftp_root : value) (username : string)
| FixOwnership (ftp_root : value) (username : string).

(** The debugger: its settings and the three lists it fills, all empty
    when it is made. *)
Record t := Build {
  config : gmap string (gmap string value);
  ftp_config : gmap string value;
  issues_found : list string;
  warnings : list string;
  passed_checks : list string
}.

(** [self.issues_found.append(x)] and its like. *)
Definition found (x : string) (self : t) : t :=
  Build (config self) (ftp_config self) (issues_found self ++ [x]) (warnings self)
        (passed_checks self).
Definition warned (x : string) (self : t) : t :=
  Build (config self) (ftp_config self) (issues_found self) (warnings self ++ [x])
        (passed_checks self).
Definition passed (x : string) (self : t) : t :=
  Build (config self) (ftp_config self) (issues_found self) (warnings self)
        (passed_checks self ++ [x]).

(** [self._run_command(cmd)], with the default timeout. *)
Definition _run_command (cmd : list string) : IO (N := notice) (Z * string * string) :=
  lift (FTPDebugger._run_command cmd FTPDebugger.default_timeout).

(** [print_header(self, title)]. *)
Definition print_header (title : string) : IO unit := say (Header title).

Definition services : list (string * string) :=
  [ ("vsftpd", "vsftpd (FTP Server)");
    ("ssh", "SSH/SFTP Server");
    ("fail2ban", "fail2ban (optional)") ].

(** The body of the loop of [check_services], for one service. *)
Definition check_service (entry : string * string) (self : t) : IO t :=
  let '(service, description) := entry in
  r <- _run_command ["systemctl"; "is-active"; service] ;;
  let '(code, stdout, stderr) := r in
  if String.eqb (strip stdout) "active" then
    say (Running description) ;;;
    unit_ (passed (String.append description " is running") self)
  else if String.eqb service "fail2ban" then
    say (NotRunningOptional description) ;;;
    unit_ (warned (String.append description " is not running") self)
  else
    say (NotRunning description) ;;;
    let self := found (String.append description " is not running") self in
    r <- _run_command ["systemctl"; "status"; service] ;;
    let '(code, stdout, stderr) := r in
    say (StatusOutput (String.substring 0 500 stdout)) ;;;
    unit_ self.

(** [check_services(self)]. *)
Definition check_services (self : t) : IO t :=
  print_header "SERVICE STATUS" ;;;
  for_each services check_service self.




Definition required_ports : list string := ["21"; "22"; "40000:40100"].

(** The body of the loop of [check_firewall], for one required port. *)
Definition check_rule (stdout : string) (port : string) (self : t) : IO t :=
  if contains stdout port then
    say (Allowed port) ;;;
    unit_ (passed (String.append "Firewall allows port " port) self)
  else
    say (NotAllowed port) ;;;
    unit_ (found (String.append "Firewall does not allow port " port) self).

(** [check_firewall(self)]. *)
Definition check_firewall (self : t) : IO t :=
  print_header "FIREWALL STATUS" ;;;
  r <- _run_command ["which"; "ufw"] ;;
  let '(code, stdout, stderr) := r in
  if negb (code =? 0) then
    say UfwNotInstalled ;;;
    unit_ (warned "UFW firewall not installed" self)
  else
    r <- _run_command ["ufw"; "status"] ;;
    let '(code, stdout, stderr) := r in
    if contains (lower stdout) "inactive" then
      say UfwInactive ;;;
      unit_ (warned "UFW firewall is inactive" self)
    else
      say UfwActive ;;;
      for_each required_ports (check_rule stdout) self.

(** [words[i]], an [IndexError] out of range. *)
Definition word (i : nat) (ws : list string) : IO (N := notice) string :=
  match nth_error ws i with
  | Some w => unit_ w
  | None => throw (IndexError "list index out of range")
  end.

(** The body of the loop of [generate_fixes], for the [i]-th issue. *)
Definition suggest (self : t) (i : nat) (issue : string) : IO unit :=
  say (Numbered i issue) ;;;
  (if contains (lower issue) "not running" then
     w <- word 0 (split issue) ;;
     say (FixService (lower w))
   else if contains (lower issue) "port" && contains (lower issue) "listening" then
     say FixListening
   else if contains (lower issue) "firewall" then
     port <- (if (3 <? List.length (split issue))%nat then word 3 (split issue)
              else unit_ "PORT") ;;
     say (FixFirewall port)
   else if contains (lower issue) "directory missing" then
     username <- word 1 (split issue) ;;
     say (FixDirectory (default (VStr "/srv/ftp") (ftp_config self !! "ftp_root")) username)
   else if contains (lower issue) "ownership mismatch" then
     username <- word 1 (split issue) ;;
     say (FixOwnership (default (VStr "/srv/ftp") (ftp_config self !! "ftp_root")) username)
   else unit_ tt) ;;;
  say BlankLine.

(** [for i, issue in enumerate(issues, start)]. *)
Fixpoint suggest_each (self : t) (start : nat) (issues : list string) : IO unit :=
  match issues with
  | [] => unit_ tt
  | issue :: rest => suggest self start issue ;;; suggest_each self (S start) rest
  end.

(** [generate_fixes(self)]. *)
Definition generate_fixes (self : t) : IO unit :=
  match issues_found self with
  | [] => unit_ tt
  | _ :: _ =>
      print_header "SUGGESTED FIXES" ;;;
      suggest_each self 1 (issues_found self)
  end.

End FTPDebuggerMethods.


(** A debugger that has found nothing yet, and a server whose SSH service
    is stopped and whose firewall allows port 22 only. *)
Definition fresh_debugger : FTPDebuggerMethods.t :=
  FTPDebuggerMethods.Build ∅ ∅ [] [] [].

Definition troubled_server : world :=
  set_answers [ Exits 0 "active" EmptyString 0;
                Exits 3 "inactive" EmptyString 0;
                Exits 3 "ssh.service - OpenBSD Secure Shell server" EmptyString 0;
                Exits 3 "inactive" EmptyString 0;
                Exits 0 "/usr/sbin/ufw" EmptyString 0;
                Exits 0 "Status: active  22/tcp ALLOW Anywhere" EmptyString 0 ]
              quiet_world.

(* ===================================================================== *)
(** * Properties                                                          *)
(* ===================================================================== *)

(* ===================================================================== *)
(** * Computations: how results come about                                *)
(* ===================================================================== *)

(** [Path] on a setting whose path is known. *)
Lemma Path_as_path v p : as_path v = Some p -> Path v = ret p.
Proof. unfold Path. now intros ->. Qed.

(** Paths the way [pathlib] writes them: a trailing slash, a doubled
    slash and a [.] component are dropped; two leading slashes are kept,
    three are one; the empty path is [.], and joins as nothing; an
    absolute name replaces the path it is joined to. *)
Example pathlib_samples :
  joinpath (normpath "/srv/ftp/") "alice" = "/srv/ftp/alice"
  /\ joinpath (normpath "/srv//ftp/.") "alice" = "/srv/ftp/alice"
  /\ joinpath (normpath "") "alice" = "alice"
  /\ joinpath (normpath "/") "alice" = "/alice"
  /\ joinpath (normpath "/srv/ftp") "/etc" = "/etc"
  /\ normpath "//srv/ftp" = "//srv/ftp"
  /\ normpath "///srv/ftp" = "/srv/ftp"
  /\ normpath "" = "."
  /\ parent (normpath "dir/") = "."
  /\ parent (normpath "/root/.ftp_credentials.csv") = "/root"
  /\ parent (normpath "/") = "/"
  /\ parent (normpath "a/b") = "a".
Proof. repeat split. Qed.

Section Computations.
Context {A B : Type}.

Lemma bind_Ret (m : M A) (k : A -> M B) w a w1 :
  m w = (Ret a, w1) -> bind m k w = k a w1.
Proof. intros H. unfold bind. now rewrite H. Qed.

Lemma bind_Raise (m : M A) (k : A -> M B) w e w1 :
  m w = (Raise e, w1) -> bind m k w = (Raise e, w1).
Proof. intros H. unfold bind. now rewrite H. Qed.

Lemma bind_Ret_inv (m : M A) (k : A -> M B) w b w' :
  bind m k w = (Ret b, w') ->
  exists a w1, m w = (Ret a, w1) /\ k a w1 = (Ret b, w').
Proof.
  unfold bind. destruct (m w) as [[a|e] w1]; intros H.
  - now exists a, w1.
  - discriminate.
Qed.

Lemma try_Ret (m : M A) h w a w1 :
  m w = (Ret a, w1) -> try_ m h w = (Ret a, w1).
Proof. intros H. unfold try_. now rewrite H. Qed.

Lemma try_Raise (m : M A) h w e w1 :
  m w = (Raise e, w1) ->
  try_ m h w = match h e with Some k => k w1 | None => (Raise e, w1) end.
Proof. intros H. unfold try_. now rewrite H. Qed.
End Computations.

Section Keeps.
Context {X : Type} (proj : world -> X).

Lemma keeps_ret {A} (a : A) : keeps proj (ret a).
Proof. intros w. reflexivity. Qed.

Lemma keeps_raise {A} e : keeps proj (@raise A e).
Proof. intros w. reflexivity. Qed.

Lemma keeps_bind {A B} (m : M A) (k : A -> M B) :
  keeps proj m -> (forall a, keeps proj (k a)) -> keeps proj (bind m k).
Proof.
  intros Hm Hk w. unfold bind. specialize (Hm w).
  destruct (m w) as [[a|e] w1]; simpl in *; [|exact Hm].
  now rewrite Hk.
Qed.

Lemma keeps_try {A} (m : M A) h :
  keeps proj m -> (forall e k, h e = Some k -> keeps proj k) -> keeps proj (try_ m h).
Proof.
  intros Hm Hh w. unfold try_. specialize (Hm w).
  destruct (m w) as [[a|e] w1]; simpl in *; [exact Hm|].
  destruct (h e) as [k|] eqn:He; [|exact Hm].
  now rewrite (Hh e k He).
Qed.

Lemma keeps_if {A} (b : bool) (m1 m2 : M A) :
  keeps proj m1 -> keeps proj m2 -> keeps proj (if b then m1 else m2).
Proof. now destruct b. Qed.

(** Whatever the random source leaves alone, so does everything that
    only draws from it. *)
Hypothesis keeps_draw : keeps proj draw.

Lemma keeps_randbelow n : keeps proj (randbelow n).
Proof. apply keeps_bind; [exact keeps_draw | intros; apply keeps_ret]. Qed.

Lemma keeps_choice pool : keeps proj (choice pool).
Proof.
  destruct pool; [apply keeps_raise|].
  apply keeps_bind; [apply keeps_randbelow | intros; apply keeps_ret].
Qed.

Lemma keeps_append_choices n pool : forall pcs, keeps proj (append_choices n pool pcs).
Proof.
  induction n as [|n IH]; intros pcs; simpl; [apply keeps_ret|].
  apply keeps_bind; [apply keeps_choice | intros; apply IH].
Qed.

Lemma keeps_shuffle x : keeps proj (shuffle x).
Proof.
  unfold shuffle. generalize (List.length x - 1)%nat as i. intros i. revert x.
  induction i as [|i IH]; intros x; simpl; [apply keeps_ret|].
  apply keeps_bind; [apply keeps_randbelow | intros; apply IH].
Qed.

Lemma keeps_range v : keeps proj (range v).
Proof. unfold range. destruct (index v); [apply keeps_ret | apply keeps_raise]. Qed.

Lemma keeps_generate self : keeps proj (PasswordGenerator.generate self).
Proof.
  unfold PasswordGenerator.generate, PasswordGenerator.lowercase_block,
    PasswordGenerator.uppercase_block, PasswordGenerator.digits_block,
    PasswordGenerator.special_block, PasswordGenerator.fill_block.
  repeat first
    [ apply keeps_ret | apply keeps_raise | apply keeps_range
    | apply keeps_append_choices | apply keeps_shuffle
    | apply keeps_bind; [|intros ?] | apply keeps_if
    | match goal with
      | |- keeps _ (match ?v with _ => _ end) => destruct v
      end ].
Qed.
End Keeps.

(* ===================================================================== *)
(** * Strings and counting                                                *)
(* ===================================================================== *)

Lemma chars_join cs : chars (join cs) = cs.
Proof. apply list_ascii_of_string_of_list_ascii. Qed.

Lemma join_chars s : join (chars s) = s.
Proof. apply string_of_list_ascii_of_string. Qed.

Lemma length_chars s : List.length (chars s) = String.length s.
Proof. induction s; simpl; congruence. Qed.

Lemma length_join cs : String.length (join cs) = List.length cs.
Proof. now rewrite <- length_chars, chars_join. Qed.

Lemma member_In pool c : member pool c = true <-> In c pool.
Proof.
  unfold member. rewrite existsb_exists. split.
  - intros (x & Hx & Heq). apply Ascii.eqb_eq in Heq. now subst.
  - intros H. exists c. split; [exact H | apply Ascii.eqb_refl].
Qed.

Lemma filter_length_Permutation {X} (f : X -> bool) (l l' : list X) :
  Permutation l l' -> List.length (List.filter f l) = List.length (List.filter f l').
Proof.
  induction 1; simpl; try congruence.
  - destruct (f x); simpl; congruence.
  - destruct (f x), (f y); simpl; reflexivity.
Qed.

Lemma filter_length_all {X} (f : X -> bool) (l : list X) :
  Forall (fun x => f x = true) l -> List.length (List.filter f l) = List.length l.
Proof. induction 1 as [|x l Hx _ IH]; simpl; [reflexivity|]. rewrite Hx. simpl. congruence. Qed.

Lemma filter_length_le {X} (f : X -> bool) (l : list X) :
  (List.length (List.filter f l) <= List.length l)%nat.
Proof. induction l as [|x l IH]; simpl; [lia|]. destruct (f x); simpl; lia. Qed.

(* ===================================================================== *)
(** * The random source                                                   *)
(* ===================================================================== *)

Lemma draw_returns w : exists r w', draw w = (Ret r, w').
Proof. unfold draw. destruct (entropy w); eauto. Qed.

Lemma randbelow_returns n w : exists r w', randbelow n w = (Ret r, w').
Proof.
  unfold randbelow. destruct (draw_returns w) as (r & w' & Hd).
  rewrite (bind_Ret _ _ _ _ _ Hd). unfold ret. eauto.
Qed.

Lemma choice_empty w : choice [] w = (Raise empty_sequence, w).
Proof. reflexivity. Qed.

Lemma choice_returns pool w :
  pool <> [] -> exists c w', choice pool w = (Ret c, w') /\ In c pool.
Proof.
  destruct pool as [|c0 rest]; [congruence|]. intros _. unfold choice, randbelow.
  destruct (draw_returns w) as (r & w' & Hd).
  rewrite (bind_Ret _ _ _ _ _ (bind_Ret _ _ _ _ _ Hd)). unfold ret.
  eexists _, _. split; [reflexivity|].
  apply nth_In. apply Nat.mod_upper_bound. simpl. lia.
Qed.

Lemma choice_Ret_inv pool w c w' :
  choice pool w = (Ret c, w') -> In c pool.
Proof.
  destruct pool as [|c0 rest]; [discriminate|]. intros H.
  destruct (choice_returns (c0 :: rest) w) as (c1 & w1 & H1 & Hin); [congruence|].
  rewrite H in H1. now inversion H1; subst.
Qed.

(** The loop that appends [n] draws from [pool]. *)
Lemma append_choices_Ret_inv n pool : forall pcs w pcs' w',
  append_choices n pool pcs w = (Ret pcs', w') ->
  exists added, pcs' = pcs ++ added /\ List.length added = n
                /\ Forall (fun c => In c pool) added.
Proof.
  induction n as [|n IH]; intros pcs w pcs' w' H; simpl in H.
  - inversion H; subst. exists []. rewrite app_nil_r. repeat split. constructor.
  - apply bind_Ret_inv in H as (c & w1 & Hc & H).
    apply choice_Ret_inv in Hc.
    apply IH in H as (added & -> & Hlen & Hall).
    exists (c :: added). rewrite <- app_assoc. simpl. repeat split; auto.
Qed.

Lemma append_choices_returns n pool : forall pcs w,
  pool <> [] \/ n = O ->
  exists pcs' w', append_choices n pool pcs w = (Ret pcs', w').
Proof.
  induction n as [|n IH]; intros pcs w Hp; simpl.
  - unfold ret. eauto.
  - destruct Hp as [Hp|Hp]; [|discriminate].
    destruct (choice_returns pool w Hp) as (c & w1 & Hc & _).
    rewrite (bind_Ret _ _ _ _ _ Hc). apply IH. now left.
Qed.

Lemma append_choices_empty n pcs w :
  append_choices (S n) [] pcs w = (Raise empty_sequence, w).
Proof. reflexivity. Qed.

(** The shuffle rearranges and always returns. *)
Lemma swap_Permutation x i j : Permutation (swap x i j) x.
Proof.
  unfold swap. destruct (x !! i) as [xi|] eqn:Hi; [|reflexivity].
  destruct (x !! j) as [xj|] eqn:Hj; [|reflexivity].
  now apply Permutation_insert_swap.
Qed.

Lemma shuffle_from_spec i : forall x w,
  exists x' w', shuffle_from i x w = (Ret x', w') /\ Permutation x' x.
Proof.
  induction i as [|i IH]; intros x w; simpl.
  - unfold ret. eauto.
  - destruct (randbelow_returns (S (S i)) w) as (j & w1 & Hj).
    rewrite (bind_Ret _ _ _ _ _ Hj).
    destruct (IH (swap x (S i) j) w1) as (x' & w' & -> & Hp).
    eexists _, _. split; [reflexivity|].
    etransitivity; [exact Hp | apply swap_Permutation].
Qed.

Lemma shuffle_spec x w :
  exists x' w', shuffle x w = (Ret x', w') /\ Permutation x' x.
Proof. apply shuffle_from_spec. Qed.

Section GeneratorProperties.
Import PasswordGenerator.

Lemma range_Ret_inv v w n w' :
  range v w = (Ret n, w') -> exists z, index v = Some z /\ n = Z.to_nat z /\ w' = w.
Proof.
  unfold range. destruct (index v) as [z|]; [|discriminate].
  unfold ret. intros H. inversion H; subst. eauto.
Qed.

Lemma minimum_loop_inv v pool (cs pcs : list ascii) w a' w' :
  (n <- range v ;; pc <- append_choices n pool pcs ;; ret (cs, pc)) w = (Ret a', w') ->
  exists z added, index v = Some z /\ a' = (cs, pcs ++ added)
                  /\ List.length added = Z.to_nat z
                  /\ Forall (fun c => In c pool) added.
Proof.
  intros H. apply bind_Ret_inv in H as (n & w1 & Hn & H).
  apply range_Ret_inv in Hn as (z & Hz & -> & ->).
  apply bind_Ret_inv in H as (pc & w2 & Hpc & H).
  apply append_choices_Ret_inv in Hpc as (added & -> & Hlen & Hall).
  inversion H; subst. exists z, added. auto.
Qed.

Lemma minimum_loop_returns v pool (cs pcs : list ascii) w z :
  index v = Some z -> pool <> [] \/ Z.to_nat z = O ->
  exists a' w', (n <- range v ;; pc <- append_choices n pool pcs ;; ret (cs, pc)) w
                = (Ret a', w').
Proof.
  intros Hz Hp. unfold range. rewrite Hz.
  unfold bind at 1. unfold ret at 1.
  destruct (append_choices_returns (Z.to_nat z) pool pcs w Hp) as (pc & w' & Hpc).
  rewrite (bind_Ret _ _ _ _ _ Hpc). unfold ret. eauto.
Qed.

Lemma block_Ret_inv self k a w a' w' :
  block self k a w = (Ret a', w') ->
  fst a' = fst a ++ (if enabled self k then alphabet self k else [])
  /\ exists added, snd a' = snd a ++ added
                   /\ List.length added = share self k
                   /\ Forall (fun c => In c (alphabet self k)) added.
Proof.
  unfold share, minimum.
  destruct k; simpl; unfold lowercase_block, uppercase_block, digits_block, special_block,
    enabled; simpl;
    match goal with |- context [truthy ?f] => destruct (truthy f) eqn:Hf end;
    intros H;
    try (inversion H; subst; rewrite !app_nil_r; split; [reflexivity|];
         exists []; rewrite app_nil_r; repeat split; constructor).
  1-3: apply minimum_loop_inv in H as (z & added & Hz & -> & Hlen & Hall);
       rewrite Hz; simpl; split; [reflexivity|]; exists added; auto.
  destruct (special_chars self) as [| | |sc]; try discriminate.
  apply minimum_loop_inv in H as (z & added & Hz & -> & Hlen & Hall).
  rewrite Hz; simpl; split; [reflexivity|]; exists added; auto.
Qed.

Lemma remove_char_keeps c x cs : In x cs -> x <> c -> In x (remove_char c cs).
Proof.
  intros Hin Hne. unfold remove_char. apply filter_In. split; [exact Hin|].
  apply negb_true_iff. now apply Ascii.eqb_neq.
Qed.

Lemma letters_nonempty self k : k <> Special -> alphabet self k <> [].
Proof.
  destruct k; try congruence; intros _; simpl;
    unfold lowercase, uppercase, digits_of;
    destruct (truthy (exclude_ambiguous self)); vm_compute; discriminate.
Qed.

Lemma block_returns self k a w :
  class_ok self k = true -> exists a' w', block self k a w = (Ret a', w').
Proof.
  unfold class_ok. intros Hok.
  destruct (enabled self k) eqn:Hen.
  2:{ destruct k; simpl; unfold lowercase_block, uppercase_block, digits_block,
        special_block; unfold enabled in Hen; simpl in Hen; rewrite Hen;
        unfold ret; eauto. }
  simpl in Hok. apply andb_true_iff in Hok as [Hidx Hok].
  apply bool_decide_eq_true in Hidx as [z Hz].
  pose proof (letters_nonempty self k) as Hne.
  destruct k; simpl; unfold lowercase_block, uppercase_block, digits_block,
    special_block; unfold enabled in Hen; simpl in Hen; rewrite Hen.
  1-3: eapply minimum_loop_returns; [exact Hz | left; apply Hne; discriminate].
  destruct (special_chars self) as [| | |sc] eqn:Hsc; try discriminate.
  eapply minimum_loop_returns; [exact Hz|].
  apply orb_true_iff in Hok as [Hok|Hok].
  - left. apply negb_true_iff in Hok. apply String.eqb_neq in Hok.
    destruct sc; [congruence | simpl; discriminate].
  - right. apply Nat.eqb_eq in Hok. unfold minimum in Hok.
    cbn [min_key] in Hok, Hz. now rewrite Hz in Hok.
Qed.

(** [generate] as a chain of its blocks. *)
Lemma generate_unfold self :
  generate self =
  (a <- block self Lowercase ([], []) ;;
   a <- block self Uppercase a ;;
   a <- block self Digits a ;;
   a <- block self Special a ;;
   password_chars <- fill_block self a ;;
   password_chars <- shuffle password_chars ;;
   ret (join password_chars)).
Proof. reflexivity. Qed.

Lemma blocks_Ret_inv self w a w' :
  (a <- block self Lowercase ([], []) ;;
   a <- block self Uppercase a ;;
   a <- block self Digits a ;;
   block self Special a) w = (Ret a, w') ->
  after_blocks self a.
Proof.
  intros H.
  apply bind_Ret_inv in H as (a1 & w1 & H1 & H).
  apply bind_Ret_inv in H as (a2 & w2 & H2 & H).
  apply bind_Ret_inv in H as (a3 & w3 & H3 & H4).
  apply block_Ret_inv in H1 as (C1 & p1 & P1 & L1 & F1).
  apply block_Ret_inv in H2 as (C2 & p2 & P2 & L2 & F2).
  apply block_Ret_inv in H3 as (C3 & p3 & P3 & L3 & F3).
  apply block_Ret_inv in H4 as (C4 & p4 & P4 & L4 & F4).
  split.
  - rewrite C4, C3, C2, C1. simpl. rewrite app_nil_r, <- !app_assoc. reflexivity.
  - exists (fun k => match k with Lowercase => p1 | Uppercase => p2
                             | Digits => p3 | Special => p4 end).
    split.
    + rewrite P4, P3, P2, P1. simpl. rewrite app_nil_r, <- !app_assoc. reflexivity.
    + intros []; auto.
Qed.

Lemma after_blocks_length self a :
  after_blocks self a -> List.length (snd a) = required self.
Proof.
  intros [_ (parts & -> & Hparts)]. unfold required, charclasses. simpl.
  rewrite !length_app. simpl.
  destruct (Hparts Lowercase) as [-> _], (Hparts Uppercase) as [-> _],
    (Hparts Digits) as [-> _], (Hparts Special) as [-> _].
  unfold share. lia.
Qed.

Lemma after_blocks_count self a k rest :
  after_blocks self a ->
  (share self k <= List.length (List.filter (member (alphabet self k)) (snd a ++ rest)))%nat.
Proof.
  intros [_ (parts & -> & Hparts)].
  destruct (Hparts k) as [Hlen Hall].
  assert (Hk : List.length (List.filter (member (alphabet self k)) (parts k)) = share self k).
  { rewrite filter_length_all; [exact Hlen|].
    eapply List.Forall_impl; [|exact Hall]. intros c Hc. now apply member_In. }
  unfold charclasses. simpl. rewrite app_nil_r.
  rewrite !List.filter_app, !length_app.
  destruct k; lia.
Qed.

Lemma blocks_return self w :
  forallb (class_ok self) charclasses = true ->
  exists a w', (a <- block self Lowercase ([], []) ;;
                a <- block self Uppercase a ;;
                a <- block self Digits a ;;
                block self Special a) w = (Ret a, w').
Proof.
  simpl. rewrite !andb_true_iff. intros (O1 & O2 & O3 & O4 & _).
  destruct (block_returns self Lowercase ([], []) w O1) as (a1 & w1 & H1).
  rewrite (bind_Ret _ _ _ _ _ H1).
  destruct (block_returns self Uppercase a1 w1 O2) as (a2 & w2 & H2).
  rewrite (bind_Ret _ _ _ _ _ H2).
  destruct (block_returns self Digits a2 w2 O3) as (a3 & w3 & H3).
  rewrite (bind_Ret _ _ _ _ _ H3).
  exact (block_returns self Special a3 w3 O4).
Qed.

Lemma generate_assoc self w :
  generate self w =
  (a <- (a <- block self Lowercase ([], []) ;;
         a <- block self Uppercase a ;;
         a <- block self Digits a ;;
         block self Special a) ;;
   password_chars <- fill_block self a ;;
   password_chars <- shuffle password_chars ;;
   ret (join password_chars)) w.
Proof.
  rewrite generate_unfold. unfold bind.
  destruct (block self Lowercase ([], []) w) as [[a1|e] w1]; [|reflexivity].
  destruct (block self Uppercase a1 w1) as [[a2|e] w2]; [|reflexivity].
  destruct (block self Digits a2 w2) as [[a3|e] w3]; [|reflexivity].
  reflexivity.
Qed.

Lemma fill_block_Ret_inv self a w pcs w' :
  fill_block self a w = (Ret pcs, w') ->
  exists len fill, index (length self) = Some len /\ pcs = snd a ++ fill
    /\ List.length fill = Z.to_nat (len - Z.of_nat (List.length (snd a))).
Proof.
  unfold fill_block. destruct (index (length self)) as [len|]; [|discriminate].
  intros H. apply append_choices_Ret_inv in H as (fill & -> & Hlen & _).
  eauto.
Qed.

Lemma charset_nonempty self a :
  after_blocks self a ->
  existsb (fun k => enabled self k
                    && negb (match alphabet self k with [] => true | _ => false end))
          charclasses = true ->
  fst a <> [].
Proof.
  intros [-> _] H. apply existsb_exists in H as (k & Hin & Hk).
  apply andb_true_iff in Hk as [Hen Hne].
  destruct (alphabet self k) as [|c rest] eqn:Hal; [discriminate|].
  assert (Hc : In c (flat_map (fun k => if enabled self k then alphabet self k else [])
                              charclasses)).
  { apply in_flat_map. exists k. split; [exact Hin|]. rewrite Hen, Hal. now left. }
  intros Hnil. rewrite Hnil in Hc. destruct Hc.
Qed.

Lemma generate_Ret_inv self w pw :
  outcome (generate self) w = Ret pw ->
  exists a len fill pcs,
    after_blocks self a /\ index (length self) = Some len
    /\ List.length fill = Z.to_nat (len - Z.of_nat (List.length (snd a)))
    /\ Permutation pcs (snd a ++ fill) /\ pw = join pcs.
Proof.
  unfold outcome. destruct (generate self w) as [r w'] eqn:H. simpl. intros ->.
  rewrite generate_assoc in H.
  apply bind_Ret_inv in H as (a & w1 & Ha & H).
  apply blocks_Ret_inv in Ha.
  apply bind_Ret_inv in H as (pcs & w2 & Hfill & H).
  apply fill_block_Ret_inv in Hfill as (len & fill & Hlen & -> & Hfl).
  apply bind_Ret_inv in H as (pcs' & w3 & Hsh & H).
  destruct (shuffle_spec (snd a ++ fill) w2) as (x' & w4 & Hsh' & Hperm).
  rewrite Hsh in Hsh'. inversion Hsh'; subst. inversion H; subst.
  exists a, len, fill, x'. auto.
Qed.

Lemma generate_returns self w :
  well_formed self = true -> exists pw, outcome (generate self) w = Ret pw.
Proof.
  unfold well_formed. rewrite !andb_true_iff. intros [[Hcls Hlen] Hpool].
  apply bool_decide_eq_true in Hlen as [len Hlen].
  destruct (blocks_return self w Hcls) as (a & w1 & Ha).
  unfold outcome. rewrite generate_assoc, (bind_Ret _ _ _ _ _ Ha).
  pose proof (blocks_Ret_inv _ _ _ _ Ha) as Hab.
  assert (Hfill : exists pcs w2, fill_block self a w1 = (Ret pcs, w2)).
  { unfold fill_block. rewrite Hlen. apply append_choices_returns.
    apply orb_true_iff in Hpool as [Hle|Hex].
    - right. apply Nat.leb_le in Hle. unfold configured_length in Hle.
      rewrite Hlen in Hle. rewrite (after_blocks_length self a Hab). lia.
    - left. now apply (charset_nonempty self a). }
  destruct Hfill as (pcs & w2 & Hfill). rewrite (bind_Ret _ _ _ _ _ Hfill).
  destruct (shuffle_spec pcs w2) as (x' & w3 & Hsh & _).
  rewrite (bind_Ret _ _ _ _ _ Hsh). unfold ret. simpl. eauto.
Qed.

(** C1 (as amended).  For every password policy: a well-formed policy makes
    [generate] return, and whatever string [generate] returns holds, for
    each enabled character class, at least the configured minimum (2 by
    default) of characters of that class, and its length is the configured
    length (16 by default), or the sum of the minimums of the enabled
    classes when that sum is larger. *)
Theorem generate_meets_policy (policy : gmap string value) (w : world) :
  let self := PasswordGenerator.init policy in
  (well_formed self = true -> exists pw, outcome (generate self) w = Ret pw)
  /\ (forall pw, outcome (generate self) w = Ret pw ->
        (forall k, enabled self k = true ->
                   (minimum self k <= count_in (alphabet self k) pw)%nat)
        /\ String.length pw = Nat.max (configured_length self) (required self)).
Proof.
  intros self. split; [apply generate_returns|].
  intros pw H.
  apply generate_Ret_inv in H as (a & len & fill & pcs & Hab & Hlen & Hfl & Hperm & ->).
  split.
  - intros k Hk. unfold count_in. rewrite chars_join.
    rewrite (filter_length_Permutation _ _ _ Hperm).
    pose proof (after_blocks_count self a k fill Hab) as Hc.
    unfold share in Hc. now rewrite Hk in Hc.
  - rewrite length_join, (Permutation_length Hperm), length_app, Hfl.
    rewrite (after_blocks_length self a Hab).
    unfold configured_length. rewrite Hlen. lia.
Qed.

Lemma generate_meets_policy_witness :
  exists pw, outcome (generate (PasswordGenerator.init ∅)) quiet_world = Ret pw
             /\ String.length pw = 16%nat.
Proof.
  destruct (generate_meets_policy ∅ quiet_world) as [Hret Hprop].
  destruct (Hret eq_refl) as [pw Hpw].
  exists pw. split; [exact Hpw|].
  destruct (Hprop pw Hpw) as [_ Hlen]. exact Hlen.
Defined.

(** C1, as stated, fails: with length 4 and the default minimums the
    password returned has eight characters. *)
Lemma generate_length_counterexample :
  let policy : gmap string value := {[ "length" := VInt 4 ]} in
  outcome (generate (PasswordGenerator.init policy)) quiet_world = Ret "aAA22!!a"
  /\ dict_get policy "length" (VInt 16) = VInt 4
  /\ String.length "aAA22!!a" <> 4%nat.
Proof. vm_compute. repeat split; discriminate. Qed.

(** C10 (as amended).  With all four character classes disabled and a
    positive configured length, [generate] raises (the pool it fills from
    is empty) and returns no password; so with a positive length it
    returns only when some class is enabled.  With all four classes
    disabled and a length of zero or less it draws nothing and returns
    the empty password. *)
Theorem generate_needs_a_class (policy : gmap string value) (w : world) (len : Z) :
  let self := PasswordGenerator.init policy in
  index (length self) = Some len ->
  (0 < len ->
   ((forall k, enabled self k = false) ->
    outcome (generate self) w = Raise empty_sequence)
   /\ (forall pw, outcome (generate self) w = Ret pw -> exists k, enabled self k = true))
  /\ (len <= 0 -> (forall k, enabled self k = false) ->
      outcome (generate self) w = Ret EmptyString).
Proof.
  intros self Hlen.
  assert (Hnone : (forall k, enabled self k = false) ->
                  generate self w
                  = (password_chars <- append_choices (Z.to_nat len) [] [] ;;
                     password_chars <- shuffle password_chars ;;
                     ret (join password_chars)) w).
  { intros Hoff. unfold generate.
    pose proof (Hoff Lowercase) as H1. pose proof (Hoff Uppercase) as H2.
    pose proof (Hoff Digits) as H3. pose proof (Hoff Special) as H4.
    unfold enabled in H1, H2, H3, H4.
    unfold lowercase_block, uppercase_block, digits_block, special_block.
    rewrite H1, H2, H3, H4. unfold bind at 1 2 3 4. unfold ret at 1 2 3 4.
    unfold fill_block. rewrite Hlen. cbn [fst snd List.length].
    replace (len - Z.of_nat 0) with len by lia. reflexivity. }
  split.
  - intros Hpos.
    assert (Hfail : (forall k, enabled self k = false) ->
                    outcome (generate self) w = Raise empty_sequence).
    { intros Hoff. unfold outcome. rewrite (Hnone Hoff).
      destruct (Z.to_nat len) eqn:Hn; [lia|]. reflexivity. }
    split; [exact Hfail|].
    intros pw Hpw.
    destruct (enabled self Lowercase) eqn:E1; [now exists Lowercase|].
    destruct (enabled self Uppercase) eqn:E2; [now exists Uppercase|].
    destruct (enabled self Digits) eqn:E3; [now exists Digits|].
    destruct (enabled self Special) eqn:E4; [now exists Special|].
    rewrite Hfail in Hpw; [discriminate|]. now intros [].
  - intros Hneg Hoff. unfold outcome. rewrite (Hnone Hoff).
    replace (Z.to_nat len) with 0%nat by lia. reflexivity.
Qed.

Lemma generate_needs_a_class_witness :
  let policy : gmap string value :=
    <["include_lowercase" := VBool false]>
      (<["include_uppercase" := VBool false]>
         (<["include_digits" := VBool false]>
            {[ "include_special" := VBool false ]})) in
  outcome (generate (PasswordGenerator.init policy)) quiet_world = Raise empty_sequence.
Proof.
  intros policy.
  refine (proj1 (proj1 (generate_needs_a_class policy quiet_world 16 _) _) _).
  - reflexivity.
  - lia.
  - intros []; reflexivity.
Defined.

(** C10, as stated, fails: with the four classes disabled and a
    configured length of 0, [generate] returns normally, with the empty
    password, although no character class is enabled. *)
Lemma generate_without_classes_counterexample :
  let policy : gmap string value :=
    <["length" := VInt 0]>
      (<["include_lowercase" := VBool false]>
         (<["include_uppercase" := VBool false]>
            (<["include_digits" := VBool false]>
               {[ "include_special" := VBool false ]}))) in
  let self := PasswordGenerator.init policy in
  (forall k, enabled self k = false)
  /\ outcome (generate self) quiet_world = Ret EmptyString.
Proof. split; [intros []; reflexivity | reflexivity]. Qed.

End GeneratorProperties.

(* ===================================================================== *)
(** * Settings and their defaults                                         *)
(* ===================================================================== *)












Lemma str_in_In x xs : str_in x xs = true <-> In x xs.
Proof.
  unfold str_in. rewrite existsb_exists. split.
  - intros (y & Hy & Heq). apply String.eqb_eq in Heq. now subst.
  - intros H. exists x. split; [exact H | apply String.eqb_refl].
Qed.

Lemma name_character_bool c :
  isalnum c || Ascii.eqb c "-" || Ascii.eqb c "_" = true <-> name_character c.
Proof.
  unfold name_character. rewrite !orb_true_iff, !Ascii.eqb_eq. tauto.
Qed.

Lemma validate_username_true username :
  fst (validate_username username) = true <-> validate_username username = (true, EmptyString).
Proof.
  split; [|now intros ->].
  unfold validate_username.
  repeat match goal with
         | |- context [match ?x with _ => _ end] => destruct x; simpl; try discriminate
         end.
  reflexivity.
Qed.

Lemma validate_username_acceptable username :
  validate_username username = (true, EmptyString) <-> acceptable username.
Proof.
  unfold validate_username. rewrite <- length_chars.
  destruct (chars username) as [|c0 rest] eqn:Hcs.
  { split; [discriminate|]. intros [H _ _ _ _]. rewrite <- length_chars, Hcs in H.
    simpl in H. lia. }
  destruct (Nat.ltb_spec (List.length (c0 :: rest)) 3) as [H3|H3].
  { split; [discriminate|]. intros [H _ _ _ _]. rewrite <- length_chars, Hcs in H. lia. }
  destruct (Nat.ltb_spec 32 (List.length (c0 :: rest))) as [H32|H32].
  { split; [discriminate|]. intros [_ H _ _ _]. rewrite <- length_chars, Hcs in H. lia. }
  destruct (isalpha c0) eqn:Ha; cbn [negb].
  2:{ split; [discriminate|]. intros [_ _ (c & r & Hc & Hal) _ _].
      rewrite Hcs in Hc. inversion Hc; subst. congruence. }
  destruct (forallb (fun c => isalnum c || Ascii.eqb c "-" || Ascii.eqb c "_")
                    (c0 :: rest)) eqn:Hall; cbn [negb].
  2:{ split; [discriminate|]. intros [_ _ _ H _]. rewrite Hcs in H.
      assert (forallb (fun c => isalnum c || Ascii.eqb c "-" || Ascii.eqb c "_")
                      (c0 :: rest) = true) as Hy.
      { apply forallb_forall. intros c Hc. apply name_character_bool.
        rewrite List.Forall_forall in H. now apply H. }
      congruence. }
  destruct (str_in username reserved) eqn:Hres.
  { split; [discriminate|]. intros [_ _ _ _ H]. apply str_in_In in Hres. now apply H in Hres. }
  split; [intros _|reflexivity].
  constructor.
  - rewrite <- length_chars, Hcs. lia.
  - rewrite <- length_chars, Hcs. lia.
  - exists c0, rest. now rewrite Hcs.
  - rewrite Hcs. apply List.Forall_forall. intros c Hc. apply name_character_bool.
    rewrite forallb_forall in Hall. now apply Hall.
  - intros H. apply str_in_In in H. unfold reserved in Hres. congruence.
Qed.

(** C2.  [validate_username(u)] returns [(True, '')] exactly when [u] has
    3 to 32 characters, starts with a letter, holds only alphanumeric
    characters, hyphens and underscores, and is not reserved; and on any
    other username [create_user] returns [(False, u, '')] having printed
    one message and done nothing else: no process is spawned, no file is
    touched. *)
Theorem validate_username_spec (self : FTPUserManager.t) (username : string)
    (password : option string) (w : world) :
  (validate_username username = (true, EmptyString) <-> acceptable username)
  /\ (validate_username username <> (true, EmptyString) ->
      create_user self username password w
      = (Ret (false, username, EmptyString),
         set_printed (printed w ++ [InvalidUsername (snd (validate_username username))]) w)).
Proof.
  split; [apply validate_username_acceptable|].
  intros H. unfold create_user.
  destruct (validate_username username) as [valid message] eqn:Hv.
  destruct valid; [|reflexivity].
  exfalso. apply H. rewrite <- Hv. apply validate_username_true. now rewrite Hv.
Qed.

Lemma validate_username_spec_witness :
  acceptable "alice"
  /\ outcome (create_user (of_config ∅) "root" None) quiet_world
     = Ret (false, "root", EmptyString).
Proof.
  destruct (validate_username_spec (of_config ∅) "alice" None quiet_world) as [Hiff _].
  destruct (validate_username_spec (of_config ∅) "root" None quiet_world) as [_ Hno].
  split.
  - apply Hiff. reflexivity.
  - unfold outcome. rewrite Hno; [reflexivity | discriminate].
Defined.

(* ===================================================================== *)
(** * Loading the settings                                                *)
(* ===================================================================== *)

(** C5, as stated, fails: the FTP debugger meets a settings file that is
    not JSON, and goes on with the empty configuration. *)
Lemma load_config_counterexample :
  settings broken_settings !! "settings.json"
  = Some (NotJSON "Expecting value: line 1 column 1 (char 0)")
  /\ load_config ftp_debug "settings.json" broken_settings = (Ret ∅, broken_settings)
  /\ exit_status (outcome (load_config ftp_debug "settings.json") broken_settings) <> 1.
Proof. repeat split. vm_compute. discriminate. Qed.

(** C5 (as amended).  When the settings file exists and is not well-formed
    JSON, what loading it does depends on the script and on the file.
    Where [json.load] rejects the text, [ftp_users.py] prints one message
    and exits with status 1, from [_load_config] and so from the
    constructor of [FTPUserManager]; the Tailscale setup prints two lines
    of warning and goes on with the empty configuration.  Where the file
    is not even text, both let the [UnicodeDecodeError] through, from
    [_load_config] and so from their constructors, which ends the
    process with status 1 and nothing printed by the script.
    The two debuggers go on with the empty configuration either way,
    having printed nothing.  Nothing else is done in any of the cases:
    the world is as it was but for what was printed. *)
Theorem load_config_malformed (s : script) (config_file : string) (w : world) :
  (forall why, settings w !! config_file = Some (NotJSON why) ->
     match s with
     | ftp_users =>
         load_config s config_file w
         = (Raise (SystemExit 1), set_printed (printed w ++ [InvalidJSON why]) w)
         /\ FTPUserManager.init config_file w
            = (Raise (SystemExit 1), set_printed (printed w ++ [InvalidJSON why]) w)
         /\ exit_status (outcome (load_config s config_file) w) = 1
     | tailscale_setup =>
         load_config s config_file w
         = (Ret ∅, set_printed (printed w ++ [InvalidJSONWarning why;
                                              UsingDefaultSettings]) w)
     | ftp_debug | tailscale_debug =>
         load_config s config_file w = (Ret ∅, w)
     end)
  /\ (forall bytes, settings w !! config_file = Some (Undecodable bytes) ->
     match s with
     | ftp_users =>
         load_config s config_file w = (Raise (UnicodeDecodeError bytes), w)
         /\ FTPUserManager.init config_file w = (Raise (UnicodeDecodeError bytes), w)
         /\ exit_status (outcome (load_config s config_file) w) = 1
     | tailscale_setup =>
         load_config s config_file w = (Raise (UnicodeDecodeError bytes), w)
         /\ TailscaleSetupMethods.init config_file w
            = (Raise (UnicodeDecodeError bytes), w)
         /\ exit_status (outcome (load_config s config_file) w) = 1
     | ftp_debug | tailscale_debug =>
         load_config s config_file w = (Ret ∅, w)
     end).
Proof.
  split; intros x H; destruct s; unfold load_config, outcome.
  - unfold FTPUserManager.init, bind, FTPUserManager._load_config. rewrite H.
    repeat split.
  - unfold FTPDebugger._load_config. now rewrite H.
  - unfold TailscaleSetup._load_config. rewrite H.
    unfold try_, json_load, raise, bind, print, ret. cbn [printed set_printed].
    now rewrite <- app_assoc.
  - unfold TailscaleDebugger._load_config. now rewrite H.
  - unfold FTPUserManager.init, bind, FTPUserManager._load_config. rewrite H.
    repeat split.
  - unfold FTPDebugger._load_config. now rewrite H.
  - unfold TailscaleSetupMethods.init, bind, TailscaleSetup._load_config. rewrite H.
    repeat split.
  - unfold TailscaleDebugger._load_config. now rewrite H.
Qed.

Lemma load_config_malformed_witness :
  exit_status (outcome (load_config ftp_users "settings.json") broken_settings) = 1.
Proof.
  exact (proj2 (proj2 (proj1 (load_config_malformed ftp_users "settings.json"
                                                    broken_settings) _ eq_refl))).
Defined.

(* ===================================================================== *)
(** * Running a diagnostic command                                        *)
(* ===================================================================== *)


(* ===================================================================== *)
(** * Lines of a text                                                     *)
(* ===================================================================== *)

Lemma lines_of_Lines cs : Lines (lines_of cs).
Proof.
  induction cs as [|c rest IH]; simpl; [constructor|].
  destruct (Ascii.eqb_spec c newline) as [->|Hc].
  - apply (Lines_cons []); [intros [] | exact IH].
  - inversion IH as [Hnil | body Hne Hnl Hl | body ls Hnl Hls Hl].
    + apply Lines_last; [discriminate | intros [H|[]]; congruence].
    + apply Lines_last; [discriminate | intros [H|H]; [congruence | contradiction]].
    + apply (Lines_cons (c :: body)); [intros [H|H]; [congruence | contradiction] | exact Hls].
Qed.

Lemma lines_of_plain body : body <> [] -> ~ In newline body -> lines_of body = [body].
Proof.
  induction body as [|c rest IH]; [congruence|]. intros _ Hnl. simpl.
  destruct (Ascii.eqb_spec c newline) as [->|Hc]; [exfalso; apply Hnl; now left|].
  destruct rest as [|c' rest']; [reflexivity|].
  rewrite IH; [reflexivity | discriminate | intros H; apply Hnl; now right].
Qed.

Lemma lines_of_line body rest :
  ~ In newline body -> lines_of (body ++ newline :: rest) = (body ++ [newline]) :: lines_of rest.
Proof.
  induction body as [|c body IH]; intros Hnl; simpl.
  - reflexivity.
  - destruct (Ascii.eqb_spec c newline) as [->|Hc]; [exfalso; apply Hnl; now left|].
    rewrite IH; [reflexivity | intros H; apply Hnl; now right].
Qed.

Lemma lines_of_concat ls : Lines ls -> lines_of (concat ls) = ls.
Proof.
  induction 1 as [|body Hne Hnl|body ls Hnl Hls IH]; simpl.
  - reflexivity.
  - rewrite app_nil_r. now apply lines_of_plain.
  - rewrite <- app_assoc. simpl. rewrite lines_of_line by exact Hnl. now rewrite IH.
Qed.

Lemma concat_lines_of cs : concat (lines_of cs) = cs.
Proof.
  induction cs as [|c rest IH]; simpl; [reflexivity|].
  destruct (Ascii.eqb c newline); simpl; [now rewrite IH|].
  destruct (lines_of rest) as [|l ls]; simpl in *; now rewrite <- IH.
Qed.

Lemma Lines_filter f ls : Lines ls -> Lines (List.filter f ls).
Proof.
  induction 1 as [|body Hne Hnl|body ls Hnl Hls IH]; simpl.
  - constructor.
  - destruct (f body); [now constructor | constructor].
  - destruct (f (body ++ [newline])); [now constructor | exact IH].
Qed.

Lemma closed_line body : closed (body ++ [newline]) = true.
Proof. unfold closed. rewrite last_snoc. apply Ascii.eqb_refl. Qed.

Lemma closed_plain body : ~ In newline body -> closed body = false.
Proof.
  unfold closed. intros Hnl. destruct (last body) as [c|] eqn:Hl; [|reflexivity].
  apply Ascii.eqb_neq. intros ->. apply Hnl.
  apply last_Some in Hl as [l' ->]. apply in_or_app. right. now left.
Qed.

(** Text appended to closed lines starts lines of its own. *)
Lemma lines_of_app_closed ls ds :
  Lines ls -> forallb closed ls = true ->
  lines_of (concat ls ++ ds) = ls ++ lines_of ds.
Proof.
  induction 1 as [|body Hne Hnl|body ls Hnl Hls IH]; simpl; intros Hc.
  - reflexivity.
  - rewrite closed_plain in Hc by exact Hnl. discriminate.
  - apply andb_true_iff in Hc as [_ Hc].
    rewrite <- !app_assoc. simpl. rewrite lines_of_line by exact Hnl. now rewrite IH.
Qed.

(** Strings. *)
Lemma chars_append s t : chars (String.append s t) = chars s ++ chars t.
Proof. induction s; simpl; [reflexivity | now rewrite IHs]. Qed.

Lemma join_app cs ds : join (cs ++ ds) = String.append (join cs) (join ds).
Proof. induction cs; simpl; [reflexivity | now rewrite IHcs]. Qed.

Lemma chars_concat_str parts : chars (concat_str parts) = concat (map chars parts).
Proof.
  induction parts as [|p ps IH]; simpl; [reflexivity|].
  now rewrite chars_append, IH.
Qed.

Lemma filter_map_join (g : string -> bool) ls :
  List.filter g (map join ls) = map join (List.filter (fun l => g (join l)) ls).
Proof.
  induction ls as [|l ls IH]; simpl; [reflexivity|].
  destruct (g (join l)); simpl; now rewrite IH.
Qed.

Lemma map_chars_join ls : map chars (map join ls) = ls.
Proof.
  induction ls as [|l ls IH]; simpl; [reflexivity|]. now rewrite chars_join, IH.
Qed.

(** Reading back what [delete_user] writes gives the lines it kept. *)
Lemma readlines_filter (g : string -> bool) text :
  readlines (concat_str (List.filter g (readlines text))) = List.filter g (readlines text).
Proof.
  unfold readlines. rewrite filter_map_join, chars_concat_str, map_chars_join.
  rewrite lines_of_concat; [reflexivity|].
  apply Lines_filter, lines_of_Lines.
Qed.

Lemma newline_terminated_closed text :
  newline_terminated text = forallb closed (lines_of (chars text)).
Proof. reflexivity. Qed.

Lemma forallb_filter {X} (p f : X -> bool) l :
  forallb p l = true -> forallb p (List.filter f l) = true.
Proof.
  induction l as [|x l IH]; simpl; [reflexivity|].
  intros H. apply andb_true_iff in H as [Hx Hl].
  destruct (f x); simpl; [rewrite Hx|]; auto.
Qed.

Lemma newline_terminated_filter (g : string -> bool) text :
  newline_terminated text = true ->
  newline_terminated (concat_str (List.filter g (readlines text))) = true.
Proof.
  intros H. rewrite newline_terminated_closed.
  unfold readlines. rewrite filter_map_join, chars_concat_str, map_chars_join.
  rewrite lines_of_concat by (apply Lines_filter, lines_of_Lines).
  now apply forallb_filter.
Qed.

(** Appending one line to a text whose lines are all closed. *)
Lemma readlines_append_line text name :
  newline_terminated text = true -> ~ In newline (chars name) ->
  readlines (String.append text (String.append name (String newline EmptyString)))
  = readlines text ++ [String.append name (String newline EmptyString)].
Proof.
  intros Hc Hnl. unfold readlines. rewrite !chars_append. simpl.
  rewrite <- (concat_lines_of (chars text)) at 1.
  rewrite lines_of_app_closed; [|apply lines_of_Lines | exact Hc].
  rewrite lines_of_line by exact Hnl. simpl. rewrite map_app. simpl.
  rewrite join_app, join_chars. reflexivity.
Qed.

Lemma newline_terminated_append_line text name :
  newline_terminated text = true -> ~ In newline (chars name) ->
  newline_terminated (String.append text (String.append name (String newline EmptyString)))
  = true.
Proof.
  intros Hc Hnl. rewrite newline_terminated_closed, !chars_append. simpl.
  rewrite <- (concat_lines_of (chars text)) at 1.
  rewrite lines_of_app_closed; [|apply lines_of_Lines | exact Hc].
  rewrite lines_of_line by exact Hnl. simpl.
  rewrite forallb_app. rewrite <- newline_terminated_closed, Hc. simpl.
  now rewrite closed_line.
Qed.

(* ===================================================================== *)
(** * What the operating-system calls leave alone                         *)
(* ===================================================================== *)

(** The structural steps of a proof that a computation keeps a component. *)
Ltac keeps_steps call :=
  repeat first
    [ call
    | apply keeps_ret | apply keeps_raise
    | apply keeps_bind; [|intros ?]
    | apply keeps_if
    | apply keeps_try; [| let e := fresh "e" in let k := fresh "k" in let H := fresh "H" in
                          intros e k H; destruct e; simpl in H;
                          try discriminate; inversion H; subst; clear H ]
    | match goal with
      | |- keeps _ (match ?v with _ => _ end) => destruct v
      | |- keeps _ (let (_, _) := ?v in _) => destruct v
      end ].

Section Untouched.
Context {X : Type} (proj : world -> X).
Hypothesis proj_printed : forall ms w, proj (set_printed ms w) = proj w.
Hypothesis proj_spawned : forall ps w, proj (set_spawned ps w) = proj w.
Hypothesis proj_syscalls : forall cs w, proj (set_syscalls cs w) = proj w.
Hypothesis proj_entropy : forall rs w, proj (set_entropy rs w) = proj w.
Hypothesis proj_answers : forall rs w, proj (set_answers rs w) = proj w.
Hypothesis proj_dir_fault : forall f w, proj (set_dir_fault f w) = proj w.

Ltac settle :=
  repeat first [ rewrite proj_printed | rewrite proj_spawned | rewrite proj_syscalls
               | rewrite proj_entropy | rewrite proj_answers | rewrite proj_dir_fault ];
  reflexivity.

Lemma keeps_print m : keeps proj (print m).
Proof. intros w. unfold print. simpl. settle. Qed.

Lemma keeps_draw : keeps proj draw.
Proof. intros w. unfold draw. destruct (entropy w); simpl; settle. Qed.

Lemma keeps_subprocess_run cmd input timeout : keeps proj (subprocess_run cmd input timeout).
Proof.
  intros w. unfold subprocess_run. destruct cmd as [|c cmd]; [reflexivity|].
  destruct (next_answer w) as [[rc out err secs|why] rest].
  - destruct timeout as [t|]; [destruct (t <? secs)|]; simpl; settle.
  - simpl. settle.
Qed.

Lemma keeps_run_checked cmd : keeps proj (run_checked cmd).
Proof.
  apply keeps_bind; [apply keeps_subprocess_run|].
  intros r. apply keeps_if; [apply keeps_ret | apply keeps_raise].
Qed.

Lemma keeps_syscall c : keeps proj (syscall_ c).
Proof. intros w. unfold syscall_. destruct (dir_fault w) as [[|k]|]; simpl; settle. Qed.

Lemma keeps_arguments vs : keeps proj (arguments vs).
Proof.
  induction vs as [|v vs IH]; simpl; [apply keeps_ret|].
  destruct v; try apply keeps_raise.
  apply keeps_bind; [exact IH | intros; apply keeps_ret].
Qed.

Lemma keeps_Path v : keeps proj (Path v).
Proof. destruct v; simpl; first [apply keeps_ret | apply keeps_raise]. Qed.

Lemma keeps_decode b : keeps proj (decode b).
Proof. unfold decode. apply keeps_if; [apply keeps_ret | apply keeps_raise]. Qed.

Lemma keeps_error_output stderr : keeps proj (error_output stderr).
Proof.
  destruct stderr as [b|]; simpl; [|apply keeps_ret].
  apply keeps_if; [|apply keeps_ret].
  apply keeps_bind; [apply keeps_decode | intros; apply keeps_ret].
Qed.

Lemma keeps_exists path : keeps proj (exists_ path).
Proof. intros w. reflexivity. Qed.

Lemma keeps_read_text path : keeps proj (read_text path).
Proof. intros w. unfold read_text. now destruct (files w !! path). Qed.

Lemma keeps_getpwnam name : keeps proj (getpwnam name).
Proof. intros w. unfold getpwnam. now destruct (passwd w). Qed.

Lemma keeps_strftime_now : keeps proj strftime_now.
Proof. intros w. reflexivity. Qed.

Ltac quiet_call :=
  first [ apply keeps_print | apply keeps_run_checked | apply keeps_subprocess_run
        | apply keeps_syscall | apply keeps_arguments | apply keeps_Path
        | apply keeps_error_output | apply keeps_exists | apply keeps_read_text | apply keeps_getpwnam
        | apply keeps_strftime_now
        | apply keeps_generate; apply keeps_draw ].

Lemma keeps_user_exists name : keeps proj (user_exists name).
Proof. unfold user_exists. keeps_steps quiet_call. Qed.

Lemma keeps_chpasswd name password : keeps proj (chpasswd name password).
Proof. unfold chpasswd. keeps_steps quiet_call. Qed.

Lemma keeps_create_account self name password home :
  keeps proj (create_account self name password home).
Proof.
  unfold create_account. keeps_steps ltac:(first [quiet_call | apply keeps_chpasswd]).
Qed.

Lemma keeps_create_directories name home dir :
  keeps proj (create_directories name home dir).
Proof. unfold create_directories. keeps_steps quiet_call. Qed.

Lemma keeps_cleanup name : keeps proj (cleanup name).
Proof.
  unfold cleanup. apply keeps_try.
  - keeps_steps ltac:(first [quiet_call | apply keeps_user_exists]).
  - intros e k H. inversion H; subst. apply keeps_ret.
Qed.
End Untouched.

(** What no file operation touches either. *)
Section Unwritten.
Context {X : Type} (proj : world -> X).
Hypothesis proj_printed : forall ms w, proj (set_printed ms w) = proj w.
Hypothesis proj_syscalls : forall cs w, proj (set_syscalls cs w) = proj w.
Hypothesis proj_dir_fault : forall f w, proj (set_dir_fault f w) = proj w.
Hypothesis proj_files : forall fs w, proj (set_files fs w) = proj w.

Lemma keeps_append_text path text : keeps proj (append_text path text).
Proof. intros w. unfold append_text. simpl. apply proj_files. Qed.

Lemma keeps_write_text path text : keeps proj (write_text path text).
Proof. intros w. unfold write_text. simpl. apply proj_files. Qed.

Lemma keeps_chmod_file path perm : keeps proj (chmod_file path perm).
Proof.
  intros w. unfold chmod_file. destruct (files w !! path); simpl;
    [apply proj_files | reflexivity].
Qed.

Ltac file_call :=
  first [ apply keeps_append_text | apply keeps_write_text | apply keeps_chmod_file
        | apply keeps_print; exact proj_printed
        | apply keeps_syscall; [exact proj_syscalls | exact proj_dir_fault]
        | apply keeps_Path | apply keeps_exists | apply keeps_read_text
        | apply keeps_strftime_now ].

Lemma keeps_add_to_allowed_users self name : keeps proj (add_to_allowed_users self name).
Proof. unfold add_to_allowed_users. keeps_steps file_call. Qed.

Lemma keeps_log_credentials self name password :
  keeps proj (_log_credentials self name password).
Proof.
  unfold _log_credentials.
  keeps_steps ltac:(first [ file_call
                          | let w := fresh "w" in
                            intros w; destruct (log_fault w); reflexivity ]).
Qed.
End Unwritten.

Section Moves.
Context {X : Type} (proj : world -> X) (R : X -> X -> Prop).
Hypothesis R_refl : forall x, R x x.

Lemma moves_keeps {A} (m : M A) : keeps proj m -> moves proj R m.
Proof. intros H w. rewrite H. apply R_refl. Qed.

Lemma moves_bind_l {A B} (m : M A) (k : A -> M B) :
  keeps proj m -> (forall a, moves proj R (k a)) -> moves proj R (bind m k).
Proof.
  intros Hm Hk w. unfold bind. specialize (Hm w).
  destruct (m w) as [[a|e] w1]; simpl in *.
  - rewrite <- Hm. apply Hk.
  - rewrite Hm. apply R_refl.
Qed.

Lemma moves_bind_r {A B} (m : M A) (k : A -> M B) :
  moves proj R m -> (forall a, keeps proj (k a)) -> moves proj R (bind m k).
Proof.
  intros Hm Hk w. unfold bind. specialize (Hm w).
  destruct (m w) as [[a|e] w1]; simpl in *; [|exact Hm].
  now rewrite Hk.
Qed.

Lemma moves_try {A} (m : M A) h :
  moves proj R m -> (forall e k, h e = Some k -> keeps proj k) -> moves proj R (try_ m h).
Proof.
  intros Hm Hh w. unfold try_. specialize (Hm w).
  destruct (m w) as [[a|e] w1]; simpl in *; [exact Hm|].
  destruct (h e) as [k|] eqn:He; [|exact Hm].
  now rewrite (Hh e k He).
Qed.

Lemma moves_if {A} (b : bool) (m1 m2 : M A) :
  moves proj R m1 -> moves proj R m2 -> moves proj R (if b then m1 else m2).
Proof. now destruct b. Qed.
End Moves.

(* ===================================================================== *)
(** * The allow-list                                                      *)
(* ===================================================================== *)

Lemma adds_line_refl username text : adds_line username text text.
Proof. now left. Qed.

Lemma append_empty_r s : String.append s EmptyString = s.
Proof.
  induction s as [|c s IH]; [reflexivity|].
  change (String c (String.append s EmptyString) = String c s). now rewrite IH.
Qed.

Lemma add_to_allowed_users_listing self username userlist_file :
  as_path (dict_get (ftp_config self) "allowed_users_file" (VStr "/etc/vsftpd.userlist"))
  = Some userlist_file ->
  moves (listing userlist_file) (adds_line username) (add_to_allowed_users self username).
Proof.
  intros Hp w. unfold add_to_allowed_users. rewrite (Path_as_path _ _ Hp).
  unfold listing, adds_line, bind, ret, exists_, write_text, chmod_file, read_text,
    append_text, print.
  destruct (files w !! userlist_file) as [f|] eqn:Hf; simpl.
  - rewrite Hf. simpl.
    destruct (str_in username (map strip (readlines (content f)))) eqn:Hin; simpl.
    + rewrite Hf. now left.
    + rewrite Hf. simpl. rewrite lookup_insert_eq. simpl. now right.
  - rewrite Hf, !lookup_insert_eq. simpl. rewrite !lookup_insert_eq. simpl.
    rewrite !lookup_insert_eq. simpl. now right.
Qed.

Lemma add_to_allowed_users_elsewhere self username userlist_file path :
  as_path (dict_get (ftp_config self) "allowed_users_file" (VStr "/etc/vsftpd.userlist"))
  = Some userlist_file ->
  path <> userlist_file ->
  keeps (file_at path) (add_to_allowed_users self username).
Proof.
  intros Hp Hne w. unfold add_to_allowed_users. rewrite (Path_as_path _ _ Hp).
  unfold file_at, bind, ret, exists_, write_text, chmod_file, read_text,
    append_text, print.
  destruct (files w !! userlist_file) as [f|] eqn:Hf; simpl.
  - rewrite Hf. simpl.
    destruct (str_in username (map strip (readlines (content f)))) eqn:Hin; simpl.
    + reflexivity.
    + rewrite Hf. simpl. now rewrite lookup_insert_ne.
  - rewrite Hf, !lookup_insert_eq. simpl. rewrite !lookup_insert_eq. simpl.
    rewrite !lookup_insert_eq. simpl.
    now rewrite !lookup_insert_ne by congruence.
Qed.

Ltac untouched := try (intros; reflexivity).

Lemma keeps_result {A X} (proj : world -> X) (m : M A) w r w1 :
  keeps proj m -> m w = (r, w1) -> proj w1 = proj w.
Proof. intros Hk H. specialize (Hk w). now rewrite H in Hk. Qed.

Lemma user_exists_Ret_inv name w present w1 :
  user_exists name w = (Ret present, w1) ->
  files w1 = files w /\ printed w1 = printed w /\ clock w1 = clock w
  /\ log_fault w1 = log_fault w /\ umask_mode w1 = umask_mode w.
Proof.
  intros H.
  pose proof (keeps_user_exists files ltac:(untouched) ltac:(untouched) name w) as H1.
  pose proof (keeps_user_exists printed ltac:(untouched) ltac:(untouched) name w) as H2.
  pose proof (keeps_user_exists clock ltac:(untouched) ltac:(untouched) name w) as H3.
  pose proof (keeps_user_exists log_fault ltac:(untouched) ltac:(untouched) name w) as H4.
  pose proof (keeps_user_exists umask_mode ltac:(untouched) ltac:(untouched) name w) as H5.
  rewrite H in H1, H2, H3, H4, H5. auto.
Qed.

Lemma try_Ret_inv {A} (m : M A) h w a w' :
  try_ m h w = (Ret a, w') ->
  m w = (Ret a, w')
  \/ exists e w1 k, m w = (Raise e, w1) /\ h e = Some k /\ k w1 = (Ret a, w').
Proof.
  unfold try_. destruct (m w) as [[a1|e] w1]; [now left|].
  destruct (h e) as [k|] eqn:He; [|discriminate].
  intros H. right. now exists e, w1, k.
Qed.

(** C4.  For every content of the allow-list and every username: when
    [delete_user] succeeds, the file holds exactly the lines it held, in
    their order and unchanged, without those whose stripped text is the
    username; its permissions stay, and no other file is touched. *)
Theorem delete_user_removes_line (self : FTPUserManager.t) (username : string)
    (remove_home : bool) (w : world) (userlist_file : string) (f : file) :
  as_path (dict_get (ftp_config self) "allowed_users_file" (VStr "/etc/vsftpd.userlist"))
  = Some userlist_file ->
  files w !! userlist_file = Some f ->
  outcome (delete_user self username remove_home) w = Ret true ->
  let w' := after (delete_user self username remove_home) w in
  exists f', files w' !! userlist_file = Some f'
    /\ readlines (content f') = List.filter (kept username) (readlines (content f))
    /\ content f' = concat_str (List.filter (kept username) (readlines (content f)))
    /\ mode f' = mode f
    /\ forall path, path <> userlist_file -> files w' !! path = files w !! path.
Proof.
  intros Hp Hf Hout w'. subst w'. unfold outcome, after in *.
  destruct (delete_user self username remove_home w) as [r w'] eqn:H.
  simpl in Hout. subst r. simpl.
  unfold delete_user in H.
  apply bind_Ret_inv in H as (present & w1 & Hue & H).
  apply user_exists_Ret_inv in Hue as (F1 & _).
  destruct present; simpl in H; [|discriminate].
  apply bind_Ret_inv in H as ([] & w2 & Hpr & H).
  unfold print in Hpr. inversion Hpr; subst w2; clear Hpr.
  apply try_Ret_inv in H as [H | (e & w3 & k & _ & Hh & Hk)].
  2:{ destruct e; try discriminate. inversion Hh; subst k.
      apply bind_Ret_inv in Hk as ([] & w4 & _ & Hk). discriminate. }
  apply bind_Ret_inv in H as ([] & w3 & Hrun & H).
  pose proof (keeps_result files _ _ _ _
                (keeps_run_checked files ltac:(untouched) ltac:(untouched) _) Hrun) as F3.
  cbn [files set_printed] in F3.
  apply bind_Ret_inv in H as ([] & w4 & Hpr & H).
  unfold print in Hpr. inversion Hpr; subst w4; clear Hpr.
  rewrite (Path_as_path _ _ Hp) in H.
  apply bind_Ret_inv in H as (p & w5 & Hpath & H). inversion Hpath; subst p w5; clear Hpath.
  apply bind_Ret_inv in H as (listed & w5 & Hex & H).
  unfold exists_ in Hex. inversion Hex; subst listed w5; clear Hex.
  cbn [files set_printed] in H. rewrite F3, F1, Hf in H.
  rewrite bool_decide_eq_true_2 in H by eauto.
  apply bind_Ret_inv in H as ([] & w5 & Hwr & H).
  apply bind_Ret_inv in Hwr as (text & w6 & Hrd & Hwr).
  unfold read_text in Hrd. cbn [files set_printed] in Hrd. rewrite F3, F1, Hf in Hrd.
  inversion Hrd; subst text w6; clear Hrd.
  apply bind_Ret_inv in Hwr as ([] & w6 & Hwr & Hpr).
  unfold write_text in Hwr. cbn [files set_printed] in Hwr. rewrite F3, F1, Hf in Hwr.
  inversion Hwr; subst w6; clear Hwr.
  unfold print in Hpr. inversion Hpr; subst w5; clear Hpr.
  apply bind_Ret_inv in H as ([] & w5 & Hpr & H).
  unfold print in Hpr. inversion Hpr; subst w5; clear Hpr.
  inversion H; subst w'; clear H. cbn [files set_printed set_files].
  eexists. split; [apply lookup_insert_eq|]. cbn [content mode].
  split; [apply readlines_filter|]. repeat split.
  intros path Hne. now rewrite lookup_insert_ne by congruence.
Qed.

Lemma delete_user_removes_line_witness :
  exists f', files (after (delete_user (of_config ∅) "bob" true) three_users)
               !! "/etc/vsftpd.userlist" = Some f'
             /\ readlines (content f') = [line "alice"; line "carol"].
Proof.
  destruct (delete_user_removes_line (of_config ∅) "bob" true three_users
              "/etc/vsftpd.userlist"
              (File (concat_str [line "alice"; line "bob"; line "carol"]) mode_0644))
    as (f' & Hf & Hlines & _).
  - reflexivity.
  - reflexivity.
  - vm_compute. reflexivity.
  - exists f'. split; [exact Hf|]. rewrite Hlines. vm_compute. reflexivity.
Defined.

(** Name characters are not white space. *)
Lemma name_character_not_space c : name_character c -> isspace c = false.
Proof.
  intros H. apply name_character_bool in H. revert H.
  destruct c as [[] [] [] [] [] [] [] []]; vm_compute; congruence.
Qed.

Lemma isspace_newline : isspace newline = true.
Proof. reflexivity. Qed.

Lemma lstrip_no_space cs :
  Forall (fun c => isspace c = false) cs -> lstrip cs = cs.
Proof. destruct 1 as [|c cs Hc _]; simpl; [reflexivity | now rewrite Hc]. Qed.

Lemma strip_line name :
  Forall (fun c => isspace c = false) (chars name) ->
  strip (String.append name (String newline EmptyString)) = name.
Proof.
  intros H. unfold strip, rstrip. rewrite chars_append. simpl.
  assert (Hl : lstrip (chars name ++ [newline]) = lstrip (chars name) ++ [newline]
               \/ chars name = []).
  { destruct (chars name) as [|c cs] eqn:Hcs; [now right|]. left.
    inversion H as [|? ? Hc Hrest]; subst. simpl. now rewrite Hc. }
  destruct Hl as [Hl|Hnil].
  - rewrite Hl, (lstrip_no_space (chars name)) by exact H.
    rewrite rev_app_distr. simpl.
    rewrite (lstrip_no_space (rev (chars name))).
    + rewrite rev_involutive. apply join_chars.
    + apply List.Forall_rev. exact H.
  - rewrite Hnil. simpl. rewrite <- (join_chars name), Hnil. reflexivity.
Qed.

Lemma acceptable_chars username :
  acceptable username ->
  Forall (fun c => isspace c = false) (chars username) /\ ~ In newline (chars username).
Proof.
  intros [_ _ _ Hall _].
  assert (Hs : Forall (fun c => isspace c = false) (chars username)).
  { eapply List.Forall_impl; [|exact Hall]. apply name_character_not_space. }
  split; [exact Hs|].
  intros Hin. rewrite List.Forall_forall in Hs. apply Hs in Hin.
  rewrite isspace_newline in Hin. discriminate.
Qed.

Lemma occurrences_not_listed username text :
  str_in username (map strip (readlines text)) = false -> occurrences username text = 0%nat.
Proof.
  unfold occurrences, str_in. induction (readlines text) as [|l ls IH]; simpl; [reflexivity|].
  intros H. apply orb_false_iff in H as [Hl Hls].
  rewrite String.eqb_sym, Hl. now apply IH.
Qed.

(** Listing an acceptable name that is not listed yet, in a text whose
    lines are all closed, adds one occurrence of that name and of no
    other. *)
Lemma occurrences_append_line username text v :
  acceptable username -> newline_terminated text = true ->
  occurrences v (String.append text (String.append username (String newline EmptyString)))
  = (occurrences v text + if String.eqb username v then 1 else 0)%nat.
Proof.
  intros Hacc Hc. destruct (acceptable_chars username Hacc) as [Hs Hnl].
  unfold occurrences. rewrite readlines_append_line by assumption.
  rewrite List.filter_app, length_app. simpl. rewrite strip_line by exact Hs.
  destruct (String.eqb username v); reflexivity.
Qed.

Lemma adds_line_invariant username old new :
  acceptable username -> adds_line username old new ->
  newline_terminated old = true ->
  newline_terminated new = true
  /\ forall v, (occurrences v old <= 1 -> occurrences v new <= 1)%nat.
Proof.
  intros Hacc [->|[Hin ->]] Hc; [auto|].
  destruct (acceptable_chars username Hacc) as [Hs Hnl].
  split; [now apply newline_terminated_append_line|].
  intros v Hv. rewrite occurrences_append_line by assumption.
  destruct (String.eqb_spec username v) as [<-|Hne]; [|lia].
  rewrite occurrences_not_listed by exact Hin. lia.
Qed.

(** The credential log, when it is another file, leaves a file alone. *)
Lemma log_credentials_elsewhere self username password path :
  as_path (dict_get (logging_config self) "credentials_file" (VStr "/root/.ftp_credentials.csv"))
  <> Some path ->
  keeps (file_at path) (_log_credentials self username password).
Proof.
  intros Hne w. unfold _log_credentials.
  destruct (negb (truthy (dict_get (logging_config self) "enabled" (VBool true))));
    [reflexivity|].
  unfold Path.
  destruct (as_path (dict_get (logging_config self) "credentials_file"
                              (VStr "/root/.ftp_credentials.csv"))) as [credentials_file|];
    [|reflexivity].
  assert (Hp : credentials_file <> path) by congruence.
  unfold file_at, bind, ret, syscall_, exists_, try_, append_text, strftime_now,
    chmod_file, print.
  destruct (dir_fault w) as [[|k]|]; simpl; try reflexivity.
  - destruct (log_fault w); simpl; [reflexivity|].
    destruct (files w !! credentials_file) as [f|] eqn:Hf; simpl;
      rewrite ?Hf; simpl; rewrite ?lookup_insert_eq; simpl;
      rewrite ?lookup_insert_eq; simpl; rewrite ?lookup_insert_ne by exact Hp;
      reflexivity.
  - destruct (log_fault w); simpl; [reflexivity|].
    destruct (files w !! credentials_file) as [f|] eqn:Hf; simpl;
      rewrite ?Hf; simpl; rewrite ?lookup_insert_eq; simpl;
      rewrite ?lookup_insert_eq; simpl; rewrite ?lookup_insert_ne by exact Hp;
      reflexivity.
Qed.

Lemma keeps_listing {A} path (m : M A) : keeps (file_at path) m -> keeps (listing path) m.
Proof. intros H w. unfold listing. specialize (H w). unfold file_at in H. now rewrite H. Qed.

Ltac quiet :=
  first [ apply keeps_print | apply keeps_user_exists | apply keeps_generate; apply keeps_draw
        | apply keeps_Path | apply keeps_create_account | apply keeps_create_directories
        | apply keeps_error_output | apply keeps_cleanup | apply keeps_run_checked | apply keeps_chpasswd
        | apply keeps_exists | apply keeps_read_text | apply keeps_subprocess_run ];
  untouched.

(** [create_user] changes the allow-list, if at all, by listing the name. *)
Lemma create_user_listing self username password userlist_file :
  as_path (dict_get (ftp_config self) "allowed_users_file" (VStr "/etc/vsftpd.userlist"))
  = Some userlist_file ->
  as_path (dict_get (logging_config self) "credentials_file" (VStr "/root/.ftp_credentials.csv"))
  <> Some userlist_file ->
  moves (listing userlist_file) (adds_line username) (create_user self username password).
Proof.
  intros Hp Hlog. unfold create_user.
  destruct (validate_username username) as [valid message].
  destruct valid; cbn [negb].
  2:{ apply moves_keeps; [apply adds_line_refl|]. keeps_steps quiet. }
  apply moves_bind_l; [apply adds_line_refl | quiet |]. intros present.
  destruct present.
  { apply moves_keeps; [apply adds_line_refl|]. keeps_steps quiet. }
  apply moves_bind_l; [apply adds_line_refl | destruct password; [apply keeps_ret | quiet] |].
  intros pw.
  apply moves_bind_l; [apply adds_line_refl | quiet |]. intros ftp_root.
  apply moves_try.
  - unfold create_user_body.
    apply moves_bind_l; [apply adds_line_refl | quiet |]. intros _.
    apply moves_bind_l; [apply adds_line_refl | quiet |]. intros _.
    apply moves_bind_r; [now apply add_to_allowed_users_listing|]. intros _.
    apply keeps_bind; [apply keeps_listing; now apply log_credentials_elsewhere|].
    intros _. keeps_steps quiet.
  - intros e k H. destruct e; simpl in H; inversion H; subst; clear H; keeps_steps quiet.
Qed.

Lemma delete_user_listing self username remove_home userlist_file w r w' :
  as_path (dict_get (ftp_config self) "allowed_users_file" (VStr "/etc/vsftpd.userlist"))
  = Some userlist_file ->
  delete_user self username remove_home w = (r, w') ->
  listing userlist_file w' = listing userlist_file w
  \/ listing userlist_file w'
     = concat_str (List.filter (kept username) (readlines (listing userlist_file w))).
Proof.
  intros Hp H. unfold delete_user in H.
  assert (Hk : forall {A} (m : M A), keeps files m ->
               forall w r w1, m w = (r, w1) -> listing userlist_file w1 = listing userlist_file w).
  { intros A m Hm w0 r0 w1 H0. unfold listing.
    now rewrite (keeps_result files m w0 r0 w1 Hm H0). }
  unfold bind at 1 in H.
  destruct (user_exists username w) as [[present|e] w1] eqn:Hue;
    pose proof (Hk _ (user_exists username) ltac:(quiet) _ _ _ Hue) as L1;
    [|inversion H; subst; now left].
  destruct present; cbn [negb] in H;
    [|unfold bind, print, ret in H; inversion H; subst; now left].
  unfold bind at 1 in H. unfold print at 1 in H. cbn beta iota in H.
  unfold try_ in H. unfold bind at 1 in H.
  match type of H with context [run_checked ?c ?x] =>
    destruct (run_checked c x) as [[[]|e] w2] eqn:Hrun;
    pose proof (Hk _ (run_checked c) ltac:(quiet) _ _ _ Hrun) as L2
  end.
  2:{ destruct e; unfold bind, print, ret in H; inversion H; subst; left;
      cbn [listing files set_printed] in *; unfold listing in *;
      cbn [files set_printed] in *; congruence. }
  unfold bind at 1 in H. unfold print at 1 in H. cbn beta iota in H.
  rewrite (Path_as_path _ _ Hp) in H. unfold bind at 1, ret at 1 in H. cbn beta iota in H.
  unfold bind at 1, exists_ at 1 in H. cbn beta iota in H. cbn [files set_printed] in H.
  assert (L : listing userlist_file w2 = listing userlist_file w).
  { rewrite L2, <- L1. reflexivity. }
  unfold listing at 1 in L.
  destruct (files w2 !! userlist_file) as [f2|] eqn:Hf2.
  - rewrite bool_decide_eq_true_2 in H by eauto.
    unfold bind, read_text, write_text, print, ret in H. cbn [files set_printed] in H.
    rewrite Hf2 in H. inversion H; subst r w'. right.
    unfold listing at 1. cbn [files set_printed set_files].
    rewrite lookup_insert_eq, Hf2. cbn [content]. now rewrite L.
  - rewrite bool_decide_eq_false_2 in H by (intros [? ?]; congruence).
    unfold bind, print, ret in H. inversion H; subst r w'. left.
    rewrite <- L. unfold listing. cbn [files set_printed]. now rewrite Hf2.
Qed.

Lemma occurrences_filter username v text :
  (occurrences v (concat_str (List.filter (kept username) (readlines text)))
   <= occurrences v text)%nat.
Proof.
  unfold occurrences. rewrite readlines_filter.
  induction (readlines text) as [|l ls IH]; simpl; [lia|].
  destruct (kept username l); simpl; destruct (String.eqb (strip l) v); simpl; lia.
Qed.

(** The allow-list under [create_user] and [delete_user], where its
    settings name it and the credential log is another file.
    [create_user] changes its text, if at all, by appending the username
    and a line feed, and only when no stripped line of the file equals the
    username.  If every line of the allow-list is closed by a line feed
    (as every line these operations write is), [create_user] and
    [delete_user] keep every line closed, and a name that occurred at
    most once occurs at most once afterwards. *)
Theorem allow_list_invariant (self : FTPUserManager.t) (username : string)
    (password : option string) (remove_home : bool) (userlist_file : string) (w : world) :
  as_path (dict_get (ftp_config self) "allowed_users_file" (VStr "/etc/vsftpd.userlist"))
  = Some userlist_file ->
  as_path (dict_get (logging_config self) "credentials_file" (VStr "/root/.ftp_credentials.csv"))
  <> Some userlist_file ->
  adds_line username (listing userlist_file w)
            (listing userlist_file (after (create_user self username password) w))
  /\ (newline_terminated (listing userlist_file w) = true ->
      forall w', w' = after (create_user self username password) w
                 \/ w' = after (delete_user self username remove_home) w ->
        newline_terminated (listing userlist_file w') = true
        /\ forall v, (occurrences v (listing userlist_file w) <= 1 ->
                      occurrences v (listing userlist_file w') <= 1)%nat).
Proof.
  intros Hp Hlog.
  split; [apply (create_user_listing self username password userlist_file Hp Hlog w)|].
  intros Hc w' [-> | ->].
  - destruct (validate_username username) as [valid message] eqn:Hv.
    destruct valid.
    + assert (Hacc : acceptable username).
      { apply validate_username_acceptable. apply validate_username_true. now rewrite Hv. }
      apply (adds_line_invariant username); [exact Hacc | | exact Hc].
      apply (create_user_listing self username password userlist_file Hp Hlog w).
    + unfold after, create_user. rewrite Hv. simpl. auto.
  - unfold after.
    destruct (delete_user self username remove_home w) as [r w'] eqn:H. simpl.
    destruct (delete_user_listing _ _ _ _ _ _ _ Hp H) as [-> | ->]; [auto|].
    split; [now apply newline_terminated_filter|].
    intros v Hv. pose proof (occurrences_filter username v (listing userlist_file w)). lia.
Qed.

Lemma allow_list_invariant_witness :
  (occurrences "dave"
     (listing "/etc/vsftpd.userlist"
        (after (create_user (of_config ∅) "dave" (Some "s3cret")) three_users)) <= 1)%nat.
Proof.
  destruct (allow_list_invariant (of_config ∅) "dave" (Some "s3cret") true
              "/etc/vsftpd.userlist" three_users) as [_ H].
  - reflexivity.
  - discriminate.
  - destruct (H eq_refl _ (or_introl eq_refl)) as [_ Hocc].
    apply Hocc. vm_compute. lia.
Defined.

(** C9.  The allow-list lists [alicebob] and [alice], each once, the
    last line without its line feed.  [create_user('bob', 's3cret')] finds
    no line equal to [bob], appends [bob] and a line feed right after
    [alice], prints that the user was added to the allowed users list,
    and succeeds: the file now holds the line [alicebob] twice, and no
    line [bob]. *)
Lemma create_user_glues_unterminated_line :
  let m := create_user (of_config ∅) "bob" (Some "s3cret") in
  let before := listing "/etc/vsftpd.userlist" unterminated_list in
  let after_ := listing "/etc/vsftpd.userlist" (after m unterminated_list) in
  before = String.append (line "alicebob") "alice"
  /\ (forall v, occurrences v before <= 1)%nat
  /\ outcome m unterminated_list = Ret (true, "bob", "s3cret")
  /\ In AddedToAllowedUsers (printed_by m unterminated_list)
  /\ after_ = concat_str [line "alicebob"; line "alicebob"]
  /\ occurrences "alicebob" after_ = 2%nat
  /\ occurrences "bob" after_ = 0%nat.
Proof.
  split; [reflexivity|]. split.
  - intros v. unfold occurrences.
    change (readlines (listing "/etc/vsftpd.userlist" unterminated_list))
      with [line "alicebob"; "alice"].
    cbn [List.filter].
    change (strip (line "alicebob")) with "alicebob". change (strip "alice") with "alice".
    destruct (String.eqb_spec "alicebob" v) as [<-|_];
      [|destruct (String.eqb "alice" v)]; simpl; lia.
  - vm_compute. repeat split. tauto.
Qed.

(* ===================================================================== *)
(** * The credential log                                                  *)
(* ===================================================================== *)

Lemma log_credentials_Ret_inv self username password credentials_file w w' :
  truthy (dict_get (logging_config self) "enabled" (VBool true)) = true ->
  as_path (dict_get (logging_config self) "credentials_file" (VStr "/root/.ftp_credentials.csv"))
  = Some credentials_file ->
  log_fault w = None ->
  _log_credentials self username password w = (Ret tt, w') ->
  files w' !! credentials_file
  = Some (with_row (files w !! credentials_file) (data_row self (clock w) username password)).
Proof.
  intros Hen Hp Hlf H. unfold _log_credentials in H.
  rewrite Hen, (Path_as_path _ _ Hp) in H.
  cbn [negb] in H.
  unfold bind, Path, ret, syscall_, exists_, try_, append_text, strftime_now,
    chmod_file, print in H.
  destruct (dir_fault w) as [[|k]|]; cbn [fst snd files log_fault set_dir_fault set_syscalls
    set_files set_printed clock umask_mode] in H; try discriminate;
    rewrite Hlf in H;
    (destruct (files w !! credentials_file) as [f|] eqn:Hf;
     [ rewrite bool_decide_eq_true_2 in H by eauto
     | rewrite bool_decide_eq_false_2 in H by (intros [? ?]; congruence) ]);
    cbn [fst snd files log_fault set_dir_fault set_syscalls set_files set_printed clock
         umask_mode] in H;
    rewrite ?Hf, ?lookup_insert_eq in H;
    cbn [fst snd files log_fault set_dir_fault set_syscalls set_files set_printed clock
         umask_mode content mode] in H;
    rewrite ?lookup_insert_eq in H;
    cbn [fst snd files log_fault set_dir_fault set_syscalls set_files set_printed clock
         umask_mode content mode] in H;
    rewrite ?lookup_insert_eq in H;
    inversion H; subst w'; cbn [files set_printed set_files];
    rewrite lookup_insert_eq; reflexivity.
Qed.

Lemma add_to_allowed_users_log_view self username path :
  as_path (dict_get (ftp_config self) "allowed_users_file" (VStr "/etc/vsftpd.userlist"))
  <> Some path ->
  keeps (log_view path) (add_to_allowed_users self username).
Proof.
  intros Hne w. unfold add_to_allowed_users, Path.
  destruct (as_path (dict_get (ftp_config self) "allowed_users_file"
                              (VStr "/etc/vsftpd.userlist")))
    as [userlist_file|]; [|reflexivity].
  assert (Hp : userlist_file <> path) by congruence.
  unfold log_view, bind, ret, exists_, write_text, chmod_file, read_text,
    append_text, print.
  destruct (files w !! userlist_file) as [f|] eqn:Hf; simpl.
  - rewrite Hf. simpl.
    destruct (str_in username (map strip (readlines (content f)))) eqn:Hin; simpl.
    + reflexivity.
    + rewrite Hf. simpl. now rewrite lookup_insert_ne.
  - rewrite Hf, !lookup_insert_eq. simpl. rewrite !lookup_insert_eq. simpl.
    rewrite !lookup_insert_eq. simpl.
    now rewrite !lookup_insert_ne by congruence.
Qed.

Tactic Notation "step" hyp(H) "as" simple_intropattern(a) ident(w) ident(Ha) :=
  apply bind_Ret_inv in H as (a & w & Ha & H).

(** What a quiet step leaves of the log's view. *)
Ltac view path Ha V :=
  match type of Ha with
  | ?m ?w = _ => pose proof (keeps_result (log_view path) m _ _ _ ltac:(quiet) Ha) as V
  end.

Lemma password_choice_view {X} (proj : world -> X) self (password : option string) w pw w1 :
  (forall rs w, proj (set_entropy rs w) = proj w) ->
  match password with
  | Some p => ret p
  | None => PasswordGenerator.generate (password_generator self)
  end w = (Ret pw, w1) ->
  proj w1 = proj w.
Proof.
  intros Hproj H. destruct password as [p|].
  - unfold ret in H. now inversion H.
  - refine (keeps_result proj _ _ _ _ _ H).
    apply keeps_generate, keeps_draw. exact Hproj.
Qed.

Lemma create_user_logs self username password credentials_file w u p w' :
  truthy (dict_get (logging_config self) "enabled" (VBool true)) = true ->
  as_path (dict_get (logging_config self) "credentials_file" (VStr "/root/.ftp_credentials.csv"))
  = Some credentials_file ->
  as_path (dict_get (ftp_config self) "allowed_users_file" (VStr "/etc/vsftpd.userlist"))
  <> Some credentials_file ->
  log_fault w = None ->
  create_user self username password w = (Ret (true, u, p), w') ->
  u = username
  /\ files w' !! credentials_file
     = Some (with_row (files w !! credentials_file) (data_row self (clock w) username p)).
Proof.
  intros Hen Hp Hne Hlf H. unfold create_user in H.
  destruct (validate_username username) as [valid message].
  destruct valid; cbn [negb] in H;
    [|unfold bind, print, ret in H; discriminate].
  step H as present w1 Hue. view credentials_file Hue V1.
  destruct present; [unfold bind, print, ret in H; discriminate|].
  step H as pw w2 Hpw.
  pose proof (password_choice_view (log_view credentials_file) _ _ _ _ _
                ltac:(untouched) Hpw) as V2.
  step H as ftp_root w3 Hroot. view credentials_file Hroot V3.
  apply try_Ret_inv in H as [H | (e & w4 & k & _ & Hh & Hk)].
  2:{ destruct e; simpl in Hh; inversion Hh; subst k; clear Hh.
      all: try (unfold bind, print, ret in Hk; discriminate).
      step Hk as [] w5 Hk1. step Hk as text w6 Hk2. step Hk as [] w7 Hk3.
      step Hk as [] w8 Hk4.
      unfold ret in Hk. discriminate. }
  unfold create_user_body in H.
  step H as [] w4 Hacc. view credentials_file Hacc V4.
  step H as [] w5 Hdir. view credentials_file Hdir V5.
  step H as [] w6 Hadd.
  pose proof (keeps_result (log_view credentials_file) _ _ _ _
                (add_to_allowed_users_log_view self username credentials_file Hne) Hadd)
    as V6.
  step H as [] w7 Hlog. step H as [] w8 Hpr.
  unfold ret in H. inversion H; subst u p w'; clear H.
  split; [reflexivity|].
  assert (V : log_view credentials_file w6 = log_view credentials_file w) by congruence.
  unfold log_view in V. inversion V as [[Vf Vl Vc]].
  pose proof (log_credentials_Ret_inv self username pw credentials_file w6 w7 Hen Hp
                ltac:(congruence) Hlog) as L.
  unfold print in Hpr. inversion Hpr; subst w8. cbn [files set_printed].
  rewrite L, Vf, Vc. reflexivity.
Qed.

Lemma change_password_logs self username new_password credentials_file w p w' :
  truthy (dict_get (logging_config self) "enabled" (VBool true)) = true ->
  as_path (dict_get (logging_config self) "credentials_file" (VStr "/root/.ftp_credentials.csv"))
  = Some credentials_file ->
  log_fault w = None ->
  change_password self username new_password w = (Ret (true, p), w') ->
  files w' !! credentials_file
  = Some (with_row (files w !! credentials_file) (data_row self (clock w) username p)).
Proof.
  intros Hen Hp Hlf H. unfold change_password in H.
  step H as present w1 Hue. view credentials_file Hue V1.
  destruct present; cbn [negb] in H; [|unfold bind, print, ret in H; discriminate].
  step H as pw w2 Hpw.
  pose proof (password_choice_view (log_view credentials_file) _ _ _ _ _
                ltac:(untouched) Hpw) as V2.
  step H as [] w3 Hpr. view credentials_file Hpr V3.
  apply try_Ret_inv in H as [H | (e & w4 & k & _ & Hh & Hk)].
  2:{ destruct e; simpl in Hh; inversion Hh; subst k; clear Hh.
      unfold bind, print, ret in Hk. discriminate. }
  step H as [] w4 Hch. view credentials_file Hch V4.
  step H as [] w5 Hpr2. view credentials_file Hpr2 V5.
  step H as [] w6 Hlog.
  unfold ret in H. inversion H; subst p w'; clear H.
  assert (V : log_view credentials_file w5 = log_view credentials_file w) by congruence.
  unfold log_view in V. inversion V as [[Vf Vl Vc]].
  pose proof (log_credentials_Ret_inv self username pw credentials_file w5 w6 Hen Hp
                ltac:(congruence) Hlog) as L.
  rewrite L, Vf, Vc. reflexivity.
Qed.

(** C3 (as amended).  With logging enabled (the default), a credential log
    that can be opened, and -- for [create_user] -- an allow-list that is
    another file: every [create_user] and every [change_password] that
    returns success leaves the credential log holding what it held,
    followed by one data row (timestamp, username, password, home
    directory, files directory), behind a header row when the file did not
    exist, and with permissions 0600. *)
Theorem credential_operation_logs (self : FTPUserManager.t) (username : string)
    (credentials_file : string) (w : world) :
  truthy (dict_get (logging_config self) "enabled" (VBool true)) = true ->
  as_path (dict_get (logging_config self) "credentials_file" (VStr "/root/.ftp_credentials.csv"))
  = Some credentials_file ->
  log_fault w = None ->
  (forall password u p w',
      as_path (dict_get (ftp_config self) "allowed_users_file" (VStr "/etc/vsftpd.userlist"))
      <> Some credentials_file ->
      create_user self username password w = (Ret (true, u, p), w') ->
      files w' !! credentials_file
      = Some (with_row (files w !! credentials_file)
                       (data_row self (clock w) username p)))
  /\ (forall new_password p w',
         change_password self username new_password w = (Ret (true, p), w') ->
         files w' !! credentials_file
         = Some (with_row (files w !! credentials_file)
                          (data_row self (clock w) username p))).
Proof.
  intros Hen Hp Hlf. split.
  - intros password u p w' Hne H.
    now destruct (create_user_logs self username password credentials_file w u p w'
                    Hen Hp Hne Hlf H).
  - intros new_password p w' H.
    now apply (change_password_logs self username new_password credentials_file w p w').
Qed.

Lemma credential_operation_logs_witness :
  files (after (change_password (of_config ∅) "alice" (Some "s3cret")) settled_world)
    !! "/root/.ftp_credentials.csv"
  = Some (File (String.append header_row
                  (writerow ["2024-01-01 00:00:00"; "alice"; "s3cret";
                             "/srv/ftp/alice"; "/srv/ftp/alice/files"]))
               mode_0600).
Proof.
  assert (Hen : truthy (dict_get (logging_config (of_config ∅)) "enabled" (VBool true))
                = true) by reflexivity.
  assert (Hp : as_path (dict_get (logging_config (of_config ∅)) "credentials_file"
                                 (VStr "/root/.ftp_credentials.csv"))
               = Some "/root/.ftp_credentials.csv")
    by reflexivity.
  destruct (credential_operation_logs (of_config ∅) "alice" "/root/.ftp_credentials.csv"
              settled_world Hen Hp eq_refl) as [_ H].
  unfold after.
  destruct (change_password (of_config ∅) "alice" (Some "s3cret") settled_world)
    as [r w'] eqn:Hrun.
  assert (Hr : r = Ret (true, "s3cret")).
  { apply (f_equal fst) in Hrun. simpl in Hrun. rewrite <- Hrun. reflexivity. }
  subst r. cbn [snd]. rewrite (H _ _ _ Hrun). reflexivity.
Defined.

(** C3, as stated, fails: with logging disabled in the settings,
    [change_password] succeeds and no row is written. *)
Lemma credential_log_counterexample :
  let cfg : gmap string (gmap string value) :=
    {[ "logging" := {[ "enabled" := VBool false ]} ]} in
  let m := change_password (of_config cfg) "alice" (Some "s3cret") in
  outcome m settled_world = Ret (true, "s3cret")
  /\ files (after m settled_world) = files settled_world.
Proof. split; reflexivity. Qed.

(* ===================================================================== *)
(** * Failures while creating an account                                  *)
(* ===================================================================== *)

Lemma trace_refl w : trace w w [] [].
Proof. split; now rewrite ?app_nil_r. Qed.

Lemma trace_trans w1 w2 w3 ps ms ps' ms' :
  trace w1 w2 ps ms -> trace w2 w3 ps' ms' -> trace w1 w3 (ps ++ ps') (ms ++ ms').
Proof.
  intros [S1 P1 F1] [S2 P2 F2]. split.
  - now rewrite S2, S1, app_assoc.
  - now rewrite P2, P1, app_assoc.
  - now rewrite F2.
Qed.

Lemma trace_quiet {A} (m : M A) w r w' :
  keeps spawned m -> keeps printed m -> keeps files m ->
  m w = (r, w') -> trace w w' [] [].
Proof.
  intros Ks Kp Kf H. split; rewrite ?app_nil_r.
  - exact (keeps_result spawned m w r w' Ks H).
  - exact (keeps_result printed m w r w' Kp H).
  - exact (keeps_result files m w r w' Kf H).
Qed.

Lemma trace_print msg w : trace w (set_printed (printed w ++ [msg]) w) [] [msg].
Proof. split; now rewrite ?app_nil_r. Qed.

(** One process, as [subprocess.run] without a timeout runs it. *)
Lemma subprocess_run_trace c args input w r w' :
  let cmd := c :: args in
  subprocess_run cmd input None w = (r, w') ->
  (exists rc out err, r = Ret (rc, out, err)
                      /\ trace w w' [Process cmd input (Some rc)] [])
  \/ (exists why, r = Raise (OSError why) /\ trace w w' [] []).
Proof.
  unfold subprocess_run. destruct (next_answer w) as [[rc out err secs|why] rest]; intros H;
    inversion H; subst; clear H.
  - left. exists rc, out, err. split; [reflexivity|]. split; now rewrite ?app_nil_r.
  - right. exists why. split; [reflexivity|]. split; now rewrite ?app_nil_r.
Qed.

(** [user_exists] answers after one [id], or raises when [id] cannot run. *)
Lemma user_exists_trace name w r w' :
  user_exists name w = (r, w') ->
  (exists present rc, r = Ret present
     /\ trace w w' [Process ["id"; name] EmptyString (Some rc)] [])
  \/ (exists why, r = Raise (OSError why) /\ trace w w' [] []).
Proof.
  unfold user_exists, try_, run_checked. unfold bind at 1. unfold bind at 1.
  destruct (subprocess_run ["id"; name] EmptyString None w) as [r0 w0] eqn:Hrun.
  apply subprocess_run_trace in Hrun as [(rc & out & err & -> & T)|(why & -> & T)].
  - simpl. destruct (rc =? 0); simpl; intros H; inversion H; subst; left; eauto.
  - simpl. intros H. inversion H; subst. right. eauto.
Qed.

(** The cleanup prints nothing and returns whatever happens. *)
Lemma cleanup_trace name w r w' :
  cleanup name w = (r, w') ->
  r = Ret tt /\ exists ps, trace w w' ps [] /\ cleanup_processes name ps.
Proof.
  unfold cleanup, try_, cleanup_processes. unfold bind at 1.
  destruct (user_exists name w) as [r0 w1] eqn:Hue.
  apply user_exists_trace in Hue as [(present & rc & -> & T)|(why & -> & T)].
  2:{ simpl. intros H. inversion H; subst. split; [reflexivity|]. eauto. }
  destruct present.
  2:{ simpl. intros H. inversion H; subst. split; [reflexivity|]. eauto 6. }
  unfold bind at 1.
  destruct (subprocess_run ["userdel"; "-r"; name] EmptyString None w1) as [r1 w2] eqn:Hrun.
  apply subprocess_run_trace in Hrun as [(rc2 & out & err & -> & T2)|(why & -> & T2)];
    simpl; intros H; inversion H; subst; (split; [reflexivity|]);
    pose proof (trace_trans _ _ _ _ _ _ _ T T2) as T3; simpl in T3; eauto 8.
Qed.

Lemma arguments_pure vs : forall w r w', arguments vs w = (r, w') -> w' = w.
Proof.
  induction vs as [|v vs IH]; intros w r w' H; simpl in H.
  - now inversion H.
  - destruct v; try (now inversion H).
    unfold bind in H. destruct (arguments vs w) as [[ss|e] w1] eqn:Hvs;
      apply IH in Hvs; inversion H; now subst.
Qed.

Lemma arguments_Raise vs : forall w e w', arguments vs w = (Raise e, w') -> e = TypeError.
Proof.
  induction vs as [|v vs IH]; intros w e w' H; simpl in H.
  - inversion H.
  - destruct v; try (now inversion H).
    unfold bind in H. destruct (arguments vs w) as [[ss|e1] w1] eqn:Hvs.
    + inversion H.
    + apply IH in Hvs. inversion H. now subst.
Qed.

Lemma arguments_head s vs w cmd w' :
  arguments (VStr s :: vs) w = (Ret cmd, w') -> exists rest, cmd = s :: rest.
Proof.
  simpl. unfold bind. destruct (arguments vs w) as [[ss|e] w1]; intros H; inversion H.
  eauto.
Qed.

(** The "Create user" and "Set password" part: either it raises the
    [CalledProcessError] of a failed [useradd], which carries the error
    output of the command, or the one of a failed [chpasswd], which
    carries none, having printed its first message only; or none of its
    processes is a failed account command. *)
Lemma create_account_trace self username password home w r w' :
  create_account self username password home w = (r, w') ->
  (exists rc args err,
      r = Raise (CalledProcessError rc ("useradd" :: args) (Some err))
      /\ rc <> 0
      /\ trace w w' [Process ("useradd" :: args) EmptyString (Some rc)]
                    [CreatingUser username])
  \/ (exists rc ps, r = Raise (CalledProcessError rc ["chpasswd"] None)
                    /\ trace w w' ps [CreatingUser username]
                    /\ exists args st input st',
                         ps = [Process ("useradd" :: args) EmptyString st;
                               Process ["chpasswd"] input st'])
  \/ ((forall rc cmd stderr, r <> Raise (CalledProcessError rc cmd stderr))
      /\ exists ps, spawned w' = spawned w ++ ps /\ existsb account_failure ps = false).
Proof.
  unfold create_account. unfold bind at 1. unfold print at 1. cbn beta iota.
  set (w0 := set_printed (printed w ++ [CreatingUser username]) w).
  assert (T0 : trace w w0 [] [CreatingUser username]) by apply trace_print.
  unfold bind at 1.
  match goal with |- context [arguments ?vs w0] =>
    destruct (arguments vs w0) as [[cmd|e] w1] eqn:Hargs;
    pose proof (arguments_pure _ _ _ _ Hargs); subst w1
  end.
  2:{ intros H. inversion H; subst. right. right.
      apply arguments_Raise in Hargs as ->. split; [discriminate|].
      exists []. rewrite app_nil_r. split; reflexivity. }
  apply arguments_head in Hargs as [args ->].
  unfold run_checked. unfold bind at 1. unfold bind at 1.
  destruct (subprocess_run ("useradd" :: args) EmptyString None w0) as [r1 w1] eqn:Hrun.
  apply subprocess_run_trace in Hrun as [(rc & out & err & -> & T1)|(why & -> & T1)].
  2:{ intros H. inversion H; subst. right. right. split; [discriminate|].
      exists []. destruct (trace_trans _ _ _ _ _ _ _ T0 T1) as [S _ _].
      split; [exact S | reflexivity]. }
  cbn [fst snd].
  destruct (rc =? 0) eqn:Hrc; cbn beta iota.
  2:{ unfold raise. intros H. inversion H; subst. left.
      exists rc, args, err.
      split; [reflexivity|]. split; [now apply Z.eqb_neq|].
      exact (trace_trans _ _ _ _ _ _ _ T0 T1). }
  unfold ret at 1. cbn beta iota.
  unfold bind at 1. unfold chpasswd. unfold bind at 1.
  match goal with |- context [subprocess_run ["chpasswd"] ?i None w1] =>
    destruct (subprocess_run ["chpasswd"] i None w1) as [r2 w2] eqn:Hrun2
  end.
  apply subprocess_run_trace in Hrun2 as [(rc2 & out2 & err2 & -> & T2)|(why & -> & T2)].
  2:{ intros H. inversion H; subst. right. right. split; [discriminate|].
      destruct (trace_trans _ _ _ _ _ _ _ (trace_trans _ _ _ _ _ _ _ T0 T1) T2) as [S _ _].
      eexists. split; [exact S|]. simpl. unfold account_failure, failed. simpl.
      now rewrite Hrc. }
  cbn [fst snd].
  destruct (rc2 =? 0) eqn:Hrc2; cbn [negb].
  - unfold ret, print. intros H. inversion H; subst. right. right. split; [discriminate|].
    destruct (trace_trans _ _ _ _ _ _ _ (trace_trans _ _ _ _ _ _ _ T0 T1) T2) as [S _ _].
    eexists. split; [cbn [spawned set_printed]; exact S|].
    simpl. unfold account_failure, failed. simpl. now rewrite Hrc, Hrc2.
  - unfold raise. intros H. inversion H; subst. right. left.
    eexists _, _. split; [reflexivity|].
    split; [exact (trace_trans _ _ _ _ _ _ _ (trace_trans _ _ _ _ _ _ _ T0 T1) T2)|].
    simpl. eauto.
Qed.

Lemma cleanup_processes_harmless name ps :
  cleanup_processes name ps -> existsb account_failure ps = false.
Proof. intros [->|[[st ->]|(st & st' & ->)]]; reflexivity. Qed.

Ltac spawned_only S :=
  match goal with
  | |- exists ps, spawned ?w' = spawned ?w ++ ps /\ _ =>
      eexists; split; [exact S|]
  end.

(** The handler of [CalledProcessError]: it reports, cleans up and
    returns, or breaks off at the error output it cannot decode. *)
Lemma report_trace username rc cmd stderr w r w' :
  (print (FailedToCreateUser rc cmd) ;;;
   text <- error_output stderr ;;
   print (ErrorOutput text) ;;;
   cleanup username ;;;
   ret (false, username, EmptyString)) w = (r, w') ->
  (r = Ret (false, username, EmptyString)
   /\ exists text undo,
        trace w w' undo [FailedToCreateUser rc cmd; ErrorOutput text]
        /\ cleanup_processes username undo)
  \/ (exists bytes, stderr = Some bytes
                    /\ r = Raise (UnicodeDecodeError bytes)
                    /\ utf8 [] (chars bytes) = false
                    /\ trace w w' [] [FailedToCreateUser rc cmd]).
Proof.
  unfold bind at 1. unfold print at 1. cbn beta iota.
  set (w0 := set_printed (printed w ++ [FailedToCreateUser rc cmd]) w).
  assert (T0 : trace w w0 [] [FailedToCreateUser rc cmd]) by apply trace_print.
  assert (Hreported : forall text,
    (print (ErrorOutput text) ;;; cleanup username ;;; ret (false, username, EmptyString)) w0
      = (r, w') ->
    r = Ret (false, username, EmptyString)
    /\ exists text undo,
         trace w w' undo [FailedToCreateUser rc cmd; ErrorOutput text]
         /\ cleanup_processes username undo).
  { intros text. unfold bind at 1. unfold print at 1. cbn beta iota. unfold bind at 1.
    match goal with |- context [cleanup username ?x] =>
      destruct (cleanup username x) as [r4 w4] eqn:Hcl;
      pose proof (trace_print (ErrorOutput text) w0) as T1
    end.
    apply cleanup_trace in Hcl as (-> & undo & T4 & Hundo).
    unfold ret. intros H. inversion H; subst r w'. split; [reflexivity|].
    exists text, undo. split; [|exact Hundo].
    exact (trace_trans _ _ _ _ _ _ _ (trace_trans _ _ _ _ _ _ _ T0 T1) T4). }
  unfold bind at 1. unfold error_output.
  destruct stderr as [bytes|]; [|unfold ret at 1; cbn beta iota; intros H; left; eauto].
  destruct (negb (String.eqb bytes EmptyString));
    [|unfold ret at 1; cbn beta iota; intros H; left; eauto].
  unfold bind at 1, decode.
  destruct (utf8 [] (chars bytes)) eqn:Hutf.
  - unfold ret at 1 2. cbn beta iota. intros H. left. eauto.
  - unfold raise. intros H. inversion H; subst r w'. right.
    exists bytes. auto.
Qed.

(** Every run of [create_user] either spawns no account command that
    fails, or is a failed creation, or breaks off while reporting the
    failure of [useradd]. *)
Lemma create_user_trace self username password w r w' :
  create_user self username password w = (r, w') ->
  (exists ps, spawned w' = spawned w ++ ps /\ existsb account_failure ps = false)
  \/ failed_creation username w r w'
  \/ broken_report username w r w'.
Proof.
  unfold create_user.
  destruct (validate_username username) as [valid message].
  destruct valid; cbn [negb].
  2:{ unfold bind, print, ret. intros H. inversion H; subst. left.
      exists []. now rewrite app_nil_r. }
  unfold bind at 1.
  destruct (user_exists username w) as [r0 w1] eqn:Hue.
  apply user_exists_trace in Hue as [(present & rc & -> & T1)|(why & -> & T1)].
  2:{ intros H. inversion H; subst. left. exists []. split; [apply T1 | reflexivity]. }
  destruct present.
  { unfold bind, print, ret. intros H. inversion H; subst. left.
    eexists. split; [cbn [spawned set_printed]; apply T1 | reflexivity]. }
  unfold bind at 1.
  match goal with |- context [match ?m w1 with _ => _ end] =>
    destruct (m w1) as [[pw|e] w2] eqn:Hpw;
    assert (T2 : trace w1 w2 [] [])
      by (split; rewrite ?app_nil_r;
          [ destruct password; [now inversion Hpw|];
            exact (keeps_result spawned _ _ _ _
                     ltac:(apply keeps_generate, keeps_draw; untouched) Hpw)
          | destruct password; [now inversion Hpw|];
            exact (keeps_result printed _ _ _ _
                     ltac:(apply keeps_generate, keeps_draw; untouched) Hpw)
          | destruct password; [now inversion Hpw|];
            exact (keeps_result files _ _ _ _
                     ltac:(apply keeps_generate, keeps_draw; untouched) Hpw) ])
  end.
  2:{ intros H. inversion H; subst. left.
      destruct (trace_trans _ _ _ _ _ _ _ T1 T2) as [S _ _]. spawned_only S. reflexivity. }
  pose proof (trace_trans _ _ _ _ _ _ _ T1 T2) as T12. clear T1 T2. simpl in T12.
  unfold bind at 1. unfold Path.
  destruct (as_path (dict_get (ftp_config self) "ftp_root" (VStr "/srv/ftp")))
    as [ftp_root|];
    [|unfold raise; intros H; inversion H; subst; left; destruct T12 as [S _ _];
      spawned_only S; reflexivity].
  unfold ret at 1. cbn beta iota.
  unfold try_, create_user_body. unfold bind at 1.
  destruct (create_account self username pw (joinpath ftp_root username) w2)
    as [r3 w3] eqn:Hacc.
  apply create_account_trace in Hacc
    as [(rc' & args & err & -> & Hrc' & T3)
       |[(rc' & account & -> & T3 & Hshape)|(Hnot & account & S3 & Hok)]].
  - (* [useradd] failed: the first handler, with its error output *)
    intros H. pose proof (trace_trans _ _ _ _ _ _ _ T12 T3) as T. simpl in T.
    apply report_trace in H
      as [(-> & text & undo & T4 & Hundo)|(bytes & _ & -> & Hutf & T4)];
      pose proof (trace_trans _ _ _ _ _ _ _ T T4) as T5; simpl in T5.
    + right. left. split; [reflexivity|].
      exists rc, rc', ("useradd" :: args), text,
             [Process ("useradd" :: args) EmptyString (Some rc')], undo.
      split; [exact T5|]. split; [left; eauto | exact Hundo].
    + right. right. exists bytes, rc, rc', args. auto.
  - (* [chpasswd] failed: the first handler, with no error output *)
    intros H. pose proof (trace_trans _ _ _ _ _ _ _ T12 T3) as T.
    apply report_trace in H
      as [(-> & text & undo & T4 & Hundo)|(bytes & Hnone & _)]; [|discriminate].
    pose proof (trace_trans _ _ _ _ _ _ _ T T4) as T5.
    right. left. split; [reflexivity|].
    exists rc, rc', ["chpasswd"], text, account, undo.
    split; [|split; [right; exact Hshape | exact Hundo]].
    destruct T5 as [S P F]. split; [|exact P | exact F].
    rewrite S. now rewrite <- !app_assoc.
  - (* no account command failed *)
    intros H. left. destruct T12 as [S12 _ _].
    assert (S : spawned w3 = spawned w ++ [Process ["id"; username] EmptyString (Some rc)]
                             ++ account).
    { rewrite S3, S12. now rewrite <- app_assoc. }
    assert (Hharmless : existsb account_failure
              ([Process ["id"; username] EmptyString (Some rc)] ++ account) = false).
    { simpl. exact Hok. }
    clear S3 S12 Hok.
    destruct r3 as [[]|e].
    + (* the account exists: the rest of the body spawns nothing *)
      cbn beta iota in H.
      match type of H with context [match ?m w3 with _ => _ end] =>
        assert (Krest : keeps spawned m)
          by (keeps_steps ltac:(first [ apply keeps_create_directories
                                      | apply keeps_add_to_allowed_users
                                      | apply keeps_log_credentials
                                      | apply keeps_print ]; untouched));
        destruct (m w3) as [r5 w5] eqn:Hrest;
        pose proof (keeps_result spawned _ _ _ _ Krest Hrest) as S5; clear Krest Hrest
      end.
      destruct r5 as [res|e].
      * inversion H; subst. rewrite S5. eauto.
      * destruct e; cbn [is_Exception] in H;
          try (unfold bind, print, ret in H; inversion H; subst;
               cbn [spawned set_printed]; rewrite S5; eauto).
        apply report_trace in H
          as [(_ & text & undo & [S4 _ _] & Hundo)|(bytes & _ & _ & _ & [S4 _ _])].
        -- rewrite S4, S5, S.
           eexists. split; [now rewrite <- app_assoc|].
           rewrite existsb_app, Hharmless. simpl.
           now apply (cleanup_processes_harmless username).
        -- rewrite S4, S5, S, app_nil_r. eauto.
    + (* another exception: the second handler, or none *)
      cbn beta iota in H.
      destruct e; cbn [is_Exception] in H;
        try (unfold bind, print, ret in H; inversion H; subst;
             cbn [spawned set_printed]; rewrite S; eauto).
      exfalso. eapply Hnot. reflexivity.
Qed.

Lemma drop_app_length {X} (l ps : list X) : drop (List.length l) (l ++ ps) = ps.
Proof. induction l; simpl; auto. Qed.

Lemma spawned_by_trace {A} (m : M A) w ps :
  spawned (after m w) = spawned w ++ ps -> spawned_by m w = ps.
Proof. unfold spawned_by. intros ->. apply drop_app_length. Qed.

Lemma printed_by_trace {A} (m : M A) w ms :
  printed (after m w) = printed w ++ ms -> printed_by m w = ms.
Proof. unfold printed_by. intros ->. apply drop_app_length. Qed.

(** X31.  If [useradd] or [chpasswd] exits with a non-zero status inside
    [create_user], then either [create_user] returns
    [(False, username, '')], or the error output of [useradd] is not
    UTF-8 and the [UnicodeDecodeError] of decoding it in the handler
    leaves [create_user], with neither [chpasswd] nor [userdel] run.
    Either way [useradd] ran once, [chpasswd] and [userdel] at most once
    each, so that nothing was retried; the one [userdel], if any, is the
    cleanup [userdel -r username]; neither the message of the credential
    log nor the success message was printed; and no file was written. *)
Theorem create_user_on_failure (self : FTPUserManager.t) (username : string)
    (password : option string) (w : world) :
  let m := create_user self username password in
  existsb account_failure (spawned_by m w) = true ->
  (outcome m w = Ret (false, username, EmptyString)
   \/ exists bytes, outcome m w = Raise (UnicodeDecodeError bytes)
                    /\ utf8 [] (chars bytes) = false
                    /\ runs_of "chpasswd" (spawned_by m w) = 0%nat
                    /\ runs_of "userdel" (spawned_by m w) = 0%nat)
  /\ (runs_of "useradd" (spawned_by m w) = 1
      /\ runs_of "chpasswd" (spawned_by m w) <= 1
      /\ runs_of "userdel" (spawned_by m w) <= 1)%nat
  /\ (forall p, In p (spawned_by m w) -> program p = "userdel" ->
                argv p = ["userdel"; "-r"; username])
  /\ (forall msg, In msg (printed_by m w) ->
                  msg <> CreatedSuccessfully username
                  /\ forall path, msg <> CredentialsSaved path)
  /\ files (after m w) = files w.
Proof.
  intros m Hfail.
  destruct (m w) as [r w'] eqn:Hrun.
  assert (Hout : outcome m w = r) by (unfold outcome; now rewrite Hrun).
  assert (Haft : after m w = w') by (unfold after; now rewrite Hrun).
  apply create_user_trace in Hrun
    as [(ps & S & Hok)
       |[(-> & rc & rc' & cmd & text & account & undo & [S P F] & Hacc & Hundo)
        |(bytes & rc & rc' & args & -> & Hutf & Hrc' & [S P F])]].
  { rewrite <- Haft in S. rewrite (spawned_by_trace m w ps S) in Hfail. congruence. }
  - rewrite <- Haft in S, P, F.
    rewrite (spawned_by_trace m w _ S), (printed_by_trace m w _ P), Hout.
    clear Hfail Hout Haft S P.
    split; [now left|].
    split; [|split; [|split; [|exact F]]].
    + destruct Hacc as [(args & st & ->)|(args & st & input & st' & ->)];
        destruct Hundo as [->|[[st2 ->]|(st2 & st3 & ->)]];
        unfold runs_of; simpl; lia.
    + intros p Hin Hprog.
      destruct Hacc as [(args & st & ->)|(args & st & input & st' & ->)];
        destruct Hundo as [->|[[st2 ->]|(st2 & st3 & ->)]];
        simpl in Hin;
        repeat (destruct Hin as [<-|Hin]; [try discriminate; try reflexivity|]);
        try contradiction.
    + intros msg Hin. simpl in Hin.
      repeat (destruct Hin as [<-|Hin]; [split; [discriminate | intros; discriminate]|]).
      contradiction.
  - rewrite <- Haft in S, P, F.
    rewrite (spawned_by_trace m w _ S), (printed_by_trace m w _ P), Hout.
    clear Hfail Hout Haft S P.
    split; [right; exists bytes; repeat split; auto|].
    split; [|split; [|split; [|exact F]]].
    + unfold runs_of; simpl; lia.
    + intros p Hin Hprog. simpl in Hin.
      repeat (destruct Hin as [<-|Hin]; [try discriminate; try reflexivity|]);
        try contradiction.
    + intros msg Hin. simpl in Hin.
      repeat (destruct Hin as [<-|Hin]; [split; [discriminate | intros; discriminate]|]).
      contradiction.
Qed.

Lemma create_user_on_failure_witness :
  outcome (create_user (of_config ∅) "alice" (Some "s3cret")) useradd_fails
  = Ret (false, "alice", EmptyString)
  /\ runs_of "userdel"
       (spawned_by (create_user (of_config ∅) "alice" (Some "s3cret")) useradd_fails) = 1%nat.
Proof.
  destruct (create_user_on_failure (of_config ∅) "alice" (Some "s3cret") useradd_fails)
    as ([Hout|(bytes & Hout & _)] & _).
  - vm_compute. reflexivity.
  - split; [exact Hout | vm_compute; reflexivity].
  - vm_compute in Hout. discriminate.
Defined.

(** C6.  [create_user('alice', 's3cret')] where [id alice] exits 1 and
    [useradd] exits 9 with an error output that is not UTF-8: the handler
    of [CalledProcessError] prints its first message, and then
    [e.stderr.decode()] raises [UnicodeDecodeError], which leaves
    [create_user]: nothing is returned, and the cleanup [userdel] is not
    run. *)
Lemma create_user_undecodable_error_output :
  let m := create_user (of_config ∅) "alice" (Some "s3cret") in
  outcome m useradd_garbles = Raise (UnicodeDecodeError (String (ascii_of_nat 255) EmptyString))
  /\ spawned_by m useradd_garbles
     = [ Process ["id"; "alice"] EmptyString (Some 1);
         Process ["useradd"; "-m"; "-d"; "/srv/ftp/alice"; "-s"; "/bin/bash";
                  "-G"; "ftpusers"; "alice"] EmptyString (Some 9) ]
  /\ printed_by m useradd_garbles
     = [ CreatingUser "alice";
         FailedToCreateUser 9 ["useradd"; "-m"; "-d"; "/srv/ftp/alice"; "-s"; "/bin/bash";
                               "-G"; "ftpusers"; "alice"] ].
Proof. vm_compute. repeat split. Qed.

(* ===================================================================== *)
(** * Further properties of the user manager                            *)
(* ===================================================================== *)

Lemma after_blocks_allowed self a :
  after_blocks self a ->
  Forall (allowed_character self) (fst a) /\ Forall (allowed_character self) (snd a).
Proof.
  intros [Hc (parts & Hp & Hparts)]. split.
  - rewrite Hc. apply List.Forall_forall. intros c Hin.
    apply in_flat_map in Hin as (k & _ & Hin).
    destruct (enabled self k) eqn:Hk; [|destruct Hin]. now exists k.
  - rewrite Hp. apply List.Forall_forall. intros c Hin.
    apply in_flat_map in Hin as (k & _ & Hin).
    destruct (Hparts k) as [Hlen Hall].
    exists k. split.
    + unfold share in Hlen. destruct (enabled self k); [reflexivity|].
      destruct (parts k); [destruct Hin | discriminate].
    + rewrite List.Forall_forall in Hall. now apply Hall.
Qed.

Lemma generate_Ret_allowed self w pw :
  outcome (PasswordGenerator.generate self) w = Ret pw ->
  Forall (allowed_character self) (chars pw).
Proof.
  unfold outcome.
  destruct (PasswordGenerator.generate self w) as [r w'] eqn:H. simpl. intros ->.
  rewrite generate_assoc in H.
  apply bind_Ret_inv in H as (a & w1 & Ha & H).
  apply blocks_Ret_inv in Ha. apply after_blocks_allowed in Ha as [Hcs Hpc].
  apply bind_Ret_inv in H as (pcs & w2 & Hfill & H).
  unfold PasswordGenerator.fill_block in Hfill.
  destruct (index (PasswordGenerator.length self)) as [len|]; [|discriminate].
  apply append_choices_Ret_inv in Hfill as (fill & -> & _ & Hall).
  apply bind_Ret_inv in H as (pcs' & w3 & Hsh & H).
  destruct (shuffle_spec (snd a ++ fill) w2) as (x' & w4 & Hsh' & Hperm).
  rewrite Hsh in Hsh'. inversion Hsh'; subst x' w4. inversion H; subst pw w'.
  rewrite chars_join.
  apply List.Forall_forall. intros c Hin.
  apply (Permutation_in _ Hperm) in Hin. apply in_app_or in Hin as [Hin|Hin].
  - rewrite List.Forall_forall in Hpc. now apply Hpc.
  - rewrite List.Forall_forall in Hall, Hcs. apply Hcs, Hall, Hin.
Qed.

(** X1.  Whatever password [generate] returns is made of characters of
    the enabled classes only: each of its characters belongs to the
    alphabet of a class the policy includes. *)
Theorem generate_draws_from_enabled_classes (policy : gmap string value) (w : world)
    (pw : string) :
  let self := PasswordGenerator.init policy in
  outcome (PasswordGenerator.generate self) w = Ret pw ->
  Forall (allowed_character self) (chars pw).
Proof. intros self. apply generate_Ret_allowed. Qed.

Lemma generate_draws_from_enabled_classes_witness :
  Forall (allowed_character (PasswordGenerator.init ∅)) (chars "dhb3df&jjid#7fBE").
Proof.
  apply (generate_draws_from_enabled_classes ∅ rolling_world "dhb3df&jjid#7fBE").
  reflexivity.
Defined.

(** X2.  With [exclude_ambiguous] on (the default), the letters [l], [o],
    [I], [O] and the digits [0], [1] occur in a generated password only
    where the configured special characters hold them. *)
Theorem generate_excludes_ambiguous (policy : gmap string value) (w : world)
    (pw : string) (c : ascii) :
  let self := PasswordGenerator.init policy in
  truthy (PasswordGenerator.exclude_ambiguous self) = true ->
  outcome (PasswordGenerator.generate self) w = Ret pw ->
  In c (chars pw) -> In c ambiguous ->
  enabled self Special = true
  /\ exists specials, PasswordGenerator.special_chars self = VStr specials
                      /\ In c (chars specials).
Proof.
  intros self. generalize self. clear self. intros self Hex Hout Hin Hamb.
  apply generate_Ret_allowed in Hout. rewrite List.Forall_forall in Hout.
  destruct (Hout c Hin) as (k & Hk & Hal).
  destruct k.
  1-3: exfalso; simpl in Hal;
       unfold PasswordGenerator.lowercase, PasswordGenerator.uppercase,
         PasswordGenerator.digits_of in Hal; rewrite Hex in Hal;
       unfold ambiguous in Hamb; simpl in Hamb, Hal;
       repeat (destruct Hamb as [<-|Hamb]; [intuition discriminate|]); destruct Hamb.
  split; [exact Hk|]. cbn [alphabet] in Hal.
  destruct (PasswordGenerator.special_chars self) as [| | |specials]; try destruct Hal.
  now exists specials.
Qed.

Lemma generate_excludes_ambiguous_witness :
  exists specials,
    PasswordGenerator.special_chars
      (PasswordGenerator.init {[ "special_chars" := VStr "l!" ]}) = VStr specials
    /\ In "l"%char (chars specials).
Proof.
  apply (generate_excludes_ambiguous {[ "special_chars" := VStr "l!" ]} rolling_world
           "dhb3dfljjidl7fBE" "l"%char).
  - reflexivity.
  - reflexivity.
  - simpl. tauto.
  - unfold ambiguous. simpl. tauto.
Defined.

Lemma subprocess_run_Ret c args input w r w' :
  subprocess_run (c :: args) input None w = (Ret r, w') ->
  exists rc out err, r = (rc, out, err) /\ w' = ran (Process (c :: args) input (Some rc)) w.
Proof.
  unfold subprocess_run, ran.
  destruct (next_answer w) as [[rc out err secs|why] rest]; intros H; inversion H; subst.
  eauto.
Qed.

Lemma run_checked_Ret c args w w' :
  run_checked (c :: args) w = (Ret tt, w') ->
  w' = ran (Process (c :: args) EmptyString (Some 0)) w.
Proof.
  unfold run_checked. intros H. step H as r w1 Hrun.
  apply subprocess_run_Ret in Hrun as (rc & out & err & -> & ->).
  cbn [fst] in H. destruct (Z.eqb_spec rc 0) as [->|]; [|discriminate].
  now inversion H.
Qed.

Lemma user_exists_Ret name w present w' :
  user_exists name w = (Ret present, w') ->
  exists rc, present = (rc =? 0) /\ w' = ran (Process ["id"; name] EmptyString (Some rc)) w.
Proof.
  unfold user_exists, try_, run_checked. unfold bind at 1. unfold bind at 1.
  destruct (subprocess_run ["id"; name] EmptyString None w) as [[r|e] w1] eqn:Hrun.
  - apply subprocess_run_Ret in Hrun as (rc & out & err & -> & ->). cbn [fst].
    intros H. exists rc. destruct (rc =? 0); simpl in H; inversion H; subst; auto.
  - unfold subprocess_run in Hrun.
    destruct (next_answer w) as [[rc out err secs|why] rest]; inversion Hrun; subst.
    simpl. discriminate.
Qed.

Lemma validate_username_valid username message :
  validate_username username = (true, message) -> message = EmptyString.
Proof.
  intros H. pose proof (validate_username_true username) as Ht.
  rewrite H in Ht. destruct Ht as [Ht _]. specialize (Ht eq_refl). now inversion Ht.
Qed.

(** The steps of a run of [create_user] that returns success. *)
Lemma create_user_success_inv self username password w u p w' :
  create_user self username password w = (Ret (true, u, p), w') ->
  u = username
  /\ validate_username username = (true, EmptyString)
  /\ exists w1 w2 root w3 w4 w5 w6,
       user_exists username w = (Ret false, w1)
       /\ password_or_generated self password w1 = (Ret p, w2)
       /\ as_path (dict_get (ftp_config self) "ftp_root" (VStr "/srv/ftp")) = Some root
       /\ create_account self username p (joinpath root username) w2 = (Ret tt, w3)
       /\ create_directories username (joinpath root username)
            (joinpath (joinpath root username) "files") w3 = (Ret tt, w4)
       /\ add_to_allowed_users self username w4 = (Ret tt, w5)
       /\ _log_credentials self username p w5 = (Ret tt, w6)
       /\ w' = set_printed (printed w6 ++ [CreatedSuccessfully username]) w6.
Proof.
  intros H. unfold create_user in H.
  destruct (validate_username username) as [valid message] eqn:Hv.
  destruct valid; cbn [negb] in H;
    [|unfold bind, print, ret in H; discriminate].
  apply validate_username_valid in Hv as Hm. subst message.
  step H as present w1 Hue.
  destruct present; [unfold bind, print, ret in H; discriminate|].
  step H as pw w2 Hpw.
  step H as ftp_root w3 Hroot. unfold Path in Hroot.
  destruct (as_path (dict_get (ftp_config self) "ftp_root" (VStr "/srv/ftp")))
    as [root|] eqn:Hr; [|discriminate].
  unfold ret in Hroot. inversion Hroot; subst ftp_root w3; clear Hroot.
  apply try_Ret_inv in H as [H | (e & w4 & k & _ & Hh & Hk)].
  2:{ destruct e; simpl in Hh; inversion Hh; subst k; clear Hh.
      all: try (unfold bind, print, ret in Hk; discriminate).
      step Hk as [] w5 Hk1. step Hk as text w6 Hk2. step Hk as [] w7 Hk3.
      step Hk as [] w8 Hk4.
      unfold ret in Hk. discriminate. }
  unfold create_user_body in H.
  step H as [] w4 Hacc. step H as [] w5 Hdir. step H as [] w6 Hadd.
  step H as [] w7 Hlog. step H as [] w8 Hpr.
  unfold ret in H. inversion H; subst u pw w8; clear H.
  unfold print in Hpr. inversion Hpr; subst w'; clear Hpr.
  split; [reflexivity|]. split; [reflexivity|].
  exists w1, w2, root, w4, w5, w6, w7. repeat split; assumption.
Qed.

Lemma arguments_strings ss w : arguments (map VStr ss) w = (Ret ss, w).
Proof.
  induction ss as [|s ss IH]; [reflexivity|].
  simpl. unfold bind. now rewrite IH.
Qed.

Lemma create_account_Ret self username password home w w' :
  create_account self username password home w = (Ret tt, w') ->
  exists shell group,
    dict_get (ftp_config self) "default_shell" (VStr "/bin/bash") = VStr shell
    /\ dict_get (ftp_config self) "ftp_group" (VStr "ftpusers") = VStr group
    /\ w' = set_printed
              (printed w ++ [CreatingUser username; AccountCreated])
              (ran (Process ["chpasswd"] (chpasswd_input username password) (Some 0))
                 (ran (Process (useradd_command home shell group username)
                               EmptyString (Some 0)) w)).
Proof.
  unfold create_account. intros H.
  step H as [] w1 Hpr. unfold print in Hpr. inversion Hpr; subst w1; clear Hpr.
  step H as cmd w2 Hargs.
  destruct (dict_get (ftp_config self) "default_shell" (VStr "/bin/bash"))
    as [| | |shell]; try discriminate.
  destruct (dict_get (ftp_config self) "ftp_group" (VStr "ftpusers"))
    as [| | |group]; try discriminate.
  change [VStr "useradd"; VStr "-m"; VStr "-d"; VStr home; VStr "-s"; VStr shell;
          VStr "-G"; VStr group; VStr username]
    with (map VStr (useradd_command home shell group username)) in Hargs.
  rewrite arguments_strings in Hargs. inversion Hargs; subst cmd w2; clear Hargs.
  step H as [] w3 Hadd. apply run_checked_Ret in Hadd. subst w3.
  step H as [] w4 Hch. unfold chpasswd in Hch.
  step Hch as r w5 Hrun.
  apply subprocess_run_Ret in Hrun as (rc & out & err & -> & ->). cbn [fst] in Hch.
  destruct (Z.eqb_spec rc 0) as [->|]; [|discriminate].
  unfold ret in Hch. inversion Hch; subst w4; clear Hch.
  unfold print in H. inversion H; subst w'; clear H.
  exists shell, group. repeat split.
  unfold ran, chpasswd_input. cbn. rewrite <- app_assoc. reflexivity.
Qed.

Lemma syscall_Ret c w w' :
  syscall_ c w = (Ret tt, w') ->
  syscalls w' = syscalls w ++ [c] /\ passwd w' = passwd w.
Proof.
  unfold syscall_. destruct (dir_fault w) as [[|k]|]; intros H; inversion H; subst; auto.
Qed.

Lemma create_directories_Ret username home dir w w' :
  create_directories username home dir w = (Ret tt, w') ->
  exists uid gid, passwd w = Some (uid, gid)
    /\ syscalls w' = syscalls w ++ directory_calls home dir uid gid.
Proof.
  unfold create_directories. intros H.
  step H as [] w1 Hpr. unfold print in Hpr. inversion Hpr; subst w1; clear Hpr.
  step H as [] w2 H1. apply syscall_Ret in H1 as [S1 P1].
  step H as [] w3 H2. apply syscall_Ret in H2 as [S2 P2].
  step H as [] w4 H3. apply syscall_Ret in H3 as [S3 P3].
  step H as [] w5 H4. apply syscall_Ret in H4 as [S4 P4].
  step H as [uid gid] w6 Hpw. unfold getpwnam in Hpw.
  destruct (passwd w5) as [ids|] eqn:Hids; [|discriminate].
  inversion Hpw; subst ids w6; clear Hpw.
  step H as [] w7 H5. apply syscall_Ret in H5 as [S5 P5].
  step H as [] w8 H6. apply syscall_Ret in H6 as [S6 P6].
  unfold print in H. inversion H; subst w'; clear H.
  exists uid, gid. cbn [syscalls passwd set_printed] in *. split.
  - congruence.
  - rewrite S6, S5, S4, S3, S2, S1. unfold directory_calls. cbn [fst snd].
    now rewrite <- !app_assoc.
Qed.

(** What "Add to allowed users list" leaves of the allow-list when it
    returns: the text as it was when the name is listed, and one line more
    when it is not. *)
Lemma add_to_allowed_users_Ret self username userlist_file w w' :
  as_path (dict_get (ftp_config self) "allowed_users_file" (VStr "/etc/vsftpd.userlist"))
  = Some userlist_file ->
  add_to_allowed_users self username w = (Ret tt, w') ->
  is_Some (files w' !! userlist_file)
  /\ listing userlist_file w'
     = if str_in username (map strip (readlines (listing userlist_file w)))
       then listing userlist_file w
       else String.append (listing userlist_file w) (line username).
Proof.
  intros Hp. unfold add_to_allowed_users. rewrite (Path_as_path _ _ Hp).
  unfold listing, bind, ret, exists_, write_text, chmod_file, read_text,
    append_text, print, line.
  destruct (files w !! userlist_file) as [f|] eqn:Hf; simpl.
  - rewrite Hf. simpl.
    destruct (str_in username (map strip (readlines (content f)))) eqn:Hin; simpl.
    + intros H. inversion H; subst w'. cbn [files set_printed]. rewrite Hf. eauto.
    + intros H. inversion H; subst w'. cbn [files set_printed set_files].
      rewrite lookup_insert_eq. rewrite Hf. simpl. eauto.
  - rewrite Hf, !lookup_insert_eq. simpl. rewrite !lookup_insert_eq. simpl.
    intros H. inversion H; subst w'. cbn [files set_printed set_files].
    rewrite !lookup_insert_eq. simpl. eauto.
Qed.

(** What a step leaves of a component it keeps. *)
Tactic Notation "kept" constr(proj) "in" hyp(H) "as" ident(K) "by" tactic(tac) :=
  match type of H with
  | ?m ?w = _ => pose proof (keeps_result proj m _ _ _ ltac:(tac) H) as K
  end.

Lemma password_or_generated_keeps {X} (proj : world -> X) self password w p w' :
  (forall rs w, proj (set_entropy rs w) = proj w) ->
  password_or_generated self password w = (Ret p, w') -> proj w' = proj w.
Proof. intros Hproj H. exact (password_choice_view proj self password w p w' Hproj H). Qed.

Lemma password_or_generated_given self q w p w' :
  password_or_generated self (Some q) w = (Ret p, w') -> p = q.
Proof. unfold password_or_generated, ret. intros H. now inversion H. Qed.

Lemma log_credentials_syscalls self username password w w' :
  _log_credentials self username password w = (Ret tt, w') ->
  syscalls w' = syscalls w ++ log_directory_calls self.
Proof.
  unfold _log_credentials, log_directory_calls.
  destruct (truthy (dict_get (logging_config self) "enabled" (VBool true))); cbn [negb].
  2:{ unfold ret. intros H. inversion H. now rewrite app_nil_r. }
  unfold Path.
  destruct (as_path (dict_get (logging_config self) "credentials_file"
                              (VStr "/root/.ftp_credentials.csv")))
    as [credentials_file|]; [|discriminate].
  intros H. step H as cf w1 Hp. unfold ret in Hp. inversion Hp; subst cf w1; clear Hp.
  step H as [] w2 Hmk. apply syscall_Ret in Hmk as [S _].
  step H as file_exists w3 Hex. unfold exists_ in Hex. inversion Hex; subst w3; clear Hex.
  match type of H with
  | ?m w2 = _ => pose proof (keeps_result syscalls m _ _ _
        ltac:(keeps_steps ltac:(first
                [ apply keeps_append_text | apply keeps_chmod_file | apply keeps_print
                | apply keeps_strftime_now
                | let w := fresh "w" in intros w; destruct (log_fault w); reflexivity ];
                untouched)) H) as K
  end.
  congruence.
Qed.

Lemma run_outcome {A} (m : M A) w r : outcome m w = r -> m w = (r, after m w).
Proof. unfold outcome, after. destruct (m w). simpl. congruence. Qed.

Lemma spawned_ran p w : spawned (ran p w) = spawned w ++ [p].
Proof. reflexivity. Qed.

Ltac unwritten :=
  first [ apply keeps_add_to_allowed_users | apply keeps_log_credentials ]; untouched.

(** X3.  A [create_user] that returns success has run exactly three
    commands: the [id] probe, which exited non-zero; [useradd -m -d
    <home> -s <shell> -G <group> <username>], where [<home>] is
    [str(Path(ftp_root) / username)], the path [pathlib] makes of the
    configured root and the username; and [chpasswd], fed
    [<username>:<password>] with the very password it returns, which is
    the caller's when one was given.  The last two exited with status
    0. *)
Theorem create_user_commands (self : FTPUserManager.t) (username : string)
    (password : option string) (w w' : world) (u p : string) :
  create_user self username password w = (Ret (true, u, p), w') ->
  exists rc root shell group,
    rc <> 0
    /\ as_path (dict_get (ftp_config self) "ftp_root" (VStr "/srv/ftp")) = Some root
    /\ dict_get (ftp_config self) "default_shell" (VStr "/bin/bash") = VStr shell
    /\ dict_get (ftp_config self) "ftp_group" (VStr "ftpusers") = VStr group
    /\ spawned w'
       = spawned w
         ++ [ Process ["id"; username] EmptyString (Some rc);
              Process (useradd_command (joinpath root username) shell group username)
                      EmptyString (Some 0);
              Process ["chpasswd"] (chpasswd_input username p) (Some 0) ]
    /\ (forall q, password = Some q -> p = q).
Proof.
  intros H.
  apply create_user_success_inv in H
    as (-> & Hv & w1 & w2 & root & w3 & w4 & w5 & w6
        & Hue & Hpw & Hroot & Hacc & Hdir & Hadd & Hlog & ->).
  apply user_exists_Ret in Hue as (rc & Hrc & ->).
  pose proof (password_or_generated_keeps spawned _ _ _ _ _ ltac:(untouched) Hpw) as S2.
  apply create_account_Ret in Hacc as (shell & group & Hsh & Hgr & ->).
  kept spawned in Hdir as K by quiet.
  kept spawned in Hadd as S5 by unwritten.
  kept spawned in Hlog as S6 by unwritten.
  exists rc, root, shell, group.
  split; [intros ->; simpl in Hrc; discriminate|]. repeat (split; [assumption|]).
  split.
  - cbn [spawned set_printed]. rewrite S6, S5, K. cbn [spawned set_printed].
    rewrite !spawned_ran, S2, spawned_ran. now rewrite <- !app_assoc.
  - intros q ->. exact (password_or_generated_given _ _ _ _ _ Hpw).
Qed.

Lemma create_user_commands_witness :
  exists rc root shell group,
    rc <> 0
    /\ as_path (dict_get (ftp_config (of_config ∅)) "ftp_root" (VStr "/srv/ftp")) = Some root
    /\ dict_get (ftp_config (of_config ∅)) "default_shell" (VStr "/bin/bash") = VStr shell
    /\ dict_get (ftp_config (of_config ∅)) "ftp_group" (VStr "ftpusers") = VStr group
    /\ spawned (after (create_user (of_config ∅) "alice" None) fresh_account)
       = spawned fresh_account
         ++ [ Process ["id"; "alice"] EmptyString (Some rc);
              Process (useradd_command (joinpath root "alice") shell group "alice")
                      EmptyString (Some 0);
              Process ["chpasswd"] (chpasswd_input "alice" "aAA22!!aaaaaaaaa") (Some 0) ]
    /\ (forall q, @None string = Some q -> "aAA22!!aaaaaaaaa" = q).
Proof.
  apply (create_user_commands (of_config ∅) "alice" None fresh_account _ "alice").
  apply run_outcome. reflexivity.
Defined.

(** X4.  A [create_user] that returns success has made these directory
    calls, in this order: the home directory [Path(ftp_root) / username]
    is created, given to root (uid 0, gid 0) with mode 755; its [files]
    subdirectory is created, given to the new account (the uid and gid of
    its password entry) with mode 755; last, with logging enabled, the
    parent directory of the credential log (its [pathlib] parent) is
    created. *)
Theorem create_user_directories (self : FTPUserManager.t) (username : string)
    (password : option string) (w w' : world) (u p : string) :
  create_user self username password w = (Ret (true, u, p), w') ->
  exists root uid gid,
    as_path (dict_get (ftp_config self) "ftp_root" (VStr "/srv/ftp")) = Some root
    /\ passwd w = Some (uid, gid)
    /\ syscalls w'
       = syscalls w
         ++ directory_calls (joinpath root username)
              (joinpath (joinpath root username) "files") uid gid
         ++ log_directory_calls self.
Proof.
  intros H.
  apply create_user_success_inv in H
    as (-> & Hv & w1 & w2 & root & w3 & w4 & w5 & w6
        & Hue & Hpw & Hroot & Hacc & Hdir & Hadd & Hlog & ->).
  kept syscalls in Hue as S1 by quiet. kept passwd in Hue as P1 by quiet.
  pose proof (password_or_generated_keeps syscalls _ _ _ _ _ ltac:(untouched) Hpw) as S2.
  pose proof (password_or_generated_keeps passwd _ _ _ _ _ ltac:(untouched) Hpw) as P2.
  kept syscalls in Hacc as S3 by quiet. kept passwd in Hacc as P3 by quiet.
  apply create_directories_Ret in Hdir as (uid & gid & Hids & S4).
  assert (S5 : syscalls w5 = syscalls w4).
  { refine (keeps_result syscalls _ _ _ _ _ Hadd).
    unfold add_to_allowed_users.
    keeps_steps ltac:(first [ apply keeps_append_text | apply keeps_write_text
                            | apply keeps_chmod_file | apply keeps_print
                            | apply keeps_Path | apply keeps_exists | apply keeps_read_text ];
                      untouched). }
  apply log_credentials_syscalls in Hlog as S6.
  exists root, uid, gid. split; [assumption|]. split; [congruence|].
  cbn [syscalls set_printed]. rewrite S6, S5, S4. rewrite <- app_assoc. congruence.
Qed.

Lemma create_user_directories_witness :
  exists root uid gid,
    as_path (dict_get (ftp_config (of_config ∅)) "ftp_root" (VStr "/srv/ftp")) = Some root
    /\ passwd fresh_account = Some (uid, gid)
    /\ syscalls (after (create_user (of_config ∅) "alice" (Some "s3cret")) fresh_account)
       = syscalls fresh_account
         ++ directory_calls (joinpath root "alice")
              (joinpath (joinpath root "alice") "files") uid gid
         ++ log_directory_calls (of_config ∅).
Proof.
  apply (create_user_directories (of_config ∅) "alice" (Some "s3cret") fresh_account _
           "alice" "s3cret").
  apply run_outcome. reflexivity.
Defined.

Lemma occurrences_listed username text :
  str_in username (map strip (readlines text)) = true -> (1 <= occurrences username text)%nat.
Proof.
  unfold occurrences, str_in. induction (readlines text) as [|l ls IH]; simpl; [discriminate|].
  intros H. apply orb_true_iff in H as [Hl|Hls].
  - rewrite String.eqb_sym, Hl. simpl. lia.
  - specialize (IH Hls). destruct (String.eqb (strip l) username); simpl; lia.
Qed.

(** The allow-list after a [create_user] that returns success. *)
Lemma create_user_success_listing self username password userlist_file w u p w' :
  as_path (dict_get (ftp_config self) "allowed_users_file" (VStr "/etc/vsftpd.userlist"))
  = Some userlist_file ->
  as_path (dict_get (logging_config self) "credentials_file" (VStr "/root/.ftp_credentials.csv"))
  <> Some userlist_file ->
  create_user self username password w = (Ret (true, u, p), w') ->
  acceptable username
  /\ is_Some (files w' !! userlist_file)
  /\ listing userlist_file w'
     = if str_in username (map strip (readlines (listing userlist_file w)))
       then listing userlist_file w
       else String.append (listing userlist_file w) (line username).
Proof.
  intros Hp Hne H.
  apply create_user_success_inv in H
    as (-> & Hv & w1 & w2 & root & w3 & w4 & w5 & w6
        & Hue & Hpw & Hroot & Hacc & Hdir & Hadd & Hlog & ->).
  split; [now apply validate_username_acceptable|].
  kept files in Hue as F1 by quiet.
  pose proof (password_or_generated_keeps files _ _ _ _ _ ltac:(untouched) Hpw) as F2.
  kept files in Hacc as F3 by quiet.
  kept files in Hdir as F4 by quiet.
  destruct (add_to_allowed_users_Ret self username userlist_file w4 w5 Hp Hadd) as [E5 L5].
  pose proof (keeps_result (file_at userlist_file) _ _ _ _
                (log_credentials_elsewhere self username p userlist_file Hne) Hlog) as F6.
  unfold file_at in F6.
  assert (L : listing userlist_file w4 = listing userlist_file w).
  { unfold listing. now rewrite F4, F3, F2, F1. }
  assert (L6 : listing userlist_file w6 = listing userlist_file w5).
  { unfold listing. now rewrite F6. }
  change (is_Some (files w6 !! userlist_file)
          /\ listing userlist_file w6
             = if str_in username (map strip (readlines (listing userlist_file w)))
               then listing userlist_file w
               else String.append (listing userlist_file w) (line username)).
  split; [now rewrite F6|].
  now rewrite L6, L5, L.
Qed.

(** X5.  When the allow-list is another file than the credential log and
    each of its lines ends with a line feed, a [create_user] that returns
    success leaves the allow-list in place with the username listed: as
    often as before when it was listed already, and once when it was
    not. *)
Theorem create_user_lists_the_user (self : FTPUserManager.t) (username : string)
    (password : option string) (userlist_file : string) (w w' : world) (u p : string) :
  as_path (dict_get (ftp_config self) "allowed_users_file" (VStr "/etc/vsftpd.userlist"))
  = Some userlist_file ->
  as_path (dict_get (logging_config self) "credentials_file" (VStr "/root/.ftp_credentials.csv"))
  <> Some userlist_file ->
  newline_terminated (listing userlist_file w) = true ->
  create_user self username password w = (Ret (true, u, p), w') ->
  is_Some (files w' !! userlist_file)
  /\ occurrences username (listing userlist_file w')
     = Nat.max 1 (occurrences username (listing userlist_file w)).
Proof.
  intros Hp Hne Hnl H.
  destruct (create_user_success_listing _ _ _ _ _ _ _ _ Hp Hne H) as (Hacc & Hex & L).
  split; [exact Hex|]. rewrite L.
  destruct (str_in username (map strip (readlines (listing userlist_file w)))) eqn:Hin.
  - apply occurrences_listed in Hin. lia.
  - unfold line. rewrite occurrences_append_line by assumption.
    rewrite (occurrences_not_listed _ _ Hin), String.eqb_refl. reflexivity.
Qed.

Lemma create_user_lists_the_user_witness :
  is_Some (files (after (create_user (of_config ∅) "alice" (Some "s3cret")) fresh_account)
             !! "/etc/vsftpd.userlist")
  /\ occurrences "alice"
       (listing "/etc/vsftpd.userlist"
          (after (create_user (of_config ∅) "alice" (Some "s3cret")) fresh_account))
     = Nat.max 1 (occurrences "alice" (listing "/etc/vsftpd.userlist" fresh_account)).
Proof.
  apply (create_user_lists_the_user (of_config ∅) "alice" (Some "s3cret")
           "/etc/vsftpd.userlist" fresh_account _ "alice" "s3cret").
  - reflexivity.
  - discriminate.
  - reflexivity.
  - apply run_outcome. reflexivity.
Defined.

(** What a run of [delete_user] that returns [True] has done. *)
Lemma delete_user_success_inv self username remove_home w w' :
  delete_user self username remove_home w = (Ret true, w') ->
  exists userlist_file,
    as_path (dict_get (ftp_config self) "allowed_users_file" (VStr "/etc/vsftpd.userlist"))
    = Some userlist_file
    /\ spawned w'
       = spawned w ++ [ Process ["id"; username] EmptyString (Some 0);
                        Process (userdel_command remove_home username) EmptyString (Some 0) ]
    /\ files w'
       = match files w !! userlist_file with
         | Some f =>
             <[userlist_file :=
                 File (concat_str (List.filter (kept username) (readlines (content f))))
                      (mode f)]> (files w)
         | None => files w
         end.
Proof.
  intros H. unfold delete_user in H.
  step H as present w1 Hue. apply user_exists_Ret in Hue as (rc & Hrc & ->).
  destruct present; cbn [negb] in H; [|unfold bind, print, ret in H; discriminate].
  assert (rc = 0) as -> by (symmetry in Hrc; now apply Z.eqb_eq in Hrc).
  step H as [] w1 Hpr. unfold print in Hpr. inversion Hpr; subst w1; clear Hpr.
  apply try_Ret_inv in H as [H | (e & w4 & k & _ & Hh & Hk)].
  2:{ destruct e; simpl in Hh; inversion Hh; subst k; clear Hh.
      unfold bind, print, ret in Hk. discriminate. }
  step H as [] w2 Hrun.
  change (["userdel"] ++ (if remove_home then ["-r"] else []) ++ [username])
    with ("userdel" :: ((if remove_home then ["-r"] else []) ++ [username])) in Hrun.
  apply run_checked_Ret in Hrun. subst w2.
  step H as [] w3 Hpr. unfold print in Hpr. inversion Hpr; subst w3; clear Hpr.
  step H as userlist_file w4 Hp. unfold Path in Hp.
  destruct (as_path (dict_get (ftp_config self) "allowed_users_file"
                              (VStr "/etc/vsftpd.userlist")))
    as [ul|]; [|discriminate].
  unfold ret in Hp. inversion Hp; subst userlist_file w4; clear Hp.
  step H as listed w5 Hex. unfold exists_ in Hex. inversion Hex; subst listed w5; clear Hex.
  step H as [] w6 Hrm.
  unfold print, ret in H. inversion H; subst w'; clear H.
  exists ul. split; [reflexivity|].
  change (files (set_printed _ (ran _ (set_printed _ (ran _ w))))) with (files w) in Hrm.
  destruct (files w !! ul) as [f|] eqn:Hf.
  - rewrite bool_decide_eq_true_2 in Hrm by eauto.
    unfold bind, read_text, write_text, print, ret in Hrm.
    change (files (set_printed _ (ran _ (set_printed _ (ran _ w))))) with (files w) in Hrm.
    rewrite Hf in Hrm. inversion Hrm; subst w6; clear Hrm.
    split; [|cbn [files set_printed set_files]; unfold ran;
             cbn [files set_printed set_files set_answers set_spawned];
             rewrite Hf; reflexivity].
    cbn [spawned set_printed set_files]. rewrite !spawned_ran.
    cbn [spawned set_printed]. rewrite spawned_ran. now rewrite <- app_assoc.
  - rewrite bool_decide_eq_false_2 in Hrm by (intros [? ?]; congruence).
    unfold ret in Hrm. inversion Hrm; subst w6; clear Hrm.
    split; [|reflexivity].
    cbn [spawned set_printed set_files]. rewrite !spawned_ran.
    cbn [spawned set_printed]. rewrite spawned_ran. now rewrite <- app_assoc.
Qed.

Lemma concat_str_readlines text : concat_str (readlines text) = text.
Proof.
  rewrite <- (join_chars (concat_str (readlines text))), chars_concat_str.
  unfold readlines. rewrite map_chars_join, concat_lines_of. apply join_chars.
Qed.

Lemma filter_all {X} (f : X -> bool) (l : list X) :
  List.length (List.filter (fun x => negb (f x)) l) = 0%nat -> List.filter f l = l.
Proof.
  induction l as [|x l IH]; simpl; [reflexivity|].
  destruct (f x); simpl; [intros H; now rewrite IH | discriminate].
Qed.

(** X6.  Creating an account and deleting it again gives the allow-list
    back: when the allow-list is another file than the credential log,
    each of its lines ends with a line feed and none of them names the
    user, a successful [create_user] followed by a successful
    [delete_user] of the same name leaves the text of the allow-list as it
    was before the two. *)
Theorem create_then_delete_restores_allow_list (self : FTPUserManager.t)
    (username : string) (password : option string) (remove_home : bool)
    (userlist_file : string) (w w1 w2 : world) (u p : string) :
  as_path (dict_get (ftp_config self) "allowed_users_file" (VStr "/etc/vsftpd.userlist"))
  = Some userlist_file ->
  as_path (dict_get (logging_config self) "credentials_file" (VStr "/root/.ftp_credentials.csv"))
  <> Some userlist_file ->
  newline_terminated (listing userlist_file w) = true ->
  occurrences username (listing userlist_file w) = 0%nat ->
  create_user self username password w = (Ret (true, u, p), w1) ->
  delete_user self username remove_home w1 = (Ret true, w2) ->
  listing userlist_file w2 = listing userlist_file w.
Proof.
  intros Hp Hne Hnl Hocc Hc Hd.
  destruct (create_user_success_listing _ _ _ _ _ _ _ _ Hp Hne Hc) as (Hacc & [f1 Hf1] & L1).
  apply delete_user_success_inv in Hd as (ul & Hp' & _ & F2).
  rewrite Hp in Hp'. inversion Hp'; subst ul; clear Hp'.
  rewrite Hf1 in F2.
  assert (L2 : listing userlist_file w2
               = concat_str (List.filter (kept username)
                               (readlines (listing userlist_file w1)))).
  { unfold listing. now rewrite F2, lookup_insert_eq, Hf1. }
  rewrite L2, L1. clear L2 L1 F2.
  destruct (str_in username (map strip (readlines (listing userlist_file w)))) eqn:Hin.
  { apply occurrences_listed in Hin. lia. }
  destruct (acceptable_chars username Hacc) as [Hs Hn].
  unfold line. rewrite readlines_append_line by assumption.
  rewrite List.filter_app. cbn [List.filter]. unfold kept at 2.
  rewrite strip_line by exact Hs. rewrite String.eqb_refl. cbn [negb]. rewrite app_nil_r.
  rewrite filter_all; [apply concat_str_readlines|].
  unfold occurrences in Hocc. rewrite <- Hocc. f_equal.
  apply List.filter_ext. intros l. unfold kept. now rewrite negb_involutive.
Qed.

Lemma create_then_delete_restores_allow_list_witness :
  listing "/etc/vsftpd.userlist"
    (after (delete_user (of_config ∅) "dave" true)
       (after (create_user (of_config ∅) "dave" (Some "s3cret")) newcomer))
  = listing "/etc/vsftpd.userlist" newcomer.
Proof.
  apply (create_then_delete_restores_allow_list (of_config ∅) "dave" (Some "s3cret") true
           "/etc/vsftpd.userlist" newcomer
           (after (create_user (of_config ∅) "dave" (Some "s3cret")) newcomer)
           (after (delete_user (of_config ∅) "dave" true)
              (after (create_user (of_config ∅) "dave" (Some "s3cret")) newcomer))
           "dave" "s3cret").
  - reflexivity.
  - discriminate.
  - reflexivity.
  - reflexivity.
  - apply run_outcome. reflexivity.
  - apply run_outcome. reflexivity.
Defined.

(** X7.  For a valid username whose [id] probe exits with status 0,
    [create_user] returns [(False, username, '')] after that one command
    and one warning: no password is generated, no other command is run and
    no file or directory is touched. *)
Theorem create_user_existing_account (self : FTPUserManager.t) (username : string)
    (password : option string) (w : world) (out err : string) (seconds : Z) :
  validate_username username = (true, EmptyString) ->
  fst (next_answer w) = Exits 0 out err seconds ->
  create_user self username password w
  = (Ret (false, username, EmptyString),
     set_printed (printed w ++ [UserAlreadyExists username])
       (ran (Process ["id"; username] EmptyString (Some 0)) w)).
Proof.
  intros Hv Hid. unfold create_user. rewrite Hv. cbn [negb].
  unfold bind at 1.
  assert (Hue : user_exists username w
                = (Ret true, ran (Process ["id"; username] EmptyString (Some 0)) w)).
  { unfold user_exists, try_, run_checked, bind, subprocess_run, ran.
    destruct (next_answer w) as [r rest]. simpl in Hid. subst r. reflexivity. }
  rewrite Hue. reflexivity.
Qed.

Lemma create_user_existing_account_witness :
  create_user (of_config ∅) "alice" None settled_world
  = (Ret (false, "alice", EmptyString),
     set_printed (printed settled_world ++ [UserAlreadyExists "alice"])
       (ran (Process ["id"; "alice"] EmptyString (Some 0)) settled_world)).
Proof.
  apply (create_user_existing_account (of_config ∅) "alice" None settled_world
           EmptyString EmptyString 0); reflexivity.
Defined.

(** X8.  A [delete_user] that returns [True] has run exactly two
    commands, both exiting with status 0: the [id] probe and [userdel],
    with [-r] exactly when [remove_home] is set. *)
Theorem delete_user_commands (self : FTPUserManager.t) (username : string)
    (remove_home : bool) (w w' : world) :
  delete_user self username remove_home w = (Ret true, w') ->
  spawned w'
  = spawned w ++ [ Process ["id"; username] EmptyString (Some 0);
                   Process (if remove_home then ["userdel"; "-r"; username]
                            else ["userdel"; username]) EmptyString (Some 0) ].
Proof.
  intros H. apply delete_user_success_inv in H as (ul & _ & S & _).
  rewrite S. now destruct remove_home.
Qed.

Lemma delete_user_commands_witness :
  spawned (after (delete_user (of_config ∅) "alice" false) settled_world)
  = spawned settled_world
    ++ [ Process ["id"; "alice"] EmptyString (Some 0);
         Process ["userdel"; "alice"] EmptyString (Some 0) ].
Proof.
  apply (delete_user_commands (of_config ∅) "alice" false settled_world).
  apply run_outcome. reflexivity.
Defined.

(** X9.  [delete_user] writes nothing unless it returns [True]: when the
    account does not exist, when [userdel] fails, and when an exception
    escapes, every file is as it was. *)
Theorem delete_user_failure_keeps_files (self : FTPUserManager.t) (username : string)
    (remove_home : bool) (w : world) :
  outcome (delete_user self username remove_home) w <> Ret true ->
  files (after (delete_user self username remove_home) w) = files w.
Proof.
  unfold outcome, after.
  destruct (delete_user self username remove_home w) as [r w'] eqn:H. cbn [fst snd].
  intros Hr. unfold delete_user in H.
  unfold bind at 1 in H.
  destruct (user_exists username w) as [[present|e] w1] eqn:Hue.
  2:{ inversion H; subst. kept files in Hue as F1 by quiet. exact F1. }
  kept files in Hue as F1 by quiet.
  destruct present; cbn [negb] in H;
    [|unfold bind, print, ret in H; inversion H; subst; exact F1].
  unfold bind at 1 in H. unfold print at 1 in H. cbn beta iota in H.
  unfold try_ in H. unfold bind at 1 in H.
  match type of H with context [run_checked ?c ?x] =>
    destruct (run_checked c x) as [[[]|e] w2] eqn:Hrun
  end.
  2:{ kept files in Hrun as F2 by quiet.
      destruct e; unfold bind, print, ret in H; inversion H; subst;
        cbn [files set_printed] in *; congruence. }
  kept files in Hrun as F2 by quiet.
  unfold bind at 1 in H. unfold print at 1 in H. cbn beta iota in H.
  unfold Path in H.
  destruct (as_path (dict_get (ftp_config self) "allowed_users_file"
                              (VStr "/etc/vsftpd.userlist")))
    as [ul|].
  2:{ unfold bind, raise in H; inversion H; subst;
        cbn [files set_printed] in *; congruence. }
  exfalso. apply Hr.
  unfold bind, ret, exists_, read_text, write_text, print in H.
  cbn [files set_printed] in H.
  destruct (files w2 !! ul) as [f|] eqn:Hf.
  - rewrite bool_decide_eq_true_2 in H by eauto.
    cbn [files set_printed] in H. rewrite Hf in H. now inversion H.
  - rewrite bool_decide_eq_false_2 in H by (intros [? ?]; congruence).
    now inversion H.
Qed.

Lemma delete_user_failure_keeps_files_witness :
  files (after (delete_user (of_config ∅) "alice" true) userdel_fails) = files userdel_fails.
Proof.
  apply (delete_user_failure_keeps_files (of_config ∅) "alice" true userdel_fails).
  discriminate.
Defined.

Section Confined.
Context (Pp : process -> Prop) (Pm : message -> Prop).

Lemma confined_keeps {A} (m : M A) :
  keeps spawned m -> keeps printed m -> confined Pp Pm m.
Proof.
  intros Ks Kp w. exists [], []. rewrite !app_nil_r, Ks, Kp. auto.
Qed.

Lemma confined_ret {A} (a : A) : confined Pp Pm (ret a).
Proof. apply confined_keeps; intros w; reflexivity. Qed.

Lemma confined_raise {A} e : confined Pp Pm (@raise A e).
Proof. apply confined_keeps; intros w; reflexivity. Qed.

Lemma confined_after {A B} (m : M A) (k : world -> result B * world) w :
  confined Pp Pm m ->
  (exists ps ms, spawned (snd (k (snd (m w)))) = spawned (snd (m w)) ++ ps
                 /\ printed (snd (k (snd (m w)))) = printed (snd (m w)) ++ ms
                 /\ Forall Pp ps /\ Forall Pm ms) ->
  exists ps ms, spawned (snd (k (snd (m w)))) = spawned w ++ ps
                /\ printed (snd (k (snd (m w)))) = printed w ++ ms
                /\ Forall Pp ps /\ Forall Pm ms.
Proof.
  intros Hm (ps2 & ms2 & S2 & P2 & Fp2 & Fm2).
  destruct (Hm w) as (ps1 & ms1 & S1 & P1 & Fp1 & Fm1).
  exists (ps1 ++ ps2), (ms1 ++ ms2).
  rewrite S2, P2, S1, P1, !app_assoc. repeat split; apply Forall_app; auto.
Qed.

Lemma confined_bind {A B} (m : M A) (k : A -> M B) :
  confined Pp Pm m -> (forall a, confined Pp Pm (k a)) -> confined Pp Pm (bind m k).
Proof.
  intros Hm Hk w. unfold bind.
  destruct (m w) as [[a|e] w1] eqn:Hw.
  - pose proof (confined_after m (k a) w Hm) as H. rewrite Hw in H. apply H, Hk.
  - specialize (Hm w). now rewrite Hw in Hm.
Qed.

Lemma confined_bind_ret {A B} (Q : A -> Prop) (m : M A) (k : A -> M B) :
  confined Pp Pm m -> (forall w a w', m w = (Ret a, w') -> Q a) ->
  (forall a, Q a -> confined Pp Pm (k a)) -> confined Pp Pm (bind m k).
Proof.
  intros Hm HQ Hk w. unfold bind.
  destruct (m w) as [[a|e] w1] eqn:Hw.
  - pose proof (confined_after m (k a) w Hm) as H. rewrite Hw in H.
    apply H, Hk, (HQ w a w1 Hw).
  - specialize (Hm w). now rewrite Hw in Hm.
Qed.

Lemma confined_try {A} (m : M A) h :
  confined Pp Pm m -> (forall e k, h e = Some k -> confined Pp Pm k) ->
  confined Pp Pm (try_ m h).
Proof.
  intros Hm Hh w. unfold try_.
  destruct (m w) as [[a|e] w1] eqn:Hw.
  - specialize (Hm w). now rewrite Hw in Hm.
  - destruct (h e) as [k|] eqn:He.
    + pose proof (confined_after m k w Hm) as H. rewrite Hw in H. apply H, (Hh e k He).
    + specialize (Hm w). now rewrite Hw in Hm.
Qed.

Lemma confined_if {A} (b : bool) (m1 m2 : M A) :
  confined Pp Pm m1 -> confined Pp Pm m2 -> confined Pp Pm (if b then m1 else m2).
Proof. now destruct b. Qed.

Lemma confined_print msg : Pm msg -> confined Pp Pm (print msg).
Proof.
  intros H w. exists [], [msg]. rewrite app_nil_r. repeat split; auto.
Qed.

Lemma confined_subprocess_run cmd input timeout :
  (forall st, Pp (Process cmd input st)) ->
  confined Pp Pm (subprocess_run cmd input timeout).
Proof.
  intros H w. unfold subprocess_run. destruct cmd as [|c cmd].
  { exists [], []. rewrite !app_nil_r. auto. }
  destruct (next_answer w) as [[rc out err secs|why] rest].
  - destruct timeout as [t|]; [destruct (t <? secs)|];
      (eexists [_], []; rewrite app_nil_r; repeat split; [repeat constructor; apply H|auto]).
  - exists [], []. rewrite !app_nil_r. auto.
Qed.

Lemma confined_run_checked cmd :
  (forall st, Pp (Process cmd EmptyString st)) -> confined Pp Pm (run_checked cmd).
Proof.
  intros H. apply confined_bind; [now apply confined_subprocess_run|].
  intros r. apply confined_if; [apply confined_ret | apply confined_raise].
Qed.

Lemma confined_user_exists name :
  (forall st, Pp (Process ["id"; name] EmptyString st)) -> confined Pp Pm (user_exists name).
Proof.
  intros H. apply confined_try.
  - apply confined_bind; [now apply confined_run_checked | intros; apply confined_ret].
  - intros e k He. destruct e; inversion He; subst. apply confined_ret.
Qed.

Lemma confined_chpasswd name password :
  (forall input st, Pp (Process ["chpasswd"] input st)) ->
  confined Pp Pm (chpasswd name password).
Proof.
  intros H. apply confined_bind; [apply confined_subprocess_run; intros; apply H|].
  intros r. apply confined_if; [apply confined_raise | apply confined_ret].
Qed.

End Confined.

Lemma confined_spawned_by {A} Pp Pm (m : M A) w :
  confined Pp Pm m -> Forall Pp (spawned_by m w) /\ Forall Pm (printed_by m w).
Proof.
  intros H. destruct (H w) as (ps & ms & S & P & Fp & Fm).
  unfold spawned_by, printed_by, after. rewrite S, P, !drop_app_length. auto.
Qed.

(** The structural steps of a proof that a computation is confined. *)
Ltac confined_steps call :=
  repeat first
    [ call
    | apply confined_ret | apply confined_raise
    | apply confined_bind; [|intros ?]
    | apply confined_if
    | apply confined_try; [| let e := fresh "e" in let k := fresh "k" in let H := fresh "H" in
                             intros e k H; destruct e; simpl in H;
                             try discriminate; inversion H; subst; clear H ]
    | match goal with
      | |- confined _ _ (match ?v with _ => _ end) => destruct v
      | |- confined _ _ (let (_, _) := ?v in _) => destruct v
      end ].

(** A step that spawns and prints nothing. *)
Ltac silent tac := apply confined_keeps; tac.

Lemma confined_password_or_generated Pp Pm self password :
  confined Pp Pm (password_or_generated self password).
Proof.
  apply confined_keeps; destruct password; simpl;
    first [apply keeps_ret | apply keeps_generate, keeps_draw; untouched].
Qed.

Lemma confined_log_credentials Pp Pm self username password :
  (forall path, Pm (CredentialsSaved path)) -> (forall why, Pm (FailedToLogCredentials why)) ->
  confined Pp Pm (_log_credentials self username password).
Proof.
  intros H1 H2. unfold _log_credentials.
  confined_steps ltac:(first
    [ apply confined_print; first [apply H1 | apply H2]
    | silent ltac:(first [ apply keeps_Path | apply keeps_syscall | apply keeps_exists
                         | apply keeps_append_text | apply keeps_chmod_file
                         | apply keeps_strftime_now
                         | let w := fresh "w" in intros w; destruct (log_fault w); reflexivity ];
                   untouched) ]).
Qed.

(** X10.  Whatever happens, [change_password] runs no command but
    [id <username>] and [chpasswd], and changes no file but the credential
    log. *)
Theorem change_password_is_confined (self : FTPUserManager.t) (username : string)
    (new_password : option string) (w : world) :
  let m := change_password self username new_password in
  (forall p, In p (spawned_by m w) -> argv p = ["id"; username] \/ argv p = ["chpasswd"])
  /\ (forall path,
        as_path (dict_get (logging_config self) "credentials_file" (VStr "/root/.ftp_credentials.csv"))
        <> Some path ->
        files (after m w) !! path = files w !! path).
Proof.
  intros m. split.
  - apply List.Forall_forall.
    refine (proj1 (confined_spawned_by _ (fun _ => True) m w _)).
    unfold m, change_password.
    fold (password_or_generated self new_password).
    confined_steps ltac:(first
      [ apply confined_user_exists; intros; now left
      | apply confined_chpasswd; intros; now right
      | apply confined_print; exact I
      | apply confined_password_or_generated
      | apply confined_log_credentials; intros; exact I ]).
  - intros path Hne. unfold after.
    change (file_at path (snd (m w)) = file_at path w).
    revert w. change (keeps (file_at path) m).
    unfold m, change_password.
    keeps_steps ltac:(first [ apply log_credentials_elsewhere; exact Hne | quiet ]).
Qed.

(** X11.  A [change_password] that returns success has run exactly two
    commands, both exiting with status 0: the [id] probe and [chpasswd],
    fed [<username>:<password>] with the very password it returns, which
    is the caller's when one was given. *)
Theorem change_password_commands (self : FTPUserManager.t) (username : string)
    (new_password : option string) (w w' : world) (p : string) :
  change_password self username new_password w = (Ret (true, p), w') ->
  spawned w'
  = spawned w ++ [ Process ["id"; username] EmptyString (Some 0);
                   Process ["chpasswd"] (chpasswd_input username p) (Some 0) ]
  /\ (forall q, new_password = Some q -> p = q).
Proof.
  intros H. unfold change_password in H.
  step H as present w1 Hue. apply user_exists_Ret in Hue as (rc & Hrc & ->).
  destruct present; cbn [negb] in H; [|unfold bind, print, ret in H; discriminate].
  assert (rc = 0) as -> by (symmetry in Hrc; now apply Z.eqb_eq in Hrc).
  fold (password_or_generated self new_password) in H.
  step H as pw w2 Hpw.
  pose proof (password_or_generated_keeps spawned _ _ _ _ _ ltac:(untouched) Hpw) as S2.
  step H as [] w3 Hpr. unfold print in Hpr. inversion Hpr; subst w3; clear Hpr.
  apply try_Ret_inv in H as [H | (e & w4 & k & _ & Hh & Hk)].
  2:{ destruct e; simpl in Hh; inversion Hh; subst k; clear Hh.
      unfold bind, print, ret in Hk. discriminate. }
  step H as [] w4 Hch. unfold chpasswd in Hch.
  step Hch as r w5 Hrun.
  apply subprocess_run_Ret in Hrun as (rc & out & err & -> & ->). cbn [fst] in Hch.
  destruct (Z.eqb_spec rc 0) as [->|]; [|discriminate].
  unfold ret in Hch. inversion Hch; subst w4; clear Hch.
  step H as [] w6 Hpr. unfold print in Hpr. inversion Hpr; subst w6; clear Hpr.
  step H as [] w7 Hlog. kept spawned in Hlog as S7 by unwritten.
  unfold ret in H. inversion H; subst pw w7; clear H.
  split.
  - rewrite S7. cbn [spawned set_printed]. rewrite spawned_ran. cbn [spawned set_printed].
    rewrite S2, spawned_ran. now rewrite <- app_assoc.
  - intros q ->. exact (password_or_generated_given _ _ _ _ _ Hpw).
Qed.

Lemma change_password_commands_witness :
  spawned (after (change_password (of_config ∅) "alice" (Some "s3cret")) settled_world)
  = spawned settled_world
    ++ [ Process ["id"; "alice"] EmptyString (Some 0);
         Process ["chpasswd"] (chpasswd_input "alice" "s3cret") (Some 0) ]
  /\ (forall q, Some "s3cret" = Some q -> "s3cret" = q).
Proof.
  apply (change_password_commands (of_config ∅) "alice" (Some "s3cret") settled_world).
  apply run_outcome. reflexivity.
Defined.

Lemma user_exists_absent username w rc out err seconds :
  fst (next_answer w) = Exits rc out err seconds -> rc <> 0 ->
  user_exists username w
  = (Ret false, ran (Process ["id"; username] EmptyString (Some rc)) w).
Proof.
  intros Hid Hrc.
  unfold user_exists, try_, run_checked, bind, subprocess_run, ran.
  destruct (next_answer w) as [r rest]. simpl in Hid. subst r. cbn [fst snd].
  destruct (Z.eqb_spec rc 0); [contradiction | reflexivity].
Qed.

(** X12.  For an account whose [id] probe exits with a non-zero status,
    [delete_user] returns [False] and [change_password] returns
    [(False, '')], each after that one command and one message: no other
    command is run, no password is generated, and no file is touched. *)
Theorem unknown_account_is_refused (self : FTPUserManager.t) (username : string)
    (w : world) (rc : Z) (out err : string) (seconds : Z) :
  fst (next_answer w) = Exits rc out err seconds -> rc <> 0 ->
  let w' := set_printed (printed w ++ [UserDoesNotExist username])
              (ran (Process ["id"; username] EmptyString (Some rc)) w) in
  (forall remove_home, delete_user self username remove_home w = (Ret false, w'))
  /\ (forall new_password,
        change_password self username new_password w = (Ret (false, EmptyString), w')).
Proof.
  intros Hid Hrc w'. split.
  - intros remove_home. unfold delete_user. unfold bind at 1.
    rewrite (user_exists_absent username w rc out err seconds Hid Hrc). reflexivity.
  - intros new_password. unfold change_password. unfold bind at 1.
    rewrite (user_exists_absent username w rc out err seconds Hid Hrc). reflexivity.
Qed.

Lemma unknown_account_is_refused_witness :
  change_password (of_config ∅) "alice" None fresh_account
  = (Ret (false, EmptyString),
     set_printed (printed fresh_account ++ [UserDoesNotExist "alice"])
       (ran (Process ["id"; "alice"] EmptyString (Some 1)) fresh_account)).
Proof.
  apply (unknown_account_is_refused (of_config ∅) "alice" fresh_account 1
           EmptyString "id: alice: no such user" 0); [reflexivity | discriminate].
Defined.

Lemma reports_or_cleans_confined username m :
  confined (fun _ => True) expected m -> reports_or_cleans username m.
Proof.
  intros H w. destruct (H w) as (ps & ms & S & P & _ & Fm). exists ps, ms. auto.
Qed.

Lemma reports_or_cleans_bind {A} username (m : M A) k :
  confined not_userdel expected m ->
  (forall a, reports_or_cleans username (k a)) ->
  reports_or_cleans username (bind m k).
Proof.
  intros Hm Hk w. unfold bind. destruct (Hm w) as (ps1 & ms1 & S1 & P1 & Fp1 & Fm1).
  destruct (m w) as [[a|e] w1] eqn:Hw; cbn [fst snd] in *.
  - destruct (Hk a w1) as (ps2 & ms2 & S2 & P2 & Hq).
    exists (ps1 ++ ps2), (ms1 ++ ms2). rewrite S2, P2, S1, P1, !app_assoc.
    split; [reflexivity|]. split; [reflexivity|].
    destruct Hq as [Fm2|[Hr Fp2]]; [left | right; split; [exact Hr|]];
      apply Forall_app; auto.
  - exists ps1, ms1. auto.
Qed.

Lemma expected_message msg :
  match msg with UnexpectedError _ => False | _ => True end -> expected msg.
Proof. intros H e ->. exact H. Qed.

Ltac expected_print := apply confined_print; apply expected_message; exact I.

Ltac plain_call :=
  silent ltac:(first [ apply keeps_Path | apply keeps_syscall | apply keeps_exists
                     | apply keeps_append_text | apply keeps_write_text
                     | apply keeps_chmod_file | apply keeps_read_text
                     | apply keeps_getpwnam | apply keeps_strftime_now
                     | apply keeps_arguments | apply keeps_error_output ];
               untouched).

Lemma useradd_not_userdel args input st :
  not_userdel (Process ("useradd" :: args) input st).
Proof. unfold not_userdel. simpl. discriminate. Qed.

Lemma confined_cleanup Pm username : confined (fun _ => True) Pm (cleanup username).
Proof.
  unfold cleanup. apply confined_try.
  - confined_steps ltac:(first
      [ apply confined_user_exists; intros; exact I
      | apply confined_subprocess_run; intros; exact I ]).
  - intros e k H. inversion H; subst. apply confined_ret.
Qed.

Lemma create_user_body_confined self username password home dir :
  confined not_userdel expected (create_user_body self username password home dir).
Proof.
  unfold create_user_body, create_account, create_directories, add_to_allowed_users.
  apply confined_bind.
  { apply confined_bind; [expected_print|]. intros _.
    eapply confined_bind_ret with (Q := fun cmd => exists rest, cmd = "useradd" :: rest).
    - plain_call.
    - intros w cmd w' H. exact (arguments_head _ _ _ _ _ H).
    - intros cmd [rest ->].
      confined_steps ltac:(first
        [ expected_print
        | apply confined_run_checked; intros; apply useradd_not_userdel
        | apply confined_chpasswd; intros; unfold not_userdel; simpl; discriminate ]). }
  intros _.
  confined_steps ltac:(first
    [ expected_print
    | apply confined_log_credentials; intros; apply expected_message; exact I
    | plain_call ]).
Qed.

Lemma create_user_reports_or_cleans self username password :
  reports_or_cleans username (create_user self username password).
Proof.
  unfold create_user.
  destruct (validate_username username) as [valid message].
  destruct valid; cbn [negb].
  2:{ apply reports_or_cleans_confined. confined_steps expected_print. }
  apply reports_or_cleans_bind.
  { apply confined_user_exists. intros st. unfold not_userdel. simpl. discriminate. }
  intros present. destruct present.
  { apply reports_or_cleans_confined. confined_steps expected_print. }
  fold (password_or_generated self password).
  apply reports_or_cleans_bind; [apply confined_password_or_generated|]. intros pw.
  apply reports_or_cleans_bind; [plain_call|]. intros ftp_root.
  intros w. unfold try_.
  destruct (create_user_body_confined self username pw (joinpath ftp_root username)
              (joinpath (joinpath ftp_root username) "files") w)
    as (ps & ms & S & P & Fp & Fm).
  destruct (create_user_body self username pw (joinpath ftp_root username)
              (joinpath (joinpath ftp_root username) "files") w) as [[a|e] w1] eqn:Hb;
    cbn [fst snd] in *.
  { exists ps, ms. auto. }
  assert (Hcl : forall rc cmd stderr,
             confined (fun _ => True) expected
               (print (FailedToCreateUser rc cmd) ;;;
                text <- error_output stderr ;;
                print (ErrorOutput text) ;;;
                cleanup username ;;; ret (false, username, EmptyString))).
  { intros rc cmd stderr.
    confined_steps ltac:(first [ expected_print | apply confined_cleanup | plain_call ]). }
  destruct e; cbn [is_Exception].
  7:{ destruct (Hcl returncode cmd stderr w1) as (ps2 & ms2 & S2 & P2 & _ & Fm2).
      exists (ps ++ ps2), (ms ++ ms2). rewrite S2, P2, S, P, !app_assoc.
      split; [reflexivity|]. split; [reflexivity|]. left. apply Forall_app. auto. }
  8:{ exists ps, ms. auto. }
  all: exists ps; eexists (ms ++ [_]); unfold bind, print, ret; cbn [fst snd spawned printed
         set_printed]; rewrite S, P, app_assoc;
       (split; [reflexivity|]); (split; [reflexivity|]); right; auto.
Qed.

(** X13.  The cleanup of [create_user] belongs to the handler of
    [CalledProcessError] alone: a run that reports an unexpected error
    (an [OSError] from a directory call, a [KeyError] from the password
    database, a [TypeError] from a setting of the wrong type) returns
    [(False, username, '')] without having run [userdel], so that an
    account [useradd] has created by then stays. *)
Theorem unexpected_error_skips_cleanup (self : FTPUserManager.t) (username : string)
    (password : option string) (w : world) (e : exn) :
  let m := create_user self username password in
  In (UnexpectedError e) (printed_by m w) ->
  outcome m w = Ret (false, username, EmptyString)
  /\ runs_of "userdel" (spawned_by m w) = 0%nat.
Proof.
  intros m Hin.
  destruct (create_user_reports_or_cleans self username password w)
    as (ps & ms & S & P & Hq).
  fold m in S, P, Hq.
  rewrite (printed_by_trace m w ms P) in Hin. rewrite (spawned_by_trace m w ps S).
  destruct Hq as [Fm|[Hr Fp]].
  - exfalso. rewrite List.Forall_forall in Fm. exact (Fm _ Hin e eq_refl).
  - split; [exact Hr|].
    unfold runs_of. clear -Fp. induction Fp as [|p ps Hp _ IH]; [reflexivity|].
    simpl. destruct (String.eqb_spec (program p) "userdel"); [contradiction | exact IH].
Qed.

Lemma unexpected_error_skips_cleanup_witness :
  outcome (create_user (of_config ∅) "alice" (Some "s3cret")) no_room
  = Ret (false, "alice", EmptyString)
  /\ runs_of "userdel"
       (spawned_by (create_user (of_config ∅) "alice" (Some "s3cret")) no_room) = 0%nat.
Proof.
  apply (unexpected_error_skips_cleanup (of_config ∅) "alice" (Some "s3cret") no_room
           (OSError "directory call failed")).
  vm_compute. tauto.
Defined.

Section Raises.
Context (P : exn -> Prop).

Lemma raises_ret {A} (a : A) : raises P (ret a).
Proof. intros w e w' H. discriminate. Qed.

Lemma raises_raise {A} e : P e -> raises P (@raise A e).
Proof. intros He w e' w' H. inversion H. now subst. Qed.

Lemma raises_bind {A B} (m : M A) (k : A -> M B) :
  raises P m -> (forall a, raises P (k a)) -> raises P (bind m k).
Proof.
  intros Hm Hk w e w' H. unfold bind in H.
  destruct (m w) as [[a|e1] w1] eqn:Hw.
  - exact (Hk a w1 e w' H).
  - inversion H; subst. exact (Hm w e w' Hw).
Qed.

Lemma raises_if {A} (b : bool) (m1 m2 : M A) :
  raises P m1 -> raises P m2 -> raises P (if b then m1 else m2).
Proof. now destruct b. Qed.

Lemma raises_try {A} (Q : exn -> Prop) (m : M A) h :
  raises Q m ->
  (forall e, Q e -> match h e with Some k => raises P k | None => P e end) ->
  raises P (try_ m h).
Proof.
  intros Hm Hh w e w' H. unfold try_ in H.
  destruct (m w) as [[a|e1] w1] eqn:Hw; [discriminate|].
  specialize (Hh e1 (Hm w e1 w1 Hw)).
  destruct (h e1) as [k|].
  - exact (Hh w1 e w' H).
  - inversion H; now subst.
Qed.

Lemma raises_impl {A} (Q : exn -> Prop) (m : M A) :
  raises Q m -> (forall e, Q e -> P e) -> raises P m.
Proof. intros Hm HQ w e w' H. exact (HQ e (Hm w e w' H)). Qed.

Lemma raises_print msg : raises P (print msg).
Proof. intros w e w' H. discriminate. Qed.

End Raises.

(** The structural steps of a proof about the exceptions of a computation. *)
Ltac raises_steps call :=
  repeat first
    [ call
    | apply raises_ret | apply raises_print
    | apply raises_bind; [|intros ?]
    | apply raises_if
    | match goal with
      | |- raises _ (match ?v with _ => _ end) => destruct v
      | |- raises _ (let (_, _) := ?v in _) => destruct v
      end ].

Lemma raises_draw P : raises P draw.
Proof. intros w e w' H. unfold draw in H. destruct (entropy w); discriminate. Qed.

Lemma raises_choice pool : raises policy_error (choice pool).
Proof.
  destruct pool as [|c0 rest]; [apply raises_raise; now right|].
  unfold choice, randbelow. raises_steps ltac:(apply raises_draw).
Qed.

Lemma raises_append_choices n pool : forall pcs, raises policy_error (append_choices n pool pcs).
Proof.
  induction n as [|n IH]; intros pcs; simpl; [apply raises_ret|].
  apply raises_bind; [apply raises_choice | intros; apply IH].
Qed.

Lemma raises_shuffle P x : raises P (shuffle x).
Proof.
  intros w e w' H. destruct (shuffle_spec x w) as (x' & w1 & Hs & _). congruence.
Qed.

Lemma raises_range v : raises policy_error (range v).
Proof.
  unfold range. destruct (index v); [apply raises_ret | apply raises_raise; now left].
Qed.

Lemma raises_generate self : raises policy_error (PasswordGenerator.generate self).
Proof.
  unfold PasswordGenerator.generate, PasswordGenerator.lowercase_block,
    PasswordGenerator.uppercase_block, PasswordGenerator.digits_block,
    PasswordGenerator.special_block, PasswordGenerator.fill_block.
  raises_steps ltac:(first [ apply raises_range | apply raises_append_choices
                           | apply raises_shuffle | apply raises_raise; now left ]).
Qed.

(** X14.  [generate] fails in two ways only: with a [TypeError], or with
    the [IndexError] of a choice from an empty sequence; and it fails only
    on a policy that is not well-formed. *)
Theorem generate_failure_modes (policy : gmap string value) (w : world) (e : exn) :
  let self := PasswordGenerator.init policy in
  outcome (PasswordGenerator.generate self) w = Raise e ->
  (e = TypeError \/ e = IndexError "Cannot choose from an empty sequence")
  /\ well_formed self = false.
Proof.
  intros self H. split.
  - unfold outcome in H.
    destruct (PasswordGenerator.generate self w) as [r w'] eqn:Hg. simpl in H. subst r.
    exact (raises_generate self w e w' Hg).
  - destruct (well_formed self) eqn:Hwf; [|reflexivity].
    destruct (generate_returns self w Hwf) as [pw Hpw]. congruence.
Qed.

Lemma generate_failure_modes_witness :
  (TypeError = TypeError \/ TypeError = IndexError "Cannot choose from an empty sequence")
  /\ well_formed (PasswordGenerator.init {[ "length" := VStr "16" ]}) = false.
Proof.
  apply (generate_failure_modes {[ "length" := VStr "16" ]} quiet_world TypeError).
  reflexivity.
Defined.

Lemma raises_subprocess_run c args input :
  raises (fun e => exists why, e = OSError why) (subprocess_run (c :: args) input None).
Proof.
  intros w e w' H. unfold subprocess_run in H.
  destruct (next_answer w) as [[rc out err secs|why] rest]; inversion H. eauto.
Qed.

Lemma raises_user_exists username :
  raises (fun e => exists why, e = OSError why) (user_exists username).
Proof.
  unfold user_exists.
  apply raises_try with (Q := fun e => (exists why, e = OSError why)
                                       \/ exists rc cmd stderr,
                                            e = CalledProcessError rc cmd stderr).
  - unfold run_checked.
    raises_steps ltac:(first
      [ eapply raises_impl; [apply raises_subprocess_run | intros; now left]
      | apply raises_raise; right; eauto ]).
  - intros e [[why ->]|(rc & cmd & stderr & ->)]; simpl; [eauto | apply raises_ret].
Qed.

Lemma raises_cleanup P username : raises P (cleanup username).
Proof.
  intros w e w' H. destruct (cleanup_trace username w _ _ H) as [Hr _]. discriminate.
Qed.

Lemma bind_Raise_inv {A B} (m : M A) (k : A -> M B) w e w' :
  bind m k w = (Raise e, w') ->
  m w = (Raise e, w') \/ exists a w1, m w = (Ret a, w1) /\ k a w1 = (Raise e, w').
Proof.
  unfold bind. destruct (m w) as [[a|e1] w1]; intros H; [right; eauto | left].
  inversion H. reflexivity.
Qed.

Lemma unexpected_ordinary e : unexpected e -> ordinary e.
Proof. now destruct e. Qed.

Lemma raises_syscall c : raises unexpected (syscall_ c).
Proof.
  intros w e w' H. unfold syscall_ in H.
  destruct (dir_fault w) as [[|k]|]; inversion H. exact I.
Qed.

Lemma raises_arguments vs : raises unexpected (arguments vs).
Proof. intros w e w' H. apply arguments_Raise in H. subst. exact I. Qed.

Lemma raises_Path v : raises unexpected (Path v).
Proof.
  unfold Path. destruct (as_path v); [apply raises_ret | apply raises_raise; exact I].
Qed.

Lemma raises_getpwnam name : raises unexpected (getpwnam name).
Proof. intros w e w' H. unfold getpwnam in H. destruct (passwd w); inversion H. exact I. Qed.

Lemma raises_exists P path : raises P (exists_ path).
Proof. intros w e w' H. discriminate. Qed.

Lemma raises_read_text path : raises unexpected (read_text path).
Proof.
  intros w e w' H. unfold read_text in H. destruct (files w !! path); inversion H.
  exact I.
Qed.

Lemma raises_append_text P path text : raises P (append_text path text).
Proof. intros w e w' H. discriminate. Qed.

Lemma raises_write_text P path text : raises P (write_text path text).
Proof. intros w e w' H. discriminate. Qed.

Lemma raises_chmod_file path perm : raises unexpected (chmod_file path perm).
Proof.
  intros w e w' H. unfold chmod_file in H. destruct (files w !! path); inversion H.
  exact I.
Qed.

Lemma raises_strftime_now P : raises P strftime_now.
Proof. intros w e w' H. discriminate. Qed.

Lemma raises_run_ordinary cmd input : raises ordinary (subprocess_run cmd input None).
Proof.
  intros w e w' H. unfold subprocess_run in H. destruct cmd as [|c cmd].
  - inversion H. reflexivity.
  - destruct (next_answer w) as [[rc out err secs|why] rest]; inversion H. reflexivity.
Qed.

(** The calls that raise no [CalledProcessError]. *)
Ltac unexpected_call :=
  first [ apply raises_syscall | apply raises_arguments | apply raises_Path
        | apply raises_getpwnam | apply raises_exists | apply raises_read_text
        | apply raises_append_text | apply raises_write_text | apply raises_chmod_file
        | apply raises_strftime_now ].

Ltac ordinary_call :=
  first [ eapply raises_impl; [unexpected_call | exact unexpected_ordinary]
        | apply raises_run_ordinary
        | apply raises_raise; reflexivity ].

Lemma raises_log_credentials self username password :
  raises unexpected (_log_credentials self username password).
Proof.
  unfold _log_credentials.
  raises_steps unexpected_call.
  all: apply raises_try with (Q := unexpected);
    [ raises_steps ltac:(first
        [ unexpected_call
        | let w := fresh "w" in let e := fresh "e" in let w' := fresh "w'" in
          let H := fresh "H" in
          intros w e w' H; destruct (log_fault w); inversion H; exact I ])
    | intros e He; destruct e; first [apply raises_print | exact He] ].
Qed.

(** What follows the account in the body of the [try] statement runs no
    command, and so raises no [CalledProcessError]. *)
Lemma raises_after_account self username password home dir :
  raises unexpected
    (create_directories username home dir ;;;
     FTPUserManager.add_to_allowed_users self username ;;;
     FTPUserManager._log_credentials self username password ;;;
     print (CreatedSuccessfully username) ;;;
     ret (true, username, password)).
Proof.
  unfold create_directories, add_to_allowed_users.
  raises_steps ltac:(first [ unexpected_call | apply raises_log_credentials ]).
Qed.

Lemma raises_create_user_body self username password home dir :
  raises ordinary (create_user_body self username password home dir).
Proof.
  unfold create_user_body, create_account, create_directories, add_to_allowed_users,
    run_checked, chpasswd.
  raises_steps ltac:(first
    [ ordinary_call
    | eapply raises_impl; [apply raises_log_credentials | exact unexpected_ordinary] ]).
Qed.

(** The [try] statement of [create_user] lets one exception through: the
    [UnicodeDecodeError] of an error output of [useradd] that its first
    handler cannot decode. *)
Lemma create_user_try_raises self username password home dir w e w' :
  try_ (create_user_body self username password home dir)
       (fun e => match e with
                 | CalledProcessError rc cmd stderr =>
                     Some (print (FailedToCreateUser rc cmd) ;;;
                           text <- error_output stderr ;;
                           print (ErrorOutput text) ;;;
                           cleanup username ;;;
                           ret (false, username, EmptyString))
                 | _ =>
                     if is_Exception e
                     then Some (print (UnexpectedError e) ;;;
                                ret (false, username, EmptyString))
                     else None
                 end) w = (Raise e, w') ->
  exists bytes rc args,
    e = UnicodeDecodeError bytes
    /\ utf8 [] (chars bytes) = false
    /\ rc <> 0
    /\ trace w w' [Process ("useradd" :: args) EmptyString (Some rc)]
                  [CreatingUser username; FailedToCreateUser rc ("useradd" :: args)].
Proof.
  unfold try_.
  destruct (create_user_body self username password home dir w) as [[a|e0] w1] eqn:Hb;
    [discriminate|].
  pose proof (raises_create_user_body _ _ _ _ _ _ _ _ Hb) as Hord.
  destruct e0; try discriminate Hord; cbn [is_Exception];
    try (unfold bind, print, ret; discriminate).
  intros H.
  apply report_trace in H as [(Hr & _)|(bytes & -> & Hr & Hutf & T4)]; [discriminate|].
  inversion Hr; subst e; clear Hr.
  unfold create_user_body in Hb.
  apply bind_Raise_inv in Hb as [Hb|([] & w2 & _ & Hb)].
  2:{ exfalso. exact (raises_after_account _ _ _ _ _ _ _ _ Hb). }
  apply create_account_trace in Hb
    as [(rc & args & err & Heq & Hrc & T3)|[(rc & ps & Heq & _)|(Hnot & _)]].
  - inversion Heq; subst. exists err, rc, args.
    repeat split; try assumption;
      destruct (trace_trans _ _ _ _ _ _ _ T3 T4) as [S P F]; assumption.
  - discriminate.
  - exfalso. eapply Hnot. reflexivity.
Qed.

(** X15.  No [CalledProcessError] and no error of a directory, file or
    password-database call escapes [create_user].  The exceptions it lets
    through are the [OSError] of an [id] probe that cannot be run and the
    [TypeError] or [IndexError] of a password policy or an [ftp_root] it
    cannot use, all of them raised before the account is touched
    ([useradd] has not run); and the [UnicodeDecodeError] of the handler
    of [CalledProcessError], when [useradd] has failed with an error
    output that is not UTF-8: then [useradd] has run once, and neither
    [chpasswd] nor the cleanup [userdel] has.  Either way no file has
    changed. *)
Theorem create_user_escapes (self : FTPUserManager.t) (username : string)
    (password : option string) (w : world) (e : exn) :
  let m := create_user self username password in
  outcome m w = Raise e ->
  ((((exists why, e = OSError why) \/ e = TypeError
     \/ e = IndexError "Cannot choose from an empty sequence")
    /\ runs_of "useradd" (spawned_by m w) = 0%nat)
   \/ (exists bytes, e = UnicodeDecodeError bytes
                     /\ utf8 [] (chars bytes) = false
                     /\ existsb account_failure (spawned_by m w) = true
                     /\ runs_of "useradd" (spawned_by m w) = 1%nat
                     /\ runs_of "chpasswd" (spawned_by m w) = 0%nat
                     /\ runs_of "userdel" (spawned_by m w) = 0%nat))
  /\ files (after m w) = files w.
Proof.
  intros m. unfold outcome, after, spawned_by, after.
  destruct (m w) as [r w'] eqn:H. cbn [fst snd]. intros ->.
  unfold m, create_user in H.
  destruct (validate_username username) as [valid message].
  destruct valid; cbn [negb] in H; [|unfold bind, print, ret in H; discriminate].
  apply bind_Raise_inv in H as [H|(present & w1 & Hue & H)].
  { pose proof (raises_user_exists username w e w' H) as He.
    apply user_exists_trace in H as [(? & ? & ? & _)|(why & _ & [S _ F])]; [discriminate|].
    split; [left; split; [now left|]|exact F]. now rewrite S, app_nil_r, drop_all. }
  apply user_exists_Ret in Hue as (rc & _ & ->).
  destruct present; [unfold bind, print, ret in H; discriminate|].
  fold (password_or_generated self password) in H.
  assert (Hid : forall w2, spawned w2 = spawned (ran (Process ["id"; username] EmptyString
                                                          (Some rc)) w) ->
                runs_of "useradd" (drop (List.length (spawned w)) (spawned w2)) = 0%nat).
  { intros w2 ->. rewrite spawned_ran, drop_app_length. reflexivity. }
  apply bind_Raise_inv in H as [H|(pw & w2 & Hpw & H)].
  { split.
    - left. split.
      + right. destruct password; [discriminate|].
        exact (raises_generate _ _ _ _ H).
      + apply Hid. destruct password; [discriminate|].
        exact (keeps_result spawned _ _ _ _
                 ltac:(apply keeps_generate, keeps_draw; untouched) H).
    - destruct password; [discriminate|].
      exact (keeps_result files _ _ _ _
               ltac:(apply keeps_generate, keeps_draw; untouched) H). }
  pose proof (password_or_generated_keeps spawned _ _ _ _ _ ltac:(untouched) Hpw) as S2.
  pose proof (password_or_generated_keeps files _ _ _ _ _ ltac:(untouched) Hpw) as F2.
  apply bind_Raise_inv in H as [H|(ftp_root & w3 & Hroot & H)].
  { unfold Path in H.
    destruct (as_path (dict_get (ftp_config self) "ftp_root" (VStr "/srv/ftp")));
      unfold ret, raise in H; inversion H; subst.
    split; [left; split; [right; now left | now apply Hid] | exact F2]. }
  unfold Path in Hroot.
  destruct (as_path (dict_get (ftp_config self) "ftp_root" (VStr "/srv/ftp")))
    as [root|]; [|discriminate].
  unfold ret in Hroot. inversion Hroot; subst ftp_root w3; clear Hroot.
  apply create_user_try_raises in H as (bytes & rc' & args & -> & Hutf & Hrc' & [S P F]).
  split; [right; exists bytes|rewrite F, F2; reflexivity].
  rewrite S, S2, spawned_ran, <- app_assoc, drop_app_length.
  assert (Hf : (rc' =? 0) = false) by now apply Z.eqb_neq.
  unfold runs_of, account_failure, failed. simpl. rewrite Hf. repeat split. exact Hutf.
Qed.

Lemma create_user_escapes_witness :
  (((exists why, TypeError = OSError why) \/ TypeError = TypeError
    \/ TypeError = IndexError "Cannot choose from an empty sequence")
   /\ runs_of "useradd"
        (spawned_by (create_user
                       (of_config {[ "password_policy" := {[ "length" := VStr "16" ]} ]})
                       "alice" None) fresh_account) = 0%nat)
  /\ files (after (create_user
                     (of_config {[ "password_policy" := {[ "length" := VStr "16" ]} ]})
                     "alice" None) fresh_account) = files fresh_account.
Proof.
  assert (Hrun : outcome (create_user
                            (of_config {[ "password_policy" := {[ "length" := VStr "16" ]} ]})
                            "alice" None) fresh_account = Raise TypeError)
    by reflexivity.
  destruct (create_user_escapes
              (of_config {[ "password_policy" := {[ "length" := VStr "16" ]} ]})
              "alice" None fresh_account TypeError Hrun)
    as [[Hbefore|(bytes & Hb & _)] Hfiles]; [|discriminate].
  split; [exact Hbefore | exact Hfiles].
Defined.

(** X16.  Without a settings file at the given path, [ftp_users.py]
    prints one message and exits with status 1 while constructing its
    [FTPUserManager]; the two debuggers go on silently with the empty
    configuration, and the Tailscale setup goes on with it after two
    lines of warning. *)
Theorem load_config_missing (s : script) (config_file : string) (w : world) :
  settings w !! config_file = None ->
  load_config s config_file w
  = match s with
    | ftp_users =>
        (Raise (SystemExit 1), set_printed (printed w ++ [ConfigNotFound config_file]) w)
    | tailscale_setup =>
        (Ret ∅, set_printed (printed w ++ [ConfigNotFoundWarning config_file;
                                           UsingDefaultSettings]) w)
    | ftp_debug | tailscale_debug => (Ret ∅, w)
    end
  /\ FTPUserManager.init config_file w
     = (Raise (SystemExit 1), set_printed (printed w ++ [ConfigNotFound config_file]) w).
Proof.
  intros H. split.
  - destruct s; unfold load_config, FTPUserManager._load_config, FTPDebugger._load_config,
      TailscaleSetup._load_config, TailscaleDebugger._load_config; rewrite H;
      try reflexivity.
    unfold bind, print, ret. cbn [printed set_printed]. now rewrite <- app_assoc.
  - unfold FTPUserManager.init, bind, FTPUserManager._load_config. now rewrite H.
Qed.

Lemma load_config_missing_witness :
  exit_status (outcome (FTPUserManager.init "settings.json") quiet_world) = 1.
Proof.
  destruct (load_config_missing ftp_users "settings.json" quiet_world eq_refl) as [_ H].
  unfold outcome. rewrite H. reflexivity.
Defined.

(** X18.  [_log_credentials] returns normally whatever becomes of the
    log itself, provided its path is a string and its directory can be
    made.  When the log cannot be opened, it prints one warning and
    leaves every file as it was. *)
Theorem log_credentials_survives (self : FTPUserManager.t) (username password : string)
    (credentials_file : string) (w : world) :
  as_path (dict_get (logging_config self) "credentials_file" (VStr "/root/.ftp_credentials.csv"))
  = Some credentials_file ->
  dir_fault w <> Some 0%nat ->
  let m := _log_credentials self username password in
  outcome m w = Ret tt
  /\ (truthy (dict_get (logging_config self) "enabled" (VBool true)) = true ->
      forall why, log_fault w = Some why ->
        files (after m w) = files w
        /\ printed (after m w) = printed w ++ [FailedToLogCredentials why]).
Proof.
  intros Hp Hd m. unfold m, outcome, after, _log_credentials.
  rewrite (Path_as_path _ _ Hp).
  destruct (truthy (dict_get (logging_config self) "enabled" (VBool true))); cbn [negb].
  2:{ split; [reflexivity | discriminate]. }
  unfold bind, ret, syscall_, exists_, try_, append_text, strftime_now,
    chmod_file, print.
  destruct (dir_fault w) as [[|k]|]; [congruence| |];
    cbn [fst snd files log_fault set_dir_fault set_syscalls printed set_printed];
    (destruct (log_fault w) as [why|];
     [ split; [reflexivity|]; intros _ why' Hw; inversion Hw; subst; split; reflexivity |]);
    (split; [|discriminate]);
    (destruct (files w !! credentials_file) as [f|] eqn:Hf;
     [ rewrite bool_decide_eq_true_2 by eauto
     | rewrite bool_decide_eq_false_2 by (intros [? ?]; congruence) ]);
    cbn [fst snd files log_fault set_dir_fault set_syscalls set_files set_printed];
    rewrite ?Hf, ?lookup_insert_eq;
    cbn [fst snd files log_fault set_dir_fault set_syscalls set_files set_printed];
    rewrite ?lookup_insert_eq; reflexivity.
Qed.

Lemma log_credentials_survives_witness :
  outcome (_log_credentials (of_config ∅) "alice" "s3cret") read_only_log = Ret tt
  /\ (truthy (dict_get (logging_config (of_config ∅)) "enabled" (VBool true)) = true ->
      forall why, log_fault read_only_log = Some why ->
        files (after (_log_credentials (of_config ∅) "alice" "s3cret") read_only_log)
        = files read_only_log
        /\ printed (after (_log_credentials (of_config ∅) "alice" "s3cret") read_only_log)
           = printed read_only_log ++ [FailedToLogCredentials why]).
Proof.
  apply (log_credentials_survives (of_config ∅) "alice" "s3cret"
           "/root/.ftp_credentials.csv" read_only_log).
  - reflexivity.
  - discriminate.
Defined.

(* ===================================================================== *)
(** * Properties of the Tailscale setup                                  *)
(* ===================================================================== *)

Section TailscaleSetupProperties.
Import TailscaleSetupMethods.
Local Open Scope session_scope.

Section SessionComputations.
Context {N A B : Type}.
Local Open Scope session_scope.

Lemma and_then_Ret_inv (m : IO (N := N) A) (k : A -> IO B) s b s' :
  and_then m k s = (Ret b, s') ->
  exists a s1, m s = (Ret a, s1) /\ k a s1 = (Ret b, s').
Proof.
  unfold and_then. destruct (m s) as [[a|e] s1]; [|discriminate]. eauto.
Qed.

Lemma attempt_Ret_inv (m : IO (N := N) A) h s a s' :
  attempt m h s = (Ret a, s') ->
  m s = (Ret a, s')
  \/ exists e s1 k, m s = (Raise e, s1) /\ h e = Some k /\ k s1 = (Ret a, s').
Proof.
  unfold attempt. destruct (m s) as [[a1|e] s1]; [now left|].
  destruct (h e) as [k|] eqn:He; [|discriminate].
  intros H. right. now exists e, s1, k.
Qed.

Lemma lift_inv (m : M A) (s : session N) r s' :
  lift m s = (r, s') -> exists w', m (os s) = (r, w') /\ s' = set_os w' s.
Proof.
  unfold lift. destruct (m (os s)) as [r0 w']. intros H. inversion H. eauto.
Qed.

End SessionComputations.

Section Grows.
Context {N : Type}.
Local Open Scope session_scope.

Lemma grows_unit {A} (a : A) : grows (N := N) (unit_ a).
Proof. intros s. exists []. now rewrite app_nil_r. Qed.

Lemma grows_throw {A} e : grows (@throw N A e).
Proof. intros s. exists []. now rewrite app_nil_r. Qed.

Lemma grows_say (n : N) : grows (say n).
Proof. intros s. now exists [n]. Qed.

Lemma grows_lift {A} (m : M A) : grows (N := N) (lift m).
Proof.
  intros s. exists []. unfold lift. destruct (m (os s)). now rewrite app_nil_r.
Qed.

Lemma grows_sleep z : grows (@sleep N z).
Proof. intros s. exists []. now rewrite app_nil_r. Qed.

Lemma grows_geteuid : grows (@geteuid N).
Proof. intros s. exists []. now rewrite app_nil_r. Qed.

Lemma grows_write_file path text : grows (@write_file N path text).
Proof.
  intros s. exists []. unfold write_file. destruct (write_fault s); [now rewrite app_nil_r|].
  unfold lift. destruct (write_text path text (os s)). now rewrite app_nil_r.
Qed.

Lemma grows_and_then {A B} (m : IO (N := N) A) (k : A -> IO B) :
  grows m -> (forall a, grows (k a)) -> grows (and_then m k).
Proof.
  intros Hm Hk s. unfold and_then. destruct (Hm s) as [ns1 H1].
  destruct (m s) as [[a|e] s1]; cbn [snd] in *.
  - destruct (Hk a s1) as [ns2 H2]. exists (ns1 ++ ns2). now rewrite H2, H1, app_assoc.
  - now exists ns1.
Qed.

Lemma grows_attempt {A} (m : IO (N := N) A) h :
  grows m -> (forall e k, h e = Some k -> grows k) -> grows (attempt m h).
Proof.
  intros Hm Hh s. unfold attempt. destruct (Hm s) as [ns1 H1].
  destruct (m s) as [[a|e] s1]; cbn [snd] in *; [now exists ns1|].
  destruct (h e) as [k|] eqn:He; [|now exists ns1].
  destruct (Hh e k He s1) as [ns2 H2]. exists (ns1 ++ ns2). now rewrite H2, H1, app_assoc.
Qed.

Lemma grows_if {A} (b : bool) (m1 m2 : IO (N := N) A) :
  grows m1 -> grows m2 -> grows (if b then m1 else m2).
Proof. now destruct b. Qed.

(** A line that stays: once printed, it is on the console of every
    later state. *)
Lemma grows_In {A} (m : IO (N := N) A) s n :
  grows m -> In n (console s) -> In n (console (snd (m s))).
Proof. intros Hm Hin. destruct (Hm s) as [ns ->]. apply in_or_app. now left. Qed.

End Grows.

Ltac grows_steps :=
  repeat first
    [ apply grows_unit | apply grows_throw | apply grows_say | apply grows_lift
    | apply grows_sleep | apply grows_geteuid | apply grows_write_file
    | apply grows_and_then; [|intros ?]
    | apply grows_if
    | apply grows_attempt; [| let e := fresh "e" in let k := fresh "k" in
                              let H := fresh "H" in
                              intros e k H; destruct e; simpl in H;
                              try discriminate; inversion H; subst; clear H ]
    | match goal with
      | |- grows (match ?v with _ => _ end) => destruct v
      | |- grows (let (_, _) := ?v in _) => destruct v
      end ].


Lemma grows_install_tailscale : grows install_tailscale.
Proof. unfold install_tailscale. grows_steps. Qed.

Lemma grows_login_tailscale self args : grows (login_tailscale self args).
Proof. unfold login_tailscale. grows_steps. Qed.

Lemma grows_configure_exit_node self : grows (configure_exit_node self).
Proof. unfold configure_exit_node. grows_steps. Qed.

Lemma grows_enable_ip_forwarding self : grows (enable_ip_forwarding self).
Proof. unfold enable_ip_forwarding. grows_steps. Qed.

Lemma grows_verify_installation : grows verify_installation.
Proof. unfold verify_installation. grows_steps. Qed.

Lemma grows_print_summary self : grows (_print_summary self).
Proof. unfold _print_summary, show_ip, show_status. grows_steps. Qed.

Tactic Notation "stage" hyp(H) "as" simple_intropattern(a) ident(s) ident(Ha) :=
  apply and_then_Ret_inv in H as (a & s & Ha & H).

Lemma run_requires_root_free (self : TailscaleSetupMethods.t) (s : session notice) :
  euid s <> 0 ->
  run self s = (Ret false, set_console (console s ++ [Banner; MustBeRoot]) s).
Proof.
  intros Hu. unfold run, check_root, and_then, say, geteuid, unit_. cbn [euid set_console].
  destruct (Z.eqb_spec (euid s) 0) as [|_]; [contradiction|]. cbn [negb].
  unfold set_console. cbn. now rewrite <- app_assoc.
Qed.

(** X19.  Run by a user other than root, [run] of the Tailscale setup
    prints its banner and one message and returns [False]: no command is
    run, no file is written, no step is attempted. *)
Theorem run_requires_root (self : TailscaleSetupMethods.t) (s : session notice) :
  euid s <> 0 ->
  run self s = (Ret false, set_console (console s ++ [Banner; MustBeRoot]) s)
  /\ started (run self) s = [] /\ files (os (snd (run self s))) = files (os s).
Proof.
  intros Hu. unfold started. rewrite (run_requires_root_free self s Hu).
  split; [reflexivity|]. split; [|reflexivity].
  cbn. apply drop_all.
Qed.

Lemma run_requires_root_witness :
  run router (terminal 1000 broken_machine)
  = (Ret false,
     set_console (console (terminal 1000 broken_machine) ++ [Banner; MustBeRoot])
                 (terminal 1000 broken_machine))
  /\ started (run router) (terminal 1000 broken_machine) = []
  /\ files (os (snd (run router (terminal 1000 broken_machine))))
     = files (os (terminal 1000 broken_machine : session notice)).
Proof. apply (run_requires_root router (terminal 1000 broken_machine)). discriminate. Defined.

Lemma step_grows (description : string) (func : IO (N := notice) bool) (rest : IO unit) :
  grows func -> grows rest ->
  grows (ok <- func ;;
         (if negb ok then
            say (WarningAtStep description) ;;;
            if String.eqb description "Authenticating Tailscale"
            then say AuthenticateLater ;;; say SudoTailscaleUp
            else unit_ tt
          else unit_ tt) ;;;
         rest).
Proof. intros Hf Hr. grows_steps; assumption. Qed.

Lemma grows_run_steps todo :
  Forall (fun step => grows (snd step)) todo -> grows (run_steps todo).
Proof.
  induction 1 as [|[description func] rest Hf _ IH]; simpl; [apply grows_unit|].
  now apply step_grows.
Qed.

Lemma steps_grow self : Forall (fun step => grows (snd step)) (steps self).
Proof.
  unfold steps. repeat constructor; simpl.
  - apply grows_install_tailscale.
  - apply grows_enable_ip_forwarding.
  - apply grows_login_tailscale.
  - apply grows_configure_exit_node.
  - apply grows_verify_installation.
Qed.

(** The first line a computation prints stays on the console. *)
Lemma first_line_stays {A} (n : notice) (rest : IO A) s r s' :
  grows rest -> (say n ;;; rest) s = (r, s') -> In n (console s').
Proof.
  intros Hg H. unfold and_then, say in H.
  destruct (Hg (set_console (console s ++ [n]) s)) as [ns Hns].
  rewrite H in Hns. cbn [snd console set_console] in Hns. rewrite Hns.
  apply in_or_app. left. apply in_or_app. right. now left.
Qed.

(** A line on the console is there after the rest of the steps. *)
Lemma stays {A} (m : IO (N := notice) A) s r s' n :
  grows m -> m s = (r, s') -> In n (console s) -> In n (console s').
Proof.
  intros Hg H Hin. pose proof (grows_In m s n Hg Hin) as Hn. now rewrite H in Hn.
Qed.

(** A step that returned: what follows it in [run_steps]. *)
Lemma run_steps_cons description func rest s s' :
  run_steps ((description, func) :: rest) s = (Ret tt, s') ->
  exists ok s1 s2,
    func s = (Ret ok, s1)
    /\ (forall n, In n (console s1) -> In n (console s2))
    /\ run_steps rest s2 = (Ret tt, s').
Proof.
  simpl. intros H. stage H as ok s1 Hf. stage H as [] s2 Hw.
  exists ok, s1, s2. split; [exact Hf|]. split; [|exact H].
  intros n. refine (stays _ _ _ _ n _ Hw). grows_steps.
Qed.

Lemma run_ignores_root_free (self : TailscaleSetupMethods.t) (s s' : session notice)
    (b : bool) :
  euid s = 0 -> run self s = (Ret b, s') -> b = true.
Proof.
  intros Hu H. unfold run in H.
  stage H as [] s0 Hb. stage H as root s1 Hr.
  unfold check_root, and_then, geteuid, say, unit_ in Hr.
  unfold say in Hb. inversion Hb; subst s0; clear Hb. cbn [euid set_console] in Hr.
  rewrite Hu in Hr. cbn in Hr. inversion Hr; subst root s1; clear Hr.
  cbn [negb] in H. stage H as [] s2 Hsteps. stage H as [] s3 Hsum.
  unfold unit_ in H. now inversion H.
Qed.

(** X20.  Run by root, [run] never returns [False]: a step that fails
    earns a warning and the next step is taken all the same.  A run that
    returns has attempted the installation, the authentication and the
    verification, whatever each of them gave, and has printed the
    summary. *)
Theorem run_ignores_failed_steps (self : TailscaleSetupMethods.t) (s s' : session notice)
    (b : bool) :
  euid s = 0 ->
  run self s = (Ret b, s') ->
  b = true
  /\ In Installing (console s') /\ In Authenticating (console s')
  /\ In Verifying (console s') /\ In SetupComplete (console s').
Proof.
  intros Hu H. unfold run in H.
  stage H as [] s0 Hb. stage H as root s1 Hr.
  unfold check_root, and_then, geteuid, say, unit_ in Hr.
  unfold say in Hb. inversion Hb; subst s0; clear Hb. cbn [euid set_console] in Hr.
  rewrite Hu in Hr. cbn in Hr. inversion Hr; subst root s1; clear Hr.
  cbn [negb] in H. stage H as [] s2 Hsteps. stage H as [] s3 Hsum.
  unfold unit_ in H. inversion H; subst b s3; clear H.
  split; [reflexivity|].
  unfold steps in Hsteps.
  apply run_steps_cons in Hsteps as (ok1 & a1 & b1 & H1 & K1 & Hsteps).
  apply run_steps_cons in Hsteps as (ok2 & a2 & b2 & H2 & K2 & Hsteps).
  apply run_steps_cons in Hsteps as (ok3 & a3 & b3 & H3 & K3 & Hsteps).
  apply run_steps_cons in Hsteps as (ok4 & a4 & b4 & H4 & K4 & Hsteps).
  apply run_steps_cons in Hsteps as (ok5 & a5 & b5 & H5 & K5 & Hsteps).
  simpl in Hsteps. unfold unit_ in Hsteps. inversion Hsteps; subst s2; clear Hsteps.
  assert (G2 : forall n, In n (console a1) -> In n (console a2)).
  { intros n Hn. exact (stays _ _ _ _ n (grows_enable_ip_forwarding self) H2 (K1 n Hn)). }
  assert (G3 : forall n, In n (console a2) -> In n (console a3)).
  { intros n Hn. exact (stays _ _ _ _ n (grows_login_tailscale self None) H3 (K2 n Hn)). }
  assert (G4 : forall n, In n (console a3) -> In n (console a4)).
  { intros n Hn. exact (stays _ _ _ _ n (grows_configure_exit_node self) H4 (K3 n Hn)). }
  assert (G5 : forall n, In n (console a4) -> In n (console a5)).
  { intros n Hn. exact (stays _ _ _ _ n grows_verify_installation H5 (K4 n Hn)). }
  assert (G6 : forall n, In n (console a5) -> In n (console s')).
  { intros n Hn. exact (stays _ _ _ _ n (grows_print_summary self) Hsum (K5 n Hn)). }
  repeat split.
  - apply G6, G5, G4, G3, G2.
    unfold install_tailscale in H1. refine (first_line_stays _ _ _ _ _ _ H1). grows_steps.
  - apply G6, G5, G4.
    unfold login_tailscale in H3. refine (first_line_stays _ _ _ _ _ _ H3). grows_steps.
  - apply G6.
    unfold verify_installation in H5. refine (first_line_stays _ _ _ _ _ _ H5). grows_steps.
  - unfold _print_summary in Hsum. refine (first_line_stays _ _ _ _ _ _ Hsum).
    unfold show_ip, show_status. grows_steps.
Qed.

Lemma run_outcome_in_session {N A} (m : IO (N := N) A) s r :
  fst (m s) = r -> m s = (r, snd (m s)).
Proof. destruct (m s). simpl. congruence. Qed.

Lemma run_ignores_failed_steps_witness :
  true = true
  /\ In Installing (console (snd (run router (terminal 0 broken_machine))))
  /\ In Authenticating (console (snd (run router (terminal 0 broken_machine))))
  /\ In Verifying (console (snd (run router (terminal 0 broken_machine))))
  /\ In SetupComplete (console (snd (run router (terminal 0 broken_machine)))).
Proof.
  apply (run_ignores_failed_steps router (terminal 0 broken_machine)).
  - reflexivity.
  - apply run_outcome_in_session. reflexivity.
Defined.

Section Escapes.
Context {N : Type} (P : exn -> Prop).
Local Open Scope session_scope.

Lemma escapes_unit {A} (a : A) : escapes (N := N) P (unit_ a).
Proof. intros s e s' H. discriminate. Qed.

Lemma escapes_throw {A} e : P e -> escapes (N := N) (A := A) P (throw e).
Proof. intros He s e' s' H. inversion H. now subst. Qed.

Lemma escapes_say (n : N) : escapes P (say n).
Proof. intros s e s' H. discriminate. Qed.

Lemma escapes_sleep z : escapes (N := N) P (sleep z).
Proof. intros s e s' H. discriminate. Qed.

Lemma escapes_geteuid : escapes (N := N) P geteuid.
Proof. intros s e s' H. discriminate. Qed.

Lemma escapes_lift {A} (m : M A) : raises P m -> escapes (N := N) P (lift m).
Proof.
  intros Hm s e s' H. apply lift_inv in H as (w' & H & _). exact (Hm _ _ _ H).
Qed.

Lemma escapes_and_then {A B} (m : IO (N := N) A) (k : A -> IO B) :
  escapes P m -> (forall a, escapes P (k a)) -> escapes P (and_then m k).
Proof.
  intros Hm Hk s e s' H. unfold and_then in H.
  destruct (m s) as [[a|e1] s1] eqn:Hs.
  - exact (Hk a s1 e s' H).
  - inversion H; subst. exact (Hm s e s' Hs).
Qed.

Lemma escapes_if {A} (b : bool) (m1 m2 : IO (N := N) A) :
  escapes P m1 -> escapes P m2 -> escapes P (if b then m1 else m2).
Proof. now destruct b. Qed.

Lemma escapes_attempt {A} (m : IO (N := N) A) h :
  escapes P m -> (forall e k, h e = Some k -> escapes P k) -> escapes P (attempt m h).
Proof.
  intros Hm Hh s e s' H. unfold attempt in H.
  destruct (m s) as [[a|e1] s1] eqn:Hs; [discriminate|].
  destruct (h e1) as [k|] eqn:He.
  - exact (Hh e1 k He s1 e s' H).
  - inversion H; subst. exact (Hm s e s' Hs).
Qed.

End Escapes.

Lemma escapes_write_file {N} path text : escapes (N := N) ordinary (write_file path text).
Proof.
  intros s e s' H. unfold write_file in H. destruct (write_fault s).
  - inversion H. reflexivity.
  - unfold lift, write_text in H. discriminate.
Qed.

Lemma raises_try_ordinary {A} (m : M A) h :
  raises ordinary m -> (forall e k, h e = Some k -> raises ordinary k) ->
  raises ordinary (try_ m h).
Proof.
  intros Hm Hh. apply raises_try with (Q := ordinary); [exact Hm|].
  intros e He. destruct (h e) as [k|] eqn:Hk; [exact (Hh e k Hk) | exact He].
Qed.

Lemma raises_run_checked cmd : raises ordinary (run_checked cmd).
Proof.
  unfold run_checked. raises_steps ltac:(first [ apply raises_run_ordinary
                                               | apply raises_raise; reflexivity ]).
Qed.

Lemma raises_run_output cmd : raises ordinary (run_output cmd).
Proof.
  unfold run_output. raises_steps ltac:(first [ apply raises_run_ordinary
                                              | apply raises_raise; reflexivity ]).
Qed.

Lemma raises_words xs : raises ordinary (words xs).
Proof.
  induction xs as [|x xs IH]; simpl; [apply raises_ret|].
  destruct x as [v|items]; [destruct v|];
    first [ apply raises_raise; reflexivity
          | apply raises_bind; [exact IH | intros; apply raises_ret] ].
Qed.

Lemma raises_join_setting sep x : raises ordinary (join_setting sep x).
Proof.
  unfold join_setting. destruct x as [v|items]; [destruct v|];
    raises_steps ltac:(first
      [ eapply raises_impl; [apply raises_arguments | exact unexpected_ordinary]
      | apply raises_raise; reflexivity ]).
Qed.


Lemma raises_is_installed : raises ordinary is_installed.
Proof.
  unfold is_installed. apply raises_try_ordinary.
  - raises_steps ltac:(apply raises_run_checked).
  - intros e k H. destruct e; inversion H; subst. apply raises_ret.
Qed.

Lemma raises_is_logged_in : raises ordinary is_logged_in.
Proof.
  unfold is_logged_in. apply raises_try_ordinary.
  - raises_steps ltac:(apply raises_run_ordinary).
  - intros e k H. destruct (is_Exception e); inversion H; subst. apply raises_ret.
Qed.

(** The structural steps of a proof that only ordinary exceptions escape. *)
Ltac escapes_steps :=
  repeat first
    [ apply escapes_unit | apply escapes_say | apply escapes_sleep | apply escapes_geteuid
    | apply escapes_write_file
    | apply escapes_throw; reflexivity
    | apply escapes_lift;
      first [ apply raises_is_installed | apply raises_is_logged_in
            | apply raises_run_checked | apply raises_run_output
            | apply raises_run_ordinary | apply raises_words | apply raises_join_setting
            | apply raises_bind; [apply raises_words | intros; apply raises_run_checked] ]
    | apply escapes_and_then; [|intros ?]
    | apply escapes_if
    | apply escapes_attempt; [| let e := fresh "e" in let k := fresh "k" in
                                let H := fresh "H" in
                                intros e k H; destruct e; simpl in H;
                                try discriminate; inversion H; subst; clear H ]
    | match goal with
      | |- escapes _ (match ?v with _ => _ end) => destruct v
      | |- escapes _ (let (_, _) := ?v in _) => destruct v
      end ].

Lemma escapes_run_steps todo :
  Forall (fun step => escapes ordinary (snd step)) todo -> escapes ordinary (run_steps todo).
Proof.
  induction 1 as [|[description func] rest Hf _ IH]; simpl; [apply escapes_unit|].
  escapes_steps; assumption.
Qed.

Lemma escapes_run self : escapes ordinary (run self).
Proof.
  unfold run, check_root, steps, run_steps, install_tailscale, enable_ip_forwarding,
    login_tailscale, configure_exit_node, verify_installation, _print_summary, show_ip,
    show_status.
  escapes_steps.
Qed.

(** Loading the settings returns them, or raises the
    [UnicodeDecodeError] of a file that is not text. *)
Lemma load_config_ends config_file w :
  (exists cfg w', TailscaleSetup._load_config config_file w = (Ret cfg, w'))
  \/ (exists bytes w', TailscaleSetup._load_config config_file w
                       = (Raise (UnicodeDecodeError bytes), w')).
Proof.
  unfold TailscaleSetup._load_config.
  destruct (settings w !! config_file) as [[bytes|why|cfg]|]; simpl; eauto.
Qed.

(** X21.  The exit status of [tailscale_setup.py].  When [main] ends by
    [sys.exit], the status is 0 if the first argument is [-h] or [--help]
    or the user is root, and 1 otherwise -- whatever the steps of the
    setup have given.  Asked for help, it prints the usage and exits at
    once: no settings file is read and no command is run. *)
Theorem setup_exit_status (args : list string) (s : session notice) :
  (forall code, fst (main args s) = Raise (SystemExit code) ->
                code = if asks_for_help args || (euid s =? 0) then 0 else 1)
  /\ (asks_for_help args = true ->
      main args s = (Raise (SystemExit 0), set_console (console s ++ [Usage]) s)).
Proof.
  split.
  2:{ intros Hh. unfold main. destruct args as [|a rest]; [discriminate|].
      cbn [asks_for_help] in Hh. unfold and_then at 1. rewrite Hh. reflexivity. }
  intros code H. unfold main in H.
  destruct (asks_for_help args) eqn:Hh.
  { destruct args as [|a rest]; [discriminate|]. cbn [asks_for_help] in Hh.
    unfold and_then at 1 in H. rewrite Hh in H. cbn in H. now inversion H. }
  cbn [orb].
  assert (Hskip : forall (k : IO (N := notice) unit),
             ((match args with
               | a :: _ => if str_in a ["-h"; "--help"]
                           then say Usage ;;; throw (SystemExit 0)
                           else unit_ tt
               | [] => unit_ tt
               end) ;;; k) s = k s).
  { intros k. destruct args as [|a rest]; [reflexivity|]. cbn [asks_for_help] in Hh.
    unfold and_then at 1. now rewrite Hh. }
  rewrite Hskip in H. clear Hskip.
  set (config_file := match args with a :: _ => a | [] => "settings.json" end) in H.
  unfold and_then at 1 in H. unfold lift at 1, init, bind in H.
  destruct (load_config_ends config_file (os s)) as [(cfg & w' & Hl)|(bytes & w' & Hl)];
    rewrite Hl in H; [|discriminate].
  unfold ret in H. cbn beta iota in H.
  set (self := {| config := cfg; tailscale_config := section cfg "tailscale_config";
                  network_config := section cfg "network_config" |}) in H.
  unfold and_then at 1 in H.
  destruct (run self (set_os w' s)) as [[success|e] s1] eqn:Hrun.
  - unfold throw in H. inversion H; subst code; clear H.
    destruct (Z.eqb_spec (euid s) 0) as [Hu|Hu].
    + now rewrite (run_ignores_root_free self (set_os w' s) s1 success Hu Hrun).
    + rewrite (run_requires_root_free self (set_os w' s) Hu) in Hrun. now inversion Hrun.
  - pose proof (escapes_run self _ _ _ Hrun) as He. inversion H; subst e. discriminate.
Qed.

Lemma setup_exit_status_witness :
  main ["--help"] (terminal 1000 broken_machine)
  = (Raise (SystemExit 0),
     set_console (console (terminal 1000 broken_machine) ++ [Usage])
                 (terminal 1000 broken_machine)).
Proof.
  apply (proj2 (setup_exit_status ["--help"] (terminal 1000 broken_machine))).
  reflexivity.
Defined.

(** One checked command in a session, by the way it ends. *)
Lemma lift_run_checked {N} c args (s : session N) :
  lift (run_checked (c :: args)) s
  = match fst (next_answer (os s)) with
    | Exits rc _ err _ =>
        (if rc =? 0 then Ret tt else Raise (CalledProcessError rc (c :: args) (Some err)),
         set_os (ran (Process (c :: args) EmptyString (Some rc)) (os s)) s)
    | CannotRun why =>
        (Raise (OSError why), set_os (set_answers (snd (next_answer (os s))) (os s)) s)
    end.
Proof.
  unfold lift, run_checked, bind, subprocess_run, ran.
  destruct (next_answer (os s)) as [[rc out err secs|why] rest]; cbn [fst snd];
    [destruct (rc =? 0)|]; reflexivity.
Qed.

Lemma started_nil {N A} (m : IO (N := N) A) s :
  spawned (os (snd (m s))) = spawned (os s) -> started m s = [].
Proof. unfold started. intros ->. apply drop_all. Qed.

Lemma started_app {N A} (m : IO (N := N) A) s ps :
  spawned (os (snd (m s))) = spawned (os s) ++ ps -> started m s = ps.
Proof. unfold started. intros ->. apply drop_app_length. Qed.

(** A command that runs when a setting asks for it. *)
Lemma guarded_command_outcome (enabled : bool) c args (n : notice) (s : session notice) :
  match (if enabled then lift (run_checked (c :: args)) ;;; say n else unit_ tt) s with
  | (Ret _, s') =>
      spawned (os s')
      = spawned (os s) ++ (if enabled then [Process (c :: args) EmptyString (Some 0)] else [])
      /\ files (os s') = files (os s) /\ write_fault s' = write_fault s
  | (Raise e, s') =>
      files (os s') = files (os s)
      /\ ((exists rc cmd stderr, e = CalledProcessError rc cmd stderr)
          \/ exists why, e = OSError why)
  end.
Proof.
  destruct enabled.
  2:{ unfold unit_. now rewrite app_nil_r. }
  unfold and_then. rewrite lift_run_checked.
  destruct (fst (next_answer (os s))) as [rc out err secs|why].
  - destruct (Z.eqb_spec rc 0) as [->|Hrc].
    + unfold say. cbn. auto.
    + cbn. eauto 6.
  - cbn. eauto.
Qed.

Lemma forwarding_body_outcome self s :
  match forwarding_body self s with
  | (Ret b, s') =>
      b = true
      /\ spawned (os s') = spawned (os s) ++ forwarding_commands self
      /\ listing sysctl_conf (os s') = sysctl_text self
      /\ forall path, path <> sysctl_conf -> files (os s') !! path = files (os s) !! path
  | (Raise e, s') =>
      files (os s') = files (os s)
      /\ ((exists rc cmd stderr, e = CalledProcessError rc cmd stderr)
          \/ exists why, e = OSError why)
  end.
Proof.
  unfold forwarding_body, forwarding_commands.
  unfold and_then at 1.
  pose proof (guarded_command_outcome (ipv4_enabled self) "sysctl"
                ["-w"; "net.ipv4.ip_forward=1"] IPv4ForwardingEnabled s) as H1.
  match type of H1 with
  | (let (_, _) := ?t in _) => destruct t as [[[]|e1] s1]; [|exact H1]
  end.
  destruct H1 as (S1 & F1 & W1).
  unfold and_then at 1.
  pose proof (guarded_command_outcome (ipv6_enabled self) "sysctl"
                ["-w"; "net.ipv6.conf.all.forwarding=1"] IPv6ForwardingEnabled s1) as H2.
  match type of H2 with
  | (let (_, _) := ?t in _) => destruct t as [[[]|e2] s2]
  end.
  2:{ destruct H2 as [F2 He]. split; [congruence | exact He]. }
  destruct H2 as (S2 & F2 & W2).
  unfold and_then, write_file. rewrite W2, W1.
  destruct (write_fault s) as [why|].
  { split; [congruence | eauto]. }
  unfold lift, write_text, say, unit_. cbn [os set_os set_console].
  split; [reflexivity|]. split; [|split].
  - cbn [spawned set_files]. rewrite S2, S1. now rewrite <- app_assoc.
  - unfold listing. cbn [files set_files]. rewrite lookup_insert_eq.
    now destruct (files (os s2) !! sysctl_conf).
  - intros path Hp. cbn [files set_files]. rewrite lookup_insert_ne by congruence.
    now rewrite F2, F1.
Qed.

(** X22.  [enable_ip_forwarding] always returns.  When the settings
    advertise neither an exit node nor routes, it returns [True] and does
    nothing at all.  Otherwise, when it returns [True], it has run
    [sysctl -w] with status 0 for each enabled address family (IPv4 by
    default, IPv6 on request) and nothing else, and
    [/etc/sysctl.d/99-tailscale.conf] holds exactly one line for each of
    them, no other file having changed; and when it returns [False], no
    file has changed. *)
Theorem enable_ip_forwarding_outcome (self : TailscaleSetupMethods.t)
    (s : session notice) :
  let m := enable_ip_forwarding self in
  (advertising self = false -> m s = (Ret true, s))
  /\ exists b, fst (m s) = Ret b
       /\ (b = false -> files (os (snd (m s))) = files (os s))
       /\ (advertising self = true -> b = true ->
           started m s = forwarding_commands self
           /\ listing sysctl_conf (os (snd (m s))) = sysctl_text self
           /\ forall path, path <> sysctl_conf ->
                files (os (snd (m s))) !! path = files (os s) !! path).
Proof.
  intros m. unfold started. destruct (m s) as [r s'] eqn:Hrun. cbn [fst snd].
  unfold m, enable_ip_forwarding in Hrun. fold (advertising self) in Hrun.
  destruct (advertising self); cbn [negb] in Hrun.
  2:{ unfold unit_ in Hrun. inversion Hrun; subst r s'.
      split; [reflexivity|]. exists true. split; [reflexivity|].
      split; intros Hb; discriminate Hb. }
  split; [intros Hb; discriminate Hb|].
  fold (forwarding_body self) in Hrun.
  unfold and_then, say, attempt in Hrun.
  set (s0 := set_console (console s ++ [EnablingForwarding]) s) in Hrun.
  pose proof (forwarding_body_outcome self s0) as H.
  destruct (forwarding_body self s0) as [[b|e] s1].
  - destruct H as (-> & S1 & L1 & F1). inversion Hrun; subst r s'. exists true.
    split; [reflexivity|]. split; [intros Hb; discriminate Hb|]. intros _ _.
    split; [|split; assumption]. rewrite S1. apply drop_app_length.
  - destruct H as (F1 & [(rc & cmd & stderr & ->)|(why & ->)]); cbn in Hrun;
      inversion Hrun; subst r s'; exists false;
      (split; [reflexivity|]); (split; [intros _; exact F1 | intros _ Hb; discriminate Hb]).
Qed.

Lemma enable_ip_forwarding_outcome_witness :
  started (enable_ip_forwarding router) (terminal 0 quiet_world)
  = forwarding_commands router
  /\ listing sysctl_conf (os (snd (enable_ip_forwarding router (terminal 0 quiet_world))))
     = sysctl_text router.
Proof.
  destruct (enable_ip_forwarding_outcome router (terminal 0 quiet_world))
    as [_ (b & Hb & _ & H)].
  assert (E : b = true) by (vm_compute in Hb; now inversion Hb).
  destruct (H eq_refl E) as (H1 & H2 & _). now split.
Defined.

(** Running the structure of a computation in a session. *)
Ltac in_session :=
  repeat (unfold and_then, attempt, say, unit_, throw, sleep, geteuid, ret, raise,
            set_os, set_console, set_naps;
          cbn [fst snd os euid console naps write_fault
               spawned set_spawned set_answers set_printed files printed]).

Ltac in_session_in H :=
  repeat (unfold and_then, attempt, say, unit_, throw, sleep, geteuid, ret, raise,
            set_os, set_console, set_naps in H;
          cbn [fst snd os euid console naps write_fault
               spawned set_spawned set_answers set_printed files printed] in H).

Lemma words_strings ss w :
  words (map (fun x => Scalar (VStr x)) ss) w = (Ret ss, w).
Proof.
  induction ss as [|x ss IH]; [reflexivity|].
  simpl. unfold bind. now rewrite IH.
Qed.

(** X23.  [configure_exit_node] does nothing and returns [True] when no
    exit node is configured.  For an exit node given by name it runs one
    command, [tailscale set --exit-node <name>], with
    [--exit-node-allow-lan-access] appended when that setting is on, and
    returns whether the command exited with status 0; when the command
    cannot be run at all, the [OSError] escapes. *)
Theorem configure_exit_node_outcome (self : TailscaleSetupMethods.t)
    (s : session notice) :
  let exit_node := get (network_config self) "exit_node" (Scalar (VStr EmptyString)) in
  let m := configure_exit_node self in
  (holds exit_node = false -> m s = (Ret true, s))
  /\ (forall node, exit_node = Scalar (VStr node) -> node <> EmptyString ->
      match fst (next_answer (os s)) with
      | Exits rc _ _ _ =>
          fst (m s) = Ret (rc =? 0)
          /\ started m s = [Process (exit_node_command self node) EmptyString (Some rc)]
      | CannotRun why => fst (m s) = Raise (OSError why) /\ started m s = []
      end).
Proof.
  intros exit_node m. unfold started.
  destruct (m s) as [r s'] eqn:Hrun. cbn [fst snd].
  unfold m, configure_exit_node in Hrun. fold exit_node in Hrun. split.
  { intros Hh. rewrite Hh in Hrun. cbn [negb] in Hrun. exact (eq_sym Hrun). }
  intros node Hn Hne. rewrite Hn in Hrun.
  assert (Hh : holds (Scalar (VStr node)) = true).
  { simpl. destruct node; [congruence | reflexivity]. }
  rewrite Hh in Hrun. cbn [negb] in Hrun.
  assert (Hcmd : [Scalar (VStr "tailscale"); Scalar (VStr "set");
                  Scalar (VStr "--exit-node"); Scalar (VStr node)]
                 ++ flag (network_config self) "exit_node_allow_lan_access"
                         "--exit-node-allow-lan-access"
                 = map (fun x => Scalar (VStr x)) (exit_node_command self node)).
  { unfold exit_node_command, flag.
    destruct (holds (get (network_config self) "exit_node_allow_lan_access"
                         (Scalar VNone))); reflexivity. }
  rewrite Hcmd in Hrun. clear Hcmd.
  unfold and_then at 1, say at 1 in Hrun. unfold attempt, and_then at 1, lift at 1 in Hrun.
  unfold bind at 1 in Hrun. cbn [os set_console] in Hrun. rewrite words_strings in Hrun.
  assert (Hc : exists rest, exit_node_command self node = "tailscale" :: rest)
    by (eexists; reflexivity).
  destruct Hc as [rest0 Hc]. rewrite Hc in Hrun.
  unfold run_checked, bind, subprocess_run in Hrun.
  destruct (next_answer (os s)) as [[rc out err secs|why] rest]; cbn [fst snd] in *.
  - destruct (rc =? 0) eqn:Hrc; in_session_in Hrun; inversion Hrun; subst r s';
      cbn [os spawned set_answers set_spawned]; rewrite drop_app_length, Hc;
      split; reflexivity.
  - in_session_in Hrun. inversion Hrun; subst r s'.
    cbn [os spawned set_answers set_spawned]. rewrite drop_all. split; reflexivity.
Qed.

Lemma configure_exit_node_outcome_witness :
  fst (configure_exit_node router (terminal 0 quiet_world)) = Ret true
  /\ started (configure_exit_node router) (terminal 0 quiet_world)
     = [Process ["tailscale"; "set"; "--exit-node"; "100.64.0.1"] EmptyString (Some 0)].
Proof.
  apply (proj2 (configure_exit_node_outcome router (terminal 0 quiet_world))
               "100.64.0.1" eq_refl).
  discriminate.
Defined.






Lemma next_answer_answer w : next_answer w = (answer 0 w, tl (answers w)).
Proof. unfold next_answer, answer. destruct (answers w); reflexivity. Qed.












End TailscaleSetupProperties.

(* ===================================================================== *)
(** * Properties of the FTP debugger                                     *)
(* ===================================================================== *)

Section FTPDebuggerProperties.
Import FTPDebuggerMethods.
Local Open Scope session_scope.

(** [_run_command] always reports: the world moves on by one answer, and
    at most the command asked for has been started. *)
Lemma run_command_reply (c : string) (args : list string) (s : session notice) :
  exists w',
    _run_command (c :: args) s
    = (Ret (report (c :: args) FTPDebugger.default_timeout (answer 0 (os s))), set_os w' s)
    /\ (forall i, answer i w' = answer (S i) (os s))
    /\ (exists st, spawned w' = spawned (os s)
                               ++ match st with
                                  | Some st => [Process (c :: args) EmptyString st]
                                  | None => []
                                  end).
Proof.
  unfold _run_command, lift, FTPDebugger._run_command, try_, subprocess_run, report.
  rewrite next_answer_answer.
  assert (H : forall w', answers w' = tl (answers (os s)) ->
                         forall i, answer i w' = answer (S i) (os s)).
  { intros w' E i. unfold answer. rewrite E.
    destruct (answers (os s)); [now destruct i | reflexivity]. }
  destruct (answer 0 (os s)) as [rc out err secs|why].
  - destruct (FTPDebugger.default_timeout <? secs); eexists; (split; [reflexivity|]);
      (split; [apply H; reflexivity|]).
    + now exists (Some None).
    + now exists (Some (Some rc)).
  - eexists. split; [reflexivity|]. split; [apply H; reflexivity|].
    exists None. cbn. now rewrite app_nil_r.
Qed.

Lemma check_service_step service description self (s : session notice) :
  exists s',
    check_service (service, description) self s
    = (Ret (if String.eqb (strip (snd (fst (report ["systemctl"; "is-active"; service]
                                                   FTPDebugger.default_timeout
                                                   (answer 0 (os s))))))
                          "active"
            then passed (String.append description " is running") self
            else if String.eqb service "fail2ban"
                 then warned (String.append description " is not running") self
                 else found (String.append description " is not running") self), s').
Proof.
  unfold check_service, and_then.
  destruct (run_command_reply "systemctl" ["is-active"; service] s) as (w1 & -> & _ & _).
  destruct (report _ _ _) as [[code stdout] stderr]. cbn [fst snd].
  destruct (String.eqb (strip stdout) "active"); [unfold say, unit_; eauto|].
  destruct (String.eqb service "fail2ban"); [unfold say, unit_; eauto|].
  unfold say at 1.
  match goal with
  | |- context [_run_command ?c ?s1] =>
      destruct (run_command_reply "systemctl" ["status"; service] s1) as (w2 & -> & _ & _)
  end.
  destruct (report _ _ _) as [[code2 stdout2] stderr2]. unfold say, unit_. eauto.
Qed.

(** The text of a concatenation of literal strings. *)
Ltac literal_strings :=
  repeat match goal with
         | |- context [String.append ?a ?b] =>
             let v := eval vm_compute in (String.append a b) in
             change (String.append a b) with v
         end.

(** What a list of the debugger has gained. *)
Ltac tally :=
  cbn [passed_checks warnings issues_found passed warned found];
  rewrite <- ?app_assoc; first [ reflexivity | symmetry; apply app_nil_r ].

Lemma check_services_files (self : FTPDebuggerMethods.t) (s : session notice) :
  exists self' s' p w i,
    check_services self s = (Ret self', s')
    /\ passed_checks self' = passed_checks self ++ p
    /\ warnings self' = warnings self ++ w
    /\ issues_found self' = issues_found self ++ i
    /\ (List.length p + List.length w + List.length i = 3)%nat
    /\ incl w ["fail2ban (optional) is not running"]
    /\ incl i ["vsftpd (FTP Server) is not running"; "SSH/SFTP Server is not running"]
    /\ (In "vsftpd (FTP Server) is running" p
        <-> strip (snd (fst (report ["systemctl"; "is-active"; "vsftpd"]
                                    FTPDebugger.default_timeout (answer 0 (os s)))))
            = "active").
Proof.
  unfold check_services, print_header. unfold and_then at 1, say at 1.
  cbn [for_each services]. unfold and_then.
  match goal with
  | |- context [check_service _ self ?s0] =>
      destruct (check_service_step "vsftpd" "vsftpd (FTP Server)" self s0) as (s1 & ->)
  end.
  cbn [os set_console].
  match goal with
  | |- context [check_service _ ?self1 s1] =>
      destruct (check_service_step "ssh" "SSH/SFTP Server" self1 s1) as (s2 & ->)
  end.
  match goal with
  | |- context [check_service _ ?self2 s2] =>
      destruct (check_service_step "fail2ban" "fail2ban (optional)" self2 s2) as (s3 & ->)
  end.
  unfold unit_.
  change (String.eqb "vsftpd" "fail2ban") with false.
  change (String.eqb "ssh" "fail2ban") with false.
  change (String.eqb "fail2ban" "fail2ban") with true.
  destruct (String.eqb_spec
              (strip (snd (fst (report ["systemctl"; "is-active"; "vsftpd"]
                                       FTPDebugger.default_timeout (answer 0 (os s))))))
              "active") as [E1|E1];
    destruct (String.eqb (strip (snd (fst (report ["systemctl"; "is-active"; "ssh"] _ _))))
                         "active");
    destruct (String.eqb (strip (snd (fst (report ["systemctl"; "is-active"; "fail2ban"]
                                                  _ _))))
                         "active").
  all: literal_strings.
  all: eexists _, _, _, _, _; (split; [reflexivity|]); do 3 (split; [tally|]).
  all: split; [reflexivity|].
  all: split; [intros a Ha; simpl in *; tauto|].
  all: split; [intros a Ha; simpl in *; tauto|].
  all: simpl; split; intros H; try tauto; intuition discriminate.
Qed.




Lemma check_firewall_files (self : FTPDebuggerMethods.t) (s : session notice) :
  let which := report ["which"; "ufw"] FTPDebugger.default_timeout (answer 0 (os s)) in
  let status :=
    snd (fst (report ["ufw"; "status"] FTPDebugger.default_timeout (answer 1 (os s)))) in
  let missing port := negb (contains status port) in
  exists self' s',
    check_firewall self s = (Ret self', s')
    /\ if negb (fst (fst which) =? 0) then
         self' = warned "UFW firewall not installed" self
         /\ Forall (fun p => argv p = ["which"; "ufw"]) (started (check_firewall self) s)
       else if contains (lower status) "inactive" then
         self' = warned "UFW firewall is inactive" self
       else
         warnings self' = warnings self
         /\ issues_found self'
            = issues_found self
              ++ map (String.append "Firewall does not allow port ")
                     (List.filter missing required_ports)
         /\ passed_checks self'
            = passed_checks self
              ++ map (String.append "Firewall allows port ")
                     (List.filter (fun port => negb (missing port)) required_ports).
Proof.
  cbv zeta. unfold started.
  destruct (check_firewall self s) as [r s'] eqn:Hrun. cbn [fst snd].
  unfold check_firewall, print_header in Hrun. unfold and_then at 1, say at 1 in Hrun.
  unfold and_then at 1 in Hrun.
  match type of Hrun with
  | context [_run_command _ ?s0] =>
      destruct (run_command_reply "which" ["ufw"] s0) as (w1 & E1 & A1 & st & S1)
  end.
  rewrite E1 in Hrun. clear E1. cbn [os set_console] in A1, S1, Hrun.
  set (which := report ["which"; "ufw"] FTPDebugger.default_timeout (answer 0 (os s))) in *.
  destruct which as [[code stdout] stderr]. cbn [fst snd] in *.
  destruct (code =? 0); cbn [negb] in *.
  2:{ unfold say, unit_ in Hrun. inversion Hrun; subst r s'. eexists _, _.
      split; [reflexivity|]. split; [reflexivity|].
      cbn [os set_os set_console]. rewrite S1, drop_app_length.
      destruct st as [st|]; repeat constructor. }
  unfold and_then at 1 in Hrun.
  match type of Hrun with
  | context [_run_command _ ?s0] =>
      destruct (run_command_reply "ufw" ["status"] s0) as (w2 & E2 & _ & _)
  end.
  rewrite E2 in Hrun. clear E2. cbn [os set_os] in Hrun. rewrite A1 in Hrun.
  set (reply := report ["ufw"; "status"] FTPDebugger.default_timeout (answer 1 (os s))) in *.
  destruct reply as [[code2 status] stderr2]. cbn [fst snd] in *.
  destruct (contains (lower status) "inactive").
  { unfold and_then, say, unit_ in Hrun. inversion Hrun; subst r s'. eauto. }
  unfold and_then at 1, say at 1 in Hrun.
  cbn [for_each required_ports List.filter map] in Hrun |- *.
  unfold and_then, check_rule in Hrun.
  destruct (contains status "21"); destruct (contains status "22");
    destruct (contains status "40000:40100");
    unfold say, unit_ in Hrun; inversion Hrun; subst r s';
    cbn [negb List.filter map]; literal_strings;
    eexists _, _; (split; [reflexivity|]);
    cbn [passed_checks warnings issues_found passed warned found];
    rewrite <- ?app_assoc, ?app_nil_r; auto.
Qed.


(** The value of a test or a split of a literal text. *)
Ltac texts :=
  repeat match goal with
         | |- context [contains (lower ?a) ?b] =>
             let v := eval vm_compute in (contains (lower a) b) in
             change (contains (lower a) b) with v
         | |- context [split ?a] =>
             let v := eval vm_compute in (split a) in change (split a) with v
         | |- context [Nat.ltb ?a (List.length ?l)] =>
             let v := eval vm_compute in (Nat.ltb a (List.length l)) in
             change (Nat.ltb a (List.length l)) with v
         | |- context [lower ?a] =>
             let v := eval vm_compute in (lower a) in change (lower a) with v
         end.

(** The fix suggested for each issue the two checks can file. *)
Lemma suggest_filed (self : t) (i : nat) (issue : string) (s : session notice) :
  In issue ["vsftpd (FTP Server) is not running"; "SSH/SFTP Server is not running";
            "Firewall does not allow port 21"; "Firewall does not allow port 22";
            "Firewall does not allow port 40000:40100"] ->
  exists n s',
    suggest self i issue s = (Ret tt, s')
    /\ console s' = console s ++ [Numbered i issue; n; BlankLine]
    /\ ((issue = "vsftpd (FTP Server) is not running" /\ n = FixService "vsftpd")
        \/ (issue = "SSH/SFTP Server is not running" /\ n = FixService "ssh/sftp")
        \/ (In issue ["Firewall does not allow port 21"; "Firewall does not allow port 22";
                      "Firewall does not allow port 40000:40100"]
            /\ n = FixFirewall "allow")).
Proof.
  intros H. simpl in H.
  destruct H as [<-|[<-|[<-|[<-|[<-|[]]]]]];
    unfold suggest; texts; cbn [andb]; unfold word; texts; cbn [nth_error];
    unfold and_then, say, unit_; cbn [console set_console];
    rewrite <- !app_assoc; cbn [app];
    eexists _, _; (split; [reflexivity|]); (split; [cbn; reflexivity|]);
    simpl; auto 8.
Qed.

Lemma suggest_each_filed (self : t) (issues : list string) :
  Forall (fun issue =>
            In issue ["vsftpd (FTP Server) is not running";
                      "SSH/SFTP Server is not running";
                      "Firewall does not allow port 21";
                      "Firewall does not allow port 22";
                      "Firewall does not allow port 40000:40100"]) issues ->
  forall (start : nat) (s : session notice),
  exists ns s',
    suggest_each self start issues s = (Ret tt, s')
    /\ console s' = console s ++ ns
    /\ (forall service, In (FixService service) ns ->
                        service = "vsftpd" \/ service = "ssh/sftp")
    /\ (forall port, In (FixFirewall port) ns -> port = "allow")
    /\ (In "SSH/SFTP Server is not running" issues -> In (FixService "ssh/sftp") ns)
    /\ (forall issue,
          In issue ["Firewall does not allow port 21"; "Firewall does not allow port 22";
                    "Firewall does not allow port 40000:40100"] ->
          In issue issues -> In (FixFirewall "allow") ns).
Proof.
  induction 1 as [|issue issues Hi _ IH]; intros start s.
  - exists [], s. split; [reflexivity|]. split; [now rewrite app_nil_r|].
    repeat split; intros; contradiction.
  - destruct (suggest_filed self start issue s Hi) as (n & s1 & E1 & C1 & Hn).
    destruct (IH (S start) s1) as (ns & s' & E & C & Hs & Hf & Hssh & Hfw).
    exists ([Numbered start issue; n; BlankLine] ++ ns), s'.
    split; [cbn [suggest_each]; unfold and_then; rewrite E1; exact E|].
    split; [rewrite C, C1; now rewrite <- app_assoc|].
    split; [|split; [|split]].
    + intros service [H|[H|[H|H]]]; try discriminate H; [|now apply Hs].
      destruct Hn as [[_ ->]|[[_ ->]|[_ ->]]]; inversion H; auto.
    + intros port [H|[H|[H|H]]]; try discriminate H; [|now apply Hf].
      destruct Hn as [[_ ->]|[[_ ->]|[_ ->]]]; inversion H; auto.
    + intros [H|H]; [|right; right; right; now apply Hssh].
      right; left.
      destruct Hn as [[-> _]|[[_ ->]|[Hin _]]]; [discriminate H|reflexivity|].
      subst issue. simpl in Hin. intuition discriminate.
    + intros x Hx [H|H]; [|right; right; right; now apply (Hfw x)].
      subst x. right; left.
      destruct Hn as [[-> _]|[[-> _]|[_ ->]]]; [| |reflexivity];
        simpl in Hx; intuition discriminate.
Qed.

(** What the checks of the services and of the firewall file as issues. *)
Lemma issues_filed (self0 self1 self2 : t) (s0 s1 s1' s2 : session notice) :
  issues_found self0 = [] ->
  check_services self0 s0 = (Ret self1, s1) ->
  check_firewall self1 s1' = (Ret self2, s2) ->
  Forall (fun issue =>
            In issue ["vsftpd (FTP Server) is not running";
                      "SSH/SFTP Server is not running";
                      "Firewall does not allow port 21";
                      "Firewall does not allow port 22";
                      "Firewall does not allow port 40000:40100"])
         (issues_found self2).
Proof.
  intros H0 H1 H2.
  destruct (check_services_files self0 s0) as (x1 & y1 & p & w & i & E1 & _ & _ & I1 & _ & _ & Hi & _).
  rewrite H1 in E1. inversion E1; subst x1 y1; clear E1.
  rewrite H0 in I1. cbn [app] in I1.
  assert (F1 : Forall (fun issue =>
                         In issue ["vsftpd (FTP Server) is not running";
                                   "SSH/SFTP Server is not running";
                                   "Firewall does not allow port 21";
                                   "Firewall does not allow port 22";
                                   "Firewall does not allow port 40000:40100"])
                      (issues_found self1)).
  { rewrite I1. apply List.Forall_forall. intros x Hx. apply Hi in Hx.
    simpl in Hx |- *. tauto. }
  destruct (check_firewall_files self1 s1') as (x2 & y2 & E2 & Hc).
  rewrite H2 in E2. inversion E2; subst x2 y2; clear E2.
  cbv zeta in Hc.
  destruct (negb _); [destruct Hc as [-> _]; exact F1|].
  destruct (contains _ _); [subst self2; exact F1|].
  destruct Hc as (_ & -> & _).
  apply Forall_app. split; [exact F1|].
  apply List.Forall_forall. intros x Hx.
  apply in_map_iff in Hx as (port & <- & Hp).
  apply filter_In in Hp as [Hp _].
  simpl in Hp. destruct Hp as [<-|[<-|[<-|[]]]]; simpl; auto 8.
Qed.

(** X30.  The fixes suggested after the checks of the services and of the
    firewall.  Whatever those checks found, [generate_fixes] returns.  For
    a stopped service it suggests [systemctl start] of the first word of
    the service's description in lower case: [vsftpd] for the FTP server,
    but [ssh/sftp] for the SSH server, whose unit is [ssh].  For a port
    the firewall does not allow it suggests [ufw allow allow]: the word
    taken from the issue is always [allow], never the port. *)
Theorem fixes_after_checks (self0 self1 self2 : FTPDebuggerMethods.t)
    (s0 s1 s1' s2 s : session notice) :
  issues_found self0 = [] ->
  check_services self0 s0 = (Ret self1, s1) ->
  check_firewall self1 s1' = (Ret self2, s2) ->
  let printed := shown (generate_fixes self2) s in
  fst (generate_fixes self2 s) = Ret tt
  /\ (forall service, In (FixService service) printed ->
                      service = "vsftpd" \/ service = "ssh/sftp")
  /\ (In "SSH/SFTP Server is not running" (issues_found self2) ->
      In (FixService "ssh/sftp") printed)
  /\ (forall port, In (FixFirewall port) printed -> port = "allow")
  /\ (forall port, In port required_ports ->
        In (String.append "Firewall does not allow port " port) (issues_found self2) ->
        In (FixFirewall "allow") printed).
Proof.
  intros H0 H1 H2 printed.
  pose proof (issues_filed _ _ _ _ _ _ _ H0 H1 H2) as Hall.
  unfold printed, shown, generate_fixes. clear printed.
  destruct (issues_found self2) as [|issue rest] eqn:Hi.
  { unfold unit_. cbn [fst snd]. rewrite drop_all.
    split; [reflexivity|]. repeat split; intros; contradiction. }
  unfold print_header, and_then, say.
  match goal with
  | |- context [suggest_each self2 1 _ ?s0] =>
      destruct (suggest_each_filed self2 _ Hall 1%nat s0)
        as (ns & s' & -> & C & Hs & Hf & Hssh & Hfw)
  end.
  cbn [fst snd]. rewrite C. cbn [console set_console].
  rewrite <- app_assoc, drop_app_length. cbn [app].
  split; [reflexivity|]. split; [|split; [|split]].
  - intros service [H|H]; [discriminate H | now apply Hs].
  - intros H. right. now apply Hssh.
  - intros port [H|H]; [discriminate H | now apply Hf].
  - intros port Hp H. right. refine (Hfw _ _ H).
    simpl in Hp. destruct Hp as [<-|[<-|[<-|[]]]]; simpl; auto.
Qed.

Lemma fixes_after_checks_witness :
  let self1 :=
    Build ∅ ∅ ["SSH/SFTP Server is not running"] ["fail2ban (optional) is not running"]
          ["vsftpd (FTP Server) is running"] in
  let self2 :=
    Build ∅ ∅ ["SSH/SFTP Server is not running"; "Firewall does not allow port 21";
               "Firewall does not allow port 40000:40100"]
          ["fail2ban (optional) is not running"]
          ["vsftpd (FTP Server) is running"; "Firewall allows port 22"] in
  let printed := shown (generate_fixes self2) (terminal 0 quiet_world) in
  fst (generate_fixes self2 (terminal 0 quiet_world)) = Ret tt
  /\ (forall service, In (FixService service) printed ->
                      service = "vsftpd" \/ service = "ssh/sftp")
  /\ (In "SSH/SFTP Server is not running" (issues_found self2) ->
      In (FixService "ssh/sftp") printed)
  /\ (forall port, In (FixFirewall port) printed -> port = "allow")
  /\ (forall port, In port required_ports ->
        In (String.append "Firewall does not allow port " port) (issues_found self2) ->
        In (FixFirewall "allow") printed).
Proof.
  intros self1 self2.
  apply (fixes_after_checks fresh_debugger self1 self2
           (terminal 0 troubled_server)
           (snd (check_services fresh_debugger (terminal 0 troubled_server)))
           (snd (check_services fresh_debugger (terminal 0 troubled_server)))
           (snd (check_firewall self1
                   (snd (check_services fresh_debugger (terminal 0 troubled_server)))))
           (terminal 0 quiet_world)).
  - reflexivity.
  - apply run_outcome_in_session. vm_compute. reflexivity.
  - apply run_outcome_in_session. vm_compute. reflexivity.
Defined.

End FTPDebuggerProperties.
